(** * State-based lighthouse disambiguator (src/disambiguator_statebased.c)

    A shallow embedding of the disambiguator of libsurvive.  Machine
    integers are carried as [Z]: unsigned arithmetic is reduced modulo
    the width of its C type, conversions to a signed type re-interpret
    the bits in two's complement, and the signed operators [/] and [%]
    are [Z.quot] and [Z.rem].  Pointers into the context ([d], [so], [g])
    become an index into the context's object list, and every function
    that mutates through them takes the context and gives it back.  The
    calls of [ctx->lightproc] are recorded in the context; logging
    ([SV_INFO], [SV_WARN], [DEBUG_TB]), values computed only for it and
    arguments a function never reads are left out. *)

From Stdlib Require Import ZArith List Bool Lia Sorted.
Import ListNotations.

Local Open Scope Z_scope.

(** ** Machine integers *)

Definition wrap_u8 (x : Z) : Z := x mod 2 ^ 8.
Definition wrap_u16 (x : Z) : Z := x mod 2 ^ 16.
Definition wrap_u32 (x : Z) : Z := x mod 2 ^ 32.
Definition wrap_u64 (x : Z) : Z := x mod 2 ^ 64.

(** Conversion of an integer value to [int] / [int32_t]. *)
Definition to_int (x : Z) : Z := (x + 2 ^ 31) mod 2 ^ 32 - 2 ^ 31.

(** ** The schedule table *)

Definition PULSE_WINDOW : Z := 20000.
Definition CAPTURE_WINDOW : Z := 360000.

(** [enum LighthouseState]: the code does arithmetic on the enumerators
    ([guess++], [d->state + 1], [new_state >= LS_END]), so they are
    integers here. *)
Definition LS_UNKNOWN : Z := 0.
Definition LS_WaitLHA_ACode4 : Z := 1.
Definition LS_WaitLHA_ACode0 : Z := 2.
Definition LS_SweepAX : Z := 3.
Definition LS_WaitLHA_ACode5 : Z := 4.
Definition LS_WaitLHA_ACode1 : Z := 5.
Definition LS_SweepAY : Z := 6.
Definition LS_WaitLHB_ACode0 : Z := 7.
Definition LS_WaitLHB_ACode4 : Z := 8.
Definition LS_SweepBX : Z := 9.
Definition LS_WaitLHB_ACode1 : Z := 10.
Definition LS_WaitLHB_ACode5 : Z := 11.
Definition LS_SweepBY : Z := 12.
Definition LS_END : Z := 13.

Record LighthouseStateParameters := mkParams {
  acode : Z;
  lh : Z;
  axis : Z;
  window : Z;
  is_sweep : bool
}.

Definition LS_Params : list LighthouseStateParameters :=
  [ mkParams 0 (-1) (-1) 0 false;
    mkParams 4 1 0 PULSE_WINDOW false;
    mkParams 0 0 0 PULSE_WINDOW false;
    mkParams 4 0 0 CAPTURE_WINDOW true;
    mkParams 5 1 1 PULSE_WINDOW false;
    mkParams 1 0 1 PULSE_WINDOW false;
    mkParams 1 0 1 CAPTURE_WINDOW true;
    mkParams 0 1 0 PULSE_WINDOW false;
    mkParams 4 0 0 PULSE_WINDOW false;
    mkParams 4 1 0 CAPTURE_WINDOW true;
    mkParams 1 1 1 PULSE_WINDOW false;
    mkParams 5 0 1 PULSE_WINDOW false;
    mkParams 5 1 1 CAPTURE_WINDOW true;
    mkParams 0 (-1) (-1) 0 false ].

(** [LS_Params[s]]; every index the code uses lies in [0, LS_END]. *)
Definition LS_Params_at (s : Z) : LighthouseStateParameters :=
  nth (Z.to_nat s) LS_Params (mkParams 0 (-1) (-1) 0 false).

(** [ACODE_TIMING(acode)] *)
Definition ACODE_TIMING (a : Z) : Z :=
  (3000 + Z.land a 1 * 500 + Z.land (Z.shiftr a 1) 1 * 1000
   + Z.land (Z.shiftr a 2) 1 * 2000) - 250.

Definition SKIP_BIT : Z := 4.
Definition DATA_BIT : Z := 2.
Definition AXIS_BIT : Z := 1.

Definition LSParam_acode (s : Z) : Z := acode (LS_Params_at s).

(** The static table filled by the first call of
    [LSParam_offset_for_state]: [offsets[i] = offset; offset += window]. *)
Fixpoint fill_offsets (ps : list LighthouseStateParameters) (offset : Z) : list Z :=
  match ps with
  | [] => []
  | p :: ps' => offset :: fill_offsets ps' (offset + window p)
  end.

Definition LSParam_offset_for_state (s : Z) : Z :=
  nth (Z.to_nat s) (fill_offsets LS_Params 0) 0.

(** The loop of [LighthouseState_findByOffset], [i] running up to
    [LS_END]; the pair is the returned state and the value stored through
    [error].  Falling out of the loop is [assert(false); return -1]. *)
Fixpoint findByOffset_from (fuel : nat) (i : Z) (offset : Z) : Z * Z :=
  match fuel with
  | O => (-1, 0)
  | S fuel' =>
      if offset <? LSParam_offset_for_state i then
        let offset_from_last := LSParam_offset_for_state (i - 1) in
        let offset_from_this := LSParam_offset_for_state i in
        let dist_from_last := offset - offset_from_last in
        let dist_from_this := offset_from_this - offset in
        let this_is_closest := dist_from_this <? dist_from_last in
        let this_is_closest :=
          if is_sweep (LS_Params_at (i - 1)) && (1000 <? dist_from_this)
          then false else this_is_closest in
        (if this_is_closest then i else i - 1,
         if this_is_closest then dist_from_this else dist_from_last)
      else findByOffset_from fuel' (i + 1) offset
  end.

Definition LighthouseState_findByOffset (offset : Z) : Z * Z :=
  findByOffset_from 12 2 offset.

(** ** Capture events *)

(** [LightcapElement] is declared in a header outside the sources at
    hand: [uint8_t sensor_id; uint16_t length; uint32_t timestamp]. *)
Record LightcapElement := mkLE {
  sensor_id : Z;
  length : Z;
  timestamp : Z
}.

Definition LE_zero : LightcapElement := mkLE 0 0 0.

Definition LE_wf (le : LightcapElement) : Prop :=
  0 <= sensor_id le < 2 ^ 8 /\ 0 <= length le < 2 ^ 16 /\ 0 <= timestamp le < 2 ^ 32.

Definition find_acode (pulseLen : Z) : Z :=
  let offset := 50 in
  if pulseLen <? 2500 + offset then -1
  else if pulseLen <? 3000 + offset then 0
  else if pulseLen <? 3500 + offset then 1
  else if pulseLen <? 4000 + offset then 2
  else if pulseLen <? 4500 + offset then 3
  else if pulseLen <? 5000 + offset then 4
  else if pulseLen <? 5500 + offset then 5
  else if pulseLen <? 6000 + offset then 6
  else if pulseLen <? 6500 + offset then 7
  else -1.

(** [overlaps]: the sums are taken in [uint32_t], the result of the
    subtraction is stored into [int overlap]. *)
Definition overlaps (a b : LightcapElement) : bool :=
  let overlap :=
    if (timestamp a <? timestamp b)
       && (timestamp b <? wrap_u32 (length a + timestamp a))
    then to_int (wrap_u32 (wrap_u32 (length a + timestamp a) - timestamp b))
    else if (timestamp b <? timestamp a)
            && (timestamp a <? wrap_u32 (length b + timestamp b))
    then to_int (wrap_u32 (wrap_u32 (length b + timestamp b) - timestamp a))
    else 0 in
  Z.quot (length a) 2 <? overlap.

Definition LOWER_SYNC_TIME : Z := 2250.
Definition UPPER_SYNC_TIME : Z := 6750.

Inductive LightcapClassification := LCC_SWEEP | LCC_SYNC.

Definition naive_classify (le : LightcapElement) : LightcapClassification :=
  let clearlyNotSync :=
    (length le <? LOWER_SYNC_TIME) || (UPPER_SYNC_TIME <? length le) in
  if clearlyNotSync then LCC_SWEEP else LCC_SYNC.

(** [calculate_error]: the two differences are [int]s, their absolute
    values are stored into [uint32_t]. *)
Definition calculate_error (target_acode : Z) (le : LightcapElement) : Z :=
  let time_error_d0 := wrap_u32 (Z.abs (ACODE_TIMING target_acode - length le)) in
  let time_error_d1 :=
    wrap_u32 (Z.abs (ACODE_TIMING (Z.lor target_acode DATA_BIT) - length le)) in
  if time_error_d1 <? time_error_d0 then time_error_d1 else time_error_d0.

(** [apply_mod_offset]: [timestamp] and [mod_offset] are [uint32_t],
    [mod_group] an [int] that the unsigned [%] converts to unsigned; the
    last branch works on [int32_t] values with the signed remainder. *)
Definition apply_mod_offset (timestamp mod_offset end_state : Z) : Z :=
  let mod_group := LSParam_offset_for_state end_state in
  if mod_offset <? timestamp then
    wrap_u32 (timestamp - mod_offset) mod wrap_u32 mod_group
  else if 0xFFFFFFFF / 2 <? wrap_u32 (mod_offset - timestamp) then
    wrap_u32 (0xFFFFFFFF - mod_offset + timestamp) mod wrap_u32 mod_group
  else
    let timestamp := timestamp mod wrap_u32 mod_group in
    let mod_offset := mod_offset mod wrap_u32 mod_group in
    let rtn := Z.rem (to_int (to_int timestamp - to_int mod_offset)) mod_group in
    let rtn := if rtn <? 0 then to_int (rtn + mod_group) else rtn in
    wrap_u32 rtn.


(** ** Tracker state *)

Definition SYNC_HISTORY_LEN : Z := 12.

(** [Disambiguator_data_t] without its back pointer [so]: the object is
    the index under which the record is stored in the context. *)
Record Disambiguator_data_t := mkD {
  last_timestamp : Z;
  last_sync_timestamp : Z;
  last_sync_length : Z;
  last_sync_count : Z;
  first_sync_timestamp : Z;
  longest_sync_length : Z;
  state : Z;
  mod_offset : list Z;
  confidence : Z;
  stabalize : Z;
  failures : Z;
  lastWasSync : bool;
  sync_history : list LightcapElement;
  sync_offset : Z;
  sweep_data : list LightcapElement
}.

Definition set_last_timestamp (d : Disambiguator_data_t) (v : Z) :=
  mkD v (last_sync_timestamp d) (last_sync_length d) (last_sync_count d)
      (first_sync_timestamp d) (longest_sync_length d) (state d) (mod_offset d)
      (confidence d) (stabalize d) (failures d) (lastWasSync d)
      (sync_history d) (sync_offset d) (sweep_data d).

Definition set_sync_registers (d : Disambiguator_data_t)
    (ts len cnt first longest : Z) :=
  mkD (last_timestamp d) ts len cnt first longest (state d) (mod_offset d)
      (confidence d) (stabalize d) (failures d) (lastWasSync d)
      (sync_history d) (sync_offset d) (sweep_data d).

Definition set_state (d : Disambiguator_data_t) (v : Z) :=
  mkD (last_timestamp d) (last_sync_timestamp d) (last_sync_length d)
      (last_sync_count d) (first_sync_timestamp d) (longest_sync_length d)
      v (mod_offset d) (confidence d) (stabalize d) (failures d)
      (lastWasSync d) (sync_history d) (sync_offset d) (sweep_data d).

Definition set_mod_offset (d : Disambiguator_data_t) (v : list Z) :=
  mkD (last_timestamp d) (last_sync_timestamp d) (last_sync_length d)
      (last_sync_count d) (first_sync_timestamp d) (longest_sync_length d)
      (state d) v (confidence d) (stabalize d) (failures d)
      (lastWasSync d) (sync_history d) (sync_offset d) (sweep_data d).

Definition set_confidence (d : Disambiguator_data_t) (v : Z) :=
  mkD (last_timestamp d) (last_sync_timestamp d) (last_sync_length d)
      (last_sync_count d) (first_sync_timestamp d) (longest_sync_length d)
      (state d) (mod_offset d) v (stabalize d) (failures d)
      (lastWasSync d) (sync_history d) (sync_offset d) (sweep_data d).

Definition set_stabalize (d : Disambiguator_data_t) (v : Z) :=
  mkD (last_timestamp d) (last_sync_timestamp d) (last_sync_length d)
      (last_sync_count d) (first_sync_timestamp d) (longest_sync_length d)
      (state d) (mod_offset d) (confidence d) v (failures d)
      (lastWasSync d) (sync_history d) (sync_offset d) (sweep_data d).

Definition set_failures (d : Disambiguator_data_t) (v : Z) :=
  mkD (last_timestamp d) (last_sync_timestamp d) (last_sync_length d)
      (last_sync_count d) (first_sync_timestamp d) (longest_sync_length d)
      (state d) (mod_offset d) (confidence d) (stabalize d) v
      (lastWasSync d) (sync_history d) (sync_offset d) (sweep_data d).

Definition set_lastWasSync (d : Disambiguator_data_t) (v : bool) :=
  mkD (last_timestamp d) (last_sync_timestamp d) (last_sync_length d)
      (last_sync_count d) (first_sync_timestamp d) (longest_sync_length d)
      (state d) (mod_offset d) (confidence d) (stabalize d) (failures d)
      v (sync_history d) (sync_offset d) (sweep_data d).

Definition set_sync_history (d : Disambiguator_data_t)
    (h : list LightcapElement) (off : Z) :=
  mkD (last_timestamp d) (last_sync_timestamp d) (last_sync_length d)
      (last_sync_count d) (first_sync_timestamp d) (longest_sync_length d)
      (state d) (mod_offset d) (confidence d) (stabalize d) (failures d)
      (lastWasSync d) h off (sweep_data d).

Definition set_sweep_data (d : Disambiguator_data_t) (v : list LightcapElement) :=
  mkD (last_timestamp d) (last_sync_timestamp d) (last_sync_length d)
      (last_sync_count d) (first_sync_timestamp d) (longest_sync_length d)
      (state d) (mod_offset d) (confidence d) (stabalize d) (failures d)
      (lastWasSync d) (sync_history d) (sync_offset d) v.

(** Array store [a[n] = v]; every store of the code is in range. *)
Fixpoint store {A : Type} (n : nat) (v : A) (l : list A) : list A :=
  match l, n with
  | [], _ => []
  | _ :: l', O => v :: l'
  | x :: l', S n' => x :: store n' v l'
  end.

(** What [calloc] returns for an object with [ct] sensors. *)
Definition D_zero (ct : Z) : Disambiguator_data_t :=
  mkD 0 0 0 0 0 0 LS_UNKNOWN [0; 0] 0 0 0 false
      (repeat LE_zero (Z.to_nat SYNC_HISTORY_LEN)) 0
      (repeat LE_zero (Z.to_nat ct)).

(** [d->mod_offset[lh]], for [lh] 0 or 1. *)
Definition mod_offset_at (d : Disambiguator_data_t) (l : Z) : Z :=
  nth (Z.to_nat l) (mod_offset d) 0.

Definition get_last_sync (d : Disambiguator_data_t) : LightcapElement :=
  if last_sync_count d =? 0 then LE_zero
  else mkLE (wrap_u8 (- last_sync_count d))
            (wrap_u16 (longest_sync_length d))
            (first_sync_timestamp d).

(** [assert(LS_Params[state].is_sweep == 0)] holds at both call sites,
    which test [is_sweep] before the call. *)
Definition SolveForMod_Offset (st : Z) (le : LightcapElement) : Z :=
  wrap_u32 (timestamp le - LSParam_offset_for_state st).

Definition AddSyncHistory (d : Disambiguator_data_t) (sync : LightcapElement)
  : Disambiguator_data_t :=
  if negb (length sync =? 0) then
    let h := store (Z.to_nat (sync_offset d)) sync (sync_history d) in
    let off := sync_offset d + 1 in
    set_sync_history d h (if SYNC_HISTORY_LEN <=? off then 0 else off)
  else d.

Definition RegisterSync (d : Disambiguator_data_t) (le : LightcapElement)
  : Disambiguator_data_t :=
  let first :=
    if (timestamp le <? first_sync_timestamp d) || (longest_sync_length d =? 0)
    then timestamp le else first_sync_timestamp d in
  let longest :=
    if longest_sync_length d <? length le then length le
    else longest_sync_length d in
  set_sync_registers d
    (wrap_u64 (last_sync_timestamp d + timestamp le))
    (wrap_u64 (last_sync_length d + length le))
    (to_int (last_sync_count d + 1))
    first longest.

Definition ResetSync (d : Disambiguator_data_t) : Disambiguator_data_t :=
  set_sync_registers d 0 0 0 0 0.

(** ** The context *)

(** The fields of [SurviveObject] the disambiguator reads ([int]s of a
    header outside the sources at hand) and its [disambiguator_data]
    pointer, [None] while it is [NULL]. *)
Record SurviveObject := mkSO {
  sensor_ct : Z;
  timebase_hz : Z;
  disambiguator_data : option Disambiguator_data_t
}.

Record Global_Disambiguator_data_t := mkG {
  single_60hz_mode : bool
}.

(** The arguments of one call of [ctx->lightproc], after the object. *)
Record LightprocCall := mkCall {
  lp_sensor_id : Z;
  lp_acode : Z;
  lp_timeinsweep : Z;
  lp_timecode : Z;
  lp_length : Z;
  lp_lh : Z
}.

(** [SurviveContext]: its objects, its [disambiguator_data] pointer and
    the calls of [lightproc] made so far, oldest first, each with the
    index of the object it was made for. *)
Record SurviveContext := mkCtx {
  objs : list SurviveObject;
  ctx_disambiguator_data : option Global_Disambiguator_data_t;
  lightproc_calls : list (nat * LightprocCall)
}.

Definition so_at (ctx : SurviveContext) (so : nat) : SurviveObject :=
  nth so (objs ctx) (mkSO 0 0 None).

(** [*d] for [d = so->disambiguator_data]. *)
Definition data_of (ctx : SurviveContext) (so : nat) : Disambiguator_data_t :=
  match disambiguator_data (so_at ctx so) with
  | Some d => d
  | None => D_zero (sensor_ct (so_at ctx so))
  end.

Fixpoint update_nth {A : Type} (n : nat) (f : A -> A) (l : list A) : list A :=
  match l, n with
  | [], _ => []
  | x :: l', O => f x :: l'
  | x :: l', S n' => x :: update_nth n' f l'
  end.

(** A write through [so]: object [so] of the context is replaced. *)
Definition with_obj (ctx : SurviveContext) (so : nat)
    (f : SurviveObject -> SurviveObject) : SurviveContext :=
  mkCtx (update_nth so f (objs ctx))
        (ctx_disambiguator_data ctx) (lightproc_calls ctx).

Definition map_data (f : Disambiguator_data_t -> Disambiguator_data_t)
    (o : SurviveObject) : SurviveObject :=
  mkSO (sensor_ct o) (timebase_hz o)
       (match disambiguator_data o with
        | Some d => Some (f d)
        | None => None
        end).

(** A write through [d = so->disambiguator_data]. *)
Definition with_data (ctx : SurviveContext) (so : nat)
    (f : Disambiguator_data_t -> Disambiguator_data_t) : SurviveContext :=
  with_obj ctx so (map_data f).

(** [g->single_60hz_mode] *)
Definition mode_flag (ctx : SurviveContext) : bool :=
  match ctx_disambiguator_data ctx with
  | Some g => single_60hz_mode g
  | None => false
  end.

Definition set_mode_flag (ctx : SurviveContext) (b : bool) : SurviveContext :=
  mkCtx (objs ctx) (Some (mkG b)) (lightproc_calls ctx).

Definition lightproc (ctx : SurviveContext) (so : nat) (c : LightprocCall)
  : SurviveContext :=
  mkCtx (objs ctx) (ctx_disambiguator_data ctx) (lightproc_calls ctx ++ [(so, c)]).

(** The loop of [get_best_latest_state]; the result is the index of
    [best_d], [None] for the null pointer. *)
Fixpoint best_latest_from (os : list SurviveObject) (i : nat)
    (max_confidence : Z) (best_d : option nat) : option nat :=
  match os with
  | [] => best_d
  | o :: os' =>
      match disambiguator_data o with
      | Some d =>
          if negb (state d =? LS_UNKNOWN) && (max_confidence <? confidence d)
          then best_latest_from os' (S i) (confidence d) (Some i)
          else best_latest_from os' (S i) max_confidence best_d
      | None => best_latest_from os' (S i) max_confidence best_d
      end
  end.

Definition get_best_latest_state (ctx : SurviveContext) : option nat :=
  best_latest_from (objs ctx) 0%nat 0 None.

(** ** Lock-finder *)

(** The loop of [find_inliers] over [d->sync_history], which stops at the
    first empty entry. *)
Fixpoint find_inliers_from (h : list LightcapElement) (guess_mod : Z)
    (test60hz : bool) (inliers : Z) : Z :=
  match h with
  | [] => inliers
  | le :: h' =>
      if 0 <? length le then
        let end_of_mod := if test60hz then LS_WaitLHB_ACode0 else LS_END in
        let le_offset := to_int (apply_mod_offset (timestamp le) guess_mod end_of_mod) in
        let '(this_state, offset_error) := LighthouseState_findByOffset le_offset in
        let acode := LSParam_acode this_state in
        let error := calculate_error acode le in
        if is_sweep (LS_Params_at this_state) then
          find_inliers_from h' guess_mod test60hz inliers
        else if negb (lh (LS_Params_at this_state) =? 0) && test60hz then
          find_inliers_from h' guess_mod test60hz inliers
        else if (error <? 500) && (offset_error <? 500) then
          find_inliers_from h' guess_mod test60hz (inliers + 1)
        else find_inliers_from h' guess_mod test60hz inliers
      else inliers
  end.

Definition find_inliers (d : Disambiguator_data_t) (guess_mod : Z) (test60hz : bool) : Z :=
  find_inliers_from (sync_history d) guess_mod test60hz 0.

(** The inner loop of [find_relative_offset] over [test60hz], which has
    at most two rounds: the value of [test60hz] with which the function
    returns, or [None] when the loop runs out. *)
Fixpoint find_mode_from (fuel : nat) (test60hz limit : Z)
    (best_d : option nat) (flag : bool) (d : Disambiguator_data_t)
    (guess_mod : Z) : option Z :=
  match fuel with
  | O => None
  | S fuel' =>
      if test60hz <? limit then
        if (match best_d with Some _ => true | None => false end)
           && negb (test60hz =? (if flag then 1 else 0))
        then find_mode_from fuel' (test60hz + 1) limit best_d flag d guess_mod
        else
          let inliers := find_inliers d guess_mod (negb (test60hz =? 0)) in
          if SYNC_HISTORY_LEN - 1 <? inliers then Some test60hz
          else find_mode_from fuel' (test60hz + 1) limit best_d flag d guess_mod
      else None
  end.

(** The outer loop of [find_relative_offset] over [guess]; the result is
    the returned state with the values stored through [mod] and
    [single_60hz]. *)
Fixpoint find_guess_from (fuel : nat) (guess : Z) (best_d : option nat)
    (flag : bool) (d : Disambiguator_data_t) (re : LightcapElement)
    (acode : Z) : Z * Z * bool :=
  match fuel with
  | O => (LS_UNKNOWN, 0, false)
  | S fuel' =>
      if guess =? LS_END then (LS_UNKNOWN, 0, false)
      else if (LSParam_acode guess =? acode) && negb (is_sweep (LS_Params_at guess)) then
        let guess_mod := SolveForMod_Offset guess re in
        match find_mode_from 2 0 (if LS_WaitLHB_ACode0 <=? guess then 1 else 2)
                best_d flag d guess_mod with
        | Some test60hz => (guess, guess_mod, test60hz =? 1)
        | None => find_guess_from fuel' (guess + 1) best_d flag d re acode
        end
      else find_guess_from fuel' (guess + 1) best_d flag d re acode
  end.

Definition find_relative_offset (ctx : SurviveContext) (so : nat) : Z * Z * bool :=
  let d := data_of ctx so in
  let best_d := get_best_latest_state ctx in
  let ri := Z.rem (sync_offset d + (SYNC_HISTORY_LEN - 1)) SYNC_HISTORY_LEN in
  let re := nth (Z.to_nat ri) (sync_history d) LE_zero in
  let acode := Z.land (find_acode (length re)) 5 in
  find_guess_from 12 (LS_UNKNOWN + 1) best_d (mode_flag ctx) d re acode.

Definition EndSync (ctx : SurviveContext) (so : nat) : SurviveContext * Z :=
  let lastSync := get_last_sync (data_of ctx so) in
  let ctx := with_data ctx so (fun d => AddSyncHistory d lastSync) in
  let '(new_state, mod_, is60hz) := find_relative_offset ctx so in
  if negb (new_state =? LS_UNKNOWN) then
    let ctx := with_data ctx so (fun d => set_mod_offset d [mod_; mod_]) in
    let ctx := set_mode_flag ctx is60hz in
    (ctx, new_state)
  else (ctx, LS_UNKNOWN).

Definition EndSweep : Z := LS_UNKNOWN.

Definition AttemptFindState (ctx : SurviveContext) (so : nat)
    (le : LightcapElement) : SurviveContext * Z :=
  match naive_classify le with
  | LCC_SYNC =>
      let lastSync := get_last_sync (data_of ctx so) in
      let register ctx :=
        let ctx := with_data ctx so (fun d => RegisterSync d le) in
        (with_data ctx so (fun d => set_lastWasSync d true), LS_UNKNOWN) in
      if negb (lastWasSync (data_of ctx so)) || negb (overlaps lastSync le) then
        let '(ctx, new_state) :=
          if lastWasSync (data_of ctx so) then EndSync ctx so
          else (ctx, EndSweep) in
        if negb (new_state =? LS_UNKNOWN) then (ctx, new_state)
        else register (with_data ctx so ResetSync)
      else register ctx
  | LCC_SWEEP =>
      let '(ctx, new_state) :=
        if lastWasSync (data_of ctx so) then EndSync ctx so
        else (ctx, LS_UNKNOWN) in
      if negb (new_state =? LS_UNKNOWN) then (ctx, new_state)
      else (with_data ctx so (fun d => set_lastWasSync d false), LS_UNKNOWN)
  end.

(** ** State tracker *)

Definition SetState (ctx : SurviveContext) (so : nat) (new_state : Z)
  : SurviveContext * Z :=
  let new_state := if LS_END <=? new_state then 1 else new_state in
  let ctx := with_data ctx so (fun d => set_state d new_state) in
  let ctx :=
    if new_state =? LS_UNKNOWN then
      with_data ctx so
        (fun d => set_sync_history d (repeat LE_zero (Z.to_nat SYNC_HISTORY_LEN)) 0)
    else ctx in
  let ctx :=
    if (new_state =? LS_UNKNOWN)
       && (match get_best_latest_state ctx with None => true | Some _ => false end)
    then set_mode_flag ctx false else ctx in
  let ctx := with_data ctx so ResetSync in
  let ctx :=
    with_data ctx so
      (fun d => set_sweep_data d (repeat LE_zero (Z.to_nat (sensor_ct (so_at ctx so))))) in
  (ctx, new_state).

Definition RunACodeCapture (target_acode : Z) (ctx : SurviveContext) (so : nat)
    (le : LightcapElement) : SurviveContext :=
  if length le <? 400 then ctx
  else
    let error := calculate_error target_acode le in
    if 1250 <? error then
      let penalty := 3 in
      let ctx :=
        if confidence (data_of ctx so) <? penalty
        then fst (SetState ctx so LS_UNKNOWN) else ctx in
      with_data ctx so (fun d => set_confidence d (to_int (confidence d - penalty)))
    else
      let ctx :=
        if confidence (data_of ctx so) <? 100
        then with_data ctx so (fun d => set_confidence d (to_int (confidence d + 1)))
        else ctx in
      with_data ctx so (fun d => RegisterSync d le).

(** [assert(offset_from > 0)] in the sweep branch of [ProcessStateChange]
    ends the process when it fails.  A function that can reach it returns
    [Done] with the context it leaves behind, or [Abort] with the context
    in which [abort] was called; nothing is executed after an [Abort]. *)
Inductive outcome : Type :=
  | Done (ctx : SurviveContext)
  | Abort (ctx : SurviveContext).

Definition ctx_of (o : outcome) : SurviveContext :=
  match o with Done ctx => ctx | Abort ctx => ctx end.

Definition aborts (o : outcome) : bool :=
  match o with Done _ => false | Abort _ => true end.

Definition and_then (o : outcome) (f : SurviveContext -> outcome) : outcome :=
  match o with Done ctx => f ctx | Abort ctx => Abort ctx end.

(** The first loop of the sweep branch of [ProcessStateChange]: the sum
    and the number of the non-empty slots ([size_t]).  The bound [maxl]
    is [3.0] times a quotient below 2^16, which [double] holds exactly. *)
Fixpoint sweep_sum (l : list LightcapElement) (avg_length cnt : Z) : Z * Z :=
  match l with
  | [] => (avg_length, cnt)
  | le :: l' =>
      if 0 <? length le
      then sweep_sum l' (wrap_u64 (avg_length + length le)) (wrap_u64 (cnt + 1))
      else sweep_sum l' avg_length cnt
  end.

(** The time in sweep of the pulse [le] for the tracker [d]. *)
Definition sweep_offset_from (d : Disambiguator_data_t) (end_of_mod : Z)
    (le : LightcapElement) : Z :=
  let l_h := lh (LS_Params_at (state d)) in
  let le_offset :=
    to_int (apply_mod_offset (wrap_u32 (timestamp le + Z.quot (length le) 2))
              (mod_offset_at d l_h) end_of_mod) in
  to_int (le_offset - LSParam_offset_for_state (state d) + 20000).

(** The second loop of the sweep branch, from slot [i] on;
    [assert(offset_from > 0)] ends it at the first accepted slot whose
    time in sweep is not positive. *)
Fixpoint sweep_emit (l : list LightcapElement) (i : Z) (minl maxl : Z)
    (d : Disambiguator_data_t) (end_of_mod : Z) (ctx : SurviveContext)
    (so : nat) : outcome :=
  match l with
  | [] => Done ctx
  | le :: l' =>
      let l_h := lh (LS_Params_at (state d)) in
      if (0 <? length le) && (minl <=? length le) && (length le <=? maxl) then
        let offset_from := sweep_offset_from d end_of_mod le in
        if 0 <? offset_from then
          let ctx :=
            if 80 <? confidence d then
              lightproc ctx so
                (mkCall i (LSParam_acode (state d)) offset_from (timestamp le)
                   (length le) l_h)
            else ctx in
          sweep_emit l' (i + 1) minl maxl d end_of_mod ctx so
        else Abort ctx
      else sweep_emit l' (i + 1) minl maxl d end_of_mod ctx so
  end.

Definition ProcessStateChange (ctx : SurviveContext) (so : nat) (new_state : Z)
  : outcome :=
  let d := data_of ctx so in
  let end_of_mod := if mode_flag ctx then LS_WaitLHB_ACode0 else LS_END in
  and_then
    (if negb (is_sweep (LS_Params_at (state d))) then
      Done
      (if 0 <? last_sync_count d then
        let lastSync :=
          mkLE (wrap_u8 (- last_sync_count d)) (wrap_u16 (longest_sync_length d))
               (first_sync_timestamp d) in
        let ctx := with_data ctx so (fun d => AddSyncHistory d lastSync) in
        let new_offset := SolveForMod_Offset (state d) lastSync in
        let ctx :=
          with_data ctx so
            (fun d' => set_mod_offset d'
                         (store (Z.to_nat (lh (LS_Params_at (state d)))) new_offset
                            (mod_offset d'))) in
        let lengthData := ACODE_TIMING (Z.lor (LSParam_acode (state d)) DATA_BIT) in
        let lengthNoData := ACODE_TIMING (LSParam_acode (state d)) in
        let hasData :=
          Z.abs (lengthData - length lastSync) <? Z.abs (lengthNoData - length lastSync) in
        let acode := LSParam_acode (state d) in
        let acode := if hasData then Z.lor acode DATA_BIT else acode in
        let next_state := state d + 1 in
        let next_state :=
          if (next_state =? LS_END)
             || (mode_flag ctx && (next_state =? LS_WaitLHB_ACode0))
          then 0 else next_state in
        let index_code := if is_sweep (LS_Params_at next_state) then -1 else -2 in
        if 80 <? confidence d then
          lightproc ctx so
            (mkCall index_code acode 0 (timestamp lastSync) (length lastSync)
               (lh (LS_Params_at (state d))))
        else ctx
      else ctx)
    else
      let '(avg_length, cnt) := sweep_sum (sweep_data d) 0 0 in
      if 0 <? cnt then
        let minl := 10 in
        let maxl := 3 * ((avg_length + cnt / 2) / cnt) in
        sweep_emit (sweep_data d) 0 minl maxl d end_of_mod ctx so
      else Done ctx)
    (fun ctx => Done (fst (SetState ctx so new_state))).

(** The first half of [PropagateState]: the event is mapped to a phase
    and a change of phase is processed. *)
Definition PropagateState_phase (ctx : SurviveContext) (so : nat)
    (le : LightcapElement) : outcome :=
  let d := data_of ctx so in
  let end_of_mod := if mode_flag ctx then LS_WaitLHB_ACode0 else LS_END in
  let l_h := lh (LS_Params_at (state d)) in
  let le_offset :=
    to_int (apply_mod_offset (wrap_u32 (timestamp le + Z.quot (length le) 2))
              (mod_offset_at d l_h) end_of_mod) in
  let new_state := fst (LighthouseState_findByOffset le_offset) in
  if negb (state d =? new_state) then ProcessStateChange ctx so new_state
  else Done ctx.

(** Its second half: the event is handled in the phase the tracker is
    in now.  [assert(le->sensor_id < d->so->sensor_ct)] holds after the
    test at the head of [PropagateState]. *)
Definition PropagateState_capture (ctx : SurviveContext) (so : nat)
    (le : LightcapElement) : SurviveContext :=
  let d := data_of ctx so in
  if negb (is_sweep (LS_Params_at (state d))) then
    RunACodeCapture (LSParam_acode (state d)) ctx so le
  else if (length (nth (Z.to_nat (sensor_id le)) (sweep_data d) LE_zero) <? length le)
          && (length le <? 7000) then
    let ctx :=
      if 3000 <? length le
      then with_data ctx so (fun d => set_confidence d (to_int (confidence d - 1)))
      else ctx in
    with_data ctx so
      (fun d => set_sweep_data d (store (Z.to_nat (sensor_id le)) le (sweep_data d)))
  else ctx.

Definition PropagateState (ctx : SurviveContext) (so : nat) (le : LightcapElement)
  : outcome :=
  if sensor_ct (so_at ctx so) <=? sensor_id le then Done ctx
  else
    and_then (PropagateState_phase ctx so le)
      (fun ctx => Done (PropagateState_capture ctx so le)).

(** ** Dispatcher *)

(** [so->disambiguator_data] is allocated when it is still [NULL]. *)
Definition calloc_data (o : SurviveObject) : SurviveObject :=
  match disambiguator_data o with
  | None => mkSO (sensor_ct o) (timebase_hz o) (Some (D_zero (sensor_ct o)))
  | Some _ => o
  end.

Section Dispatcher.

(** [survive_timecode_difference] comes from a header outside the sources
    at hand; it takes and returns [uint32_t] timecodes.  [timebase_hz] is
    converted to unsigned for the comparison and the division. *)
Variable survive_timecode_difference : Z -> Z -> Z.

Definition DisambiguatorStateBased (ctx : SurviveContext) (so : nat)
    (le : LightcapElement) : outcome :=
  if sensor_ct (so_at ctx so) =? 0 then Done ctx
  else
    let ctx :=
      match ctx_disambiguator_data ctx with
      | None => mkCtx (objs ctx) (Some (mkG false)) (lightproc_calls ctx)
      | Some _ => ctx
      end in
    let ctx := with_obj ctx so calloc_data in
    let d := data_of ctx so in
    if stabalize d <? 200 then
      Done (with_data ctx so (fun d => set_stabalize d (to_int (stabalize d + 1))))
    else
      if state d =? LS_UNKNOWN then
        let '(ctx, new_state) := AttemptFindState ctx so le in
        let ctx :=
          if negb (new_state =? LS_UNKNOWN) then
            let ctx :=
              with_data ctx so (fun d => set_failures (set_confidence d 0) 0) in
            fst (SetState ctx so new_state)
          else
            with_data ctx so
              (fun d =>
                 let f := to_int (failures d + 1) in
                 set_failures d (if 1000 <? f then 0 else f)) in
        Done (with_data ctx so (fun d => set_last_timestamp d (timestamp le)))
      else
        let timediff := survive_timecode_difference (timestamp le) (last_timestamp d) in
        let hz := wrap_u32 (timebase_hz (so_at ctx so)) in
        if hz <? timediff then
          let penalty := to_int (wrap_u32 (timediff / hz * 10)) in
          if confidence d <? penalty then Done (fst (SetState ctx so LS_UNKNOWN))
          else
            let ctx :=
              with_data ctx so
                (fun d => set_confidence d (to_int (confidence d - penalty))) in
            and_then (PropagateState ctx so le)
              (fun ctx =>
                 Done (with_data ctx so (fun d => set_last_timestamp d (timestamp le))))
        else
          and_then (PropagateState ctx so le)
            (fun ctx =>
               Done (with_data ctx so (fun d => set_last_timestamp d (timestamp le)))).

(** A stream of events, each delivered to one object of the context: the
    context when the stream has been processed or the process has
    aborted. *)
Fixpoint run (ctx : SurviveContext) (evs : list (nat * LightcapElement))
  : SurviveContext :=
  match evs with
  | [] => ctx
  | (so, le) :: evs' =>
      match DisambiguatorStateBased ctx so le with
      | Done ctx' => run ctx' evs'
      | Abort ctx' => ctx'
      end
  end.

End Dispatcher.

(** ** Definitions that follow the wording of the specification

    They are compared below with the functions of the code. *)

Definition earlier_event (a b : LightcapElement) : LightcapElement :=
  if timestamp b <? timestamp a then b else a.

Definition later_event (a b : LightcapElement) : LightcapElement :=
  if timestamp b <? timestamp a then a else b.

(** Number of ticks the intervals [[timestamp, timestamp + length)] of
    the two events have in common. *)
Definition interval_overlap (a b : LightcapElement) : Z :=
  Z.max 0 (Z.min (timestamp a + length a) (timestamp b + length b)
           - Z.max (timestamp a) (timestamp b)).

(** "Their time intervals overlap by more than half the length of the
    earlier one." *)
Definition overlaps_spec (a b : LightcapElement) : bool :=
  length (earlier_event a b) <? 2 * interval_overlap a b.

(** The phase whose window holds [offset], searched from phase [p] on. *)
Fixpoint containing_phase_from (fuel : nat) (p : Z) (offset : Z) : Z :=
  match fuel with
  | O => p
  | S fuel' =>
      if offset <? LSParam_offset_for_state (p + 1) then p
      else containing_phase_from fuel' (p + 1) offset
  end.

Definition containing_phase (offset : Z) : Z := containing_phase_from 11 1 offset.

(** "Returns the closest phase; tie-break rule: if the nearer phase is a
    sweep and the distance to its end is >1000 ticks, prefer the other." *)
Definition find_phase_by_offset_spec (offset : Z) : Z :=
  let p := containing_phase offset in
  let to_start := offset - LSParam_offset_for_state p in
  let to_next := LSParam_offset_for_state (p + 1) - offset in
  let nearer := if to_next <? to_start then p + 1 else p in
  let other := if to_next <? to_start then p else p + 1 in
  if is_sweep (LS_Params_at nearer)
     && (1000 <? LSParam_offset_for_state (nearer + 1) - offset)
  then other else nearer.

(** Modelled from the spec: [survive_timecode_difference], whose
    definition is in a header outside the sources at hand; "timecode
    subtraction handling wraparound" is the difference of the two
    timecodes in 32-bit arithmetic. *)
Definition timecode_difference_spec (most_recent least_recent : Z) : Z :=
  wrap_u32 (most_recent - least_recent).

(** A context whose objects ([sensor_ct], [timebase_hz]) have not been
    seen by the disambiguator yet. *)
Definition initial_context (os : list (Z * Z)) : SurviveContext :=
  mkCtx (map (fun o => mkSO (fst o) (snd o) None) os) None [].

Definition no_object_locked (ctx : SurviveContext) : bool :=
  forallb (fun o => match disambiguator_data o with
                    | Some d => state d =? LS_UNKNOWN
                    | None => true
                    end)
          (objs ctx).

Section FlagHistory.

Variable survive_timecode_difference : Z -> Z -> Z.

(** "The flag is flipped from false to true at most once, unless a full
    reset (all objects simultaneously losing lock) happens in between":
    [rises] counts the flips of [single_60hz_mode] from false to true
    since the last moment at which no object was locked, and the result
    is the largest count reached along the stream. *)
Fixpoint max_rises (ctx : SurviveContext) (evs : list (nat * LightcapElement))
    (rises : nat) : nat :=
  match evs with
  | [] => rises
  | (so, le) :: evs' =>
      let o := DisambiguatorStateBased survive_timecode_difference ctx so le in
      let ctx' := ctx_of o in
      let rises' :=
        if no_object_locked ctx' then O
        else if negb (mode_flag ctx) && mode_flag ctx' then S rises
        else rises in
      Nat.max rises (if aborts o then rises' else max_rises ctx' evs' rises')
  end.

End FlagHistory.

(** ** Event streams used as examples *)

(** The [k]-th sync pulse of a schedule that visits [phases] every
    [cycle_len] ticks from [base] on: it starts with its phase and has
    the nominal length of the phase's acode. *)
Definition sync_event (base cycle_len : Z) (phases : list Z) (k : nat)
  : LightcapElement :=
  let n := List.length phases in
  let p := nth (Nat.modulo k n) phases 0 in
  mkLE 0 (ACODE_TIMING (LSParam_acode p))
       (base + Z.of_nat (Nat.div k n) * cycle_len + LSParam_offset_for_state p).

(** Two base stations: all eight sync phases of the 1600000-tick cycle. *)
Definition dual_sync (k : nat) : LightcapElement :=
  sync_event 1000000 1600000 [1; 2; 4; 5; 7; 8; 10; 11] k.

(** One base station at 60 Hz: phases 2 and 5 every 800000 ticks. *)
Definition single_sync (k : nat) : LightcapElement :=
  sync_event 1000000 800000 [2; 5] k.

Definition for_object (so : nat) (les : list LightcapElement)
  : list (nat * LightcapElement) :=
  map (fun le => (so, le)) les.

(** The 200 events the dispatcher skips. *)
Definition warmup (so : nat) : list (nat * LightcapElement) :=
  for_object so (repeat (mkLE 0 50 0) 200).

Definition with_length (le : LightcapElement) (l : Z) : LightcapElement :=
  mkLE (sensor_id le) l (timestamp le).

(** Warm-up and the first [n] sync pulses of two base stations. *)
Definition dual_stream (so : nat) (n : nat) : list (nat * LightcapElement) :=
  warmup so ++ for_object so (map dual_sync (seq 0 n)).

Definition single_stream (so : nat) (n : nat) : list (nat * LightcapElement) :=
  warmup so ++ for_object so (map single_sync (seq 0 n)).

(** One object locks onto two base stations with its 13th sync pulse;
    the 14th pulse, due in phase 8 (acode 4), is only 1000 ticks long. *)
Definition lost_after_lock : list (nat * LightcapElement) :=
  dual_stream 0 13 ++ [(0%nat, with_length (dual_sync 13) 1000)].

(** One object tracks two base stations for 97 sync pulses; pulse 97 (phase
    2, acode 0) is 1500 ticks long, pulse 98 (phase 4, acode 5) is 7500
    ticks long, pulse 99 is regular. *)
Definition odd_lengths : list (nat * LightcapElement) :=
  dual_stream 0 97
  ++ for_object 0 [with_length (dual_sync 97) 1500;
                   with_length (dual_sync 98) 7500;
                   dual_sync 99].

(** Three objects acquire lock one after the other: the first and the
    third see one base station at 60 Hz, the second sees two. *)
Definition three_locks : list (nat * LightcapElement) :=
  single_stream 0 13 ++ dual_stream 1 13 ++ single_stream 2 13.

(** A tracker inside the sweep phase [LS_SweepAX], anchored at tick 0. *)
Definition tracker_in_sweep : SurviveContext :=
  mkCtx [mkSO 2 48000000
           (Some (mkD 0 0 0 0 0 0 LS_SweepAX [0; 0] 50 200 0 false
                    (repeat LE_zero 12) 0 [LE_zero; mkLE 1 4000 90000]))]
        (Some (mkG false)) [].

(** A tracker inside the sync phase [LS_WaitLHA_ACode0], anchored at tick 0. *)
Definition tracker_in_sync : SurviveContext :=
  mkCtx [mkSO 2 48000000
           (Some (mkD 0 0 0 0 0 0 LS_WaitLHA_ACode0 [0; 0] 50 200 0 false
                    (repeat LE_zero 12) 0 [LE_zero; LE_zero]))]
        (Some (mkG false)) [].

(** Event [early_long] starts first and runs 4 ticks into [late_short]. *)
Definition late_short : LightcapElement := mkLE 0 6 100.
Definition early_long : LightcapElement := mkLE 1 104 0.

(** Pulses that fall into the sweep phase 3 of [tracker_in_sweep]. *)
Definition long_pulse : LightcapElement := mkLE 0 8000 100000.
Definition short_pulse : LightcapElement := mkLE 0 100 100000.
Definition sweep_pulse : LightcapElement := mkLE 0 3500 100000.

(** Pulses that fall into the sync phase 2 of [tracker_in_sync]. *)
Definition noise_pulse : LightcapElement := mkLE 0 100 25000.
Definition wrong_pulse : LightcapElement := mkLE 0 6000 25000.

(** A pulse that reaches [tracker_in_sync] after 300000000 ticks. *)
Definition late_pulse : LightcapElement := mkLE 0 3000 300000000.

(** A tracker like [tracker_in_sync] of an object whose time base is 1
    tick per second, and a pulse of a sensor the object does not have,
    300000000 ticks later. *)
Definition slow_clock_tracker : SurviveContext :=
  mkCtx [mkSO 2 1
           (Some (mkD 0 0 0 0 0 0 LS_WaitLHA_ACode0 [0; 0] 50 200 0 false
                    (repeat LE_zero 12) 0 [LE_zero; LE_zero]))]
        (Some (mkG false)) [].

Definition stray_late_pulse : LightcapElement := mkLE 5 3000 300000000.

Definition one_object : SurviveContext := initial_context [(1, 48000000)].

Definition three_objects : SurviveContext :=
  initial_context [(1, 48000000); (1, 48000000); (1, 48000000)].

Definition after_first_lock : SurviveContext :=
  run timecode_difference_spec three_objects (single_stream 0 13).

Definition after_second_lock : SurviveContext :=
  run timecode_difference_spec after_first_lock (dual_stream 1 13).

Definition after_third_lock : SurviveContext :=
  run timecode_difference_spec after_second_lock (single_stream 2 13).

(** Object 0 of two has tracked two base stations for 20 sync pulses. *)
Definition one_of_two_locked : SurviveContext :=
  run timecode_difference_spec
    (initial_context [(1, 48000000); (1, 48000000)]) (dual_stream 0 20).

(** ** Predicates on trackers and contexts *)

(** A property of every tracker record of the context. *)
Definition data_inv (P : Disambiguator_data_t -> Prop) (ctx : SurviveContext) : Prop :=
  forall so d, disambiguator_data (so_at ctx so) = Some d -> P d.

(** What [SetState] leaves in the record, for the state it stores. *)
Definition SetState_data (st ct : Z) (d : Disambiguator_data_t) : Disambiguator_data_t :=
  set_sweep_data
    (ResetSync
       (if st =? LS_UNKNOWN
        then set_sync_history (set_state d st)
               (repeat LE_zero (Z.to_nat SYNC_HISTORY_LEN)) 0
        else set_state d st))
    (repeat LE_zero (Z.to_nat ct)).

Definition stored_state (new_state : Z) : Z :=
  if LS_END <=? new_state then 1 else new_state.

(** The sync aggregator is empty or holds a longest pulse that passed
    the length check of [RunACodeCapture]. *)
Definition aggr_ok (d : Disambiguator_data_t) : Prop :=
  (longest_sync_length d = 0 /\ last_sync_count d = 0)
  \/ 1500 <= longest_sync_length d <= 7500.

Definition tracker_ok (d : Disambiguator_data_t) : Prop :=
  0 <= state d < LS_END /\ (state d <> LS_UNKNOWN -> aggr_ok d).

(** A call of [lightproc] with a negative sensor id is a sync record. *)
Definition sync_call_ok (c : LightprocCall) : Prop :=
  lp_sensor_id c < 0 ->
  (lp_sensor_id c = -1 \/ lp_sensor_id c = -2) /\ 1500 <= lp_length c <= 7500.

Definition calls_ok (ctx : SurviveContext) : Prop :=
  Forall (fun c => sync_call_ok (snd c)) (lightproc_calls ctx).

Definition ctx_ok (ctx : SurviveContext) : Prop :=
  data_inv tracker_ok ctx /\ calls_ok ctx.

Definition confidence_within (lo : Z) (d : Disambiguator_data_t) : Prop :=
  lo <= confidence d <= 100.

(** Object [j] is locked with positive confidence. *)
Definition locked_peer (ctx : SurviveContext) (j : nat) : Prop :=
  exists d, disambiguator_data (so_at ctx j) = Some d /\
            state d <> LS_UNKNOWN /\ 0 < confidence d.

Definition timebase_ok (o : SurviveObject) : Prop :=
  20 <= timebase_hz o < 2 ^ 31.

(** The confidence of every tracker of an object lies in [[lo, 100]],
    and an object with sensors has a usable time base. *)
Definition conf_ok (lo : Z) (o : SurviveObject) : Prop :=
  (sensor_ct o <> 0 -> timebase_ok o) /\
  forall d, disambiguator_data o = Some d -> confidence_within lo d.

Definition conf_inv (lo : Z) (ctx : SurviveContext) : Prop :=
  forall so, conf_ok lo (so_at ctx so).

(** Object [j] is locked with positive confidence and the mode flag has
    the value [b]. *)
Definition peer_inv (j : nat) (b : bool) (ctx : SurviveContext) : Prop :=
  locked_peer ctx j /\ mode_flag ctx = b.

(** [LE_wf] as a test. *)
Definition LE_wfb (le : LightcapElement) : bool :=
  (0 <=? sensor_id le) && (sensor_id le <? 2 ^ 8)
  && (0 <=? length le) && (length le <? 2 ^ 16)
  && (0 <=? timestamp le) && (timestamp le <? 2 ^ 32).
(** * Further definitions *)

(** The test that makes [find_inliers] count a history entry. *)
Definition is_inlier (guess_mod : Z) (test60hz : bool) (le : LightcapElement) : bool :=
  let end_of_mod := if test60hz then LS_WaitLHB_ACode0 else LS_END in
  let le_offset := to_int (apply_mod_offset (timestamp le) guess_mod end_of_mod) in
  let this_state := fst (LighthouseState_findByOffset le_offset) in
  let offset_error := snd (LighthouseState_findByOffset le_offset) in
  negb (is_sweep (LS_Params_at this_state))
  && negb (negb (lh (LS_Params_at this_state) =? 0) && test60hz)
  && (calculate_error (LSParam_acode this_state) le <? 500)
  && (offset_error <? 500).

(** The arrays of a tracker have the sizes they were allocated with, the
    write index of the history ring is inside it, and the two counters
    of the dispatcher are inside their limits. *)
Definition shape_ok (ct : Z) (d : Disambiguator_data_t) : Prop :=
  List.length (sync_history d) = 12%nat /\
  0 <= sync_offset d < SYNC_HISTORY_LEN /\
  List.length (sweep_data d) = Z.to_nat ct /\
  List.length (mod_offset d) = 2%nat /\
  0 <= stabalize d <= 200 /\
  0 <= failures d <= 1000.

Definition shape_inv (ctx : SurviveContext) : Prop :=
  forall so d, disambiguator_data (so_at ctx so) = Some d ->
               shape_ok (sensor_ct (so_at ctx so)) d.

(** The length test of the sweep branch of [ProcessStateChange], with
    its lower limit of 10 ticks and the upper limit [maxl]. *)
Definition sweep_accepted (maxl : Z) (le : LightcapElement) : bool :=
  (0 <? length le) && (10 <=? length le) && (length le <=? maxl).

(** What a record emitted for slot [lp_sensor_id] of the sweep buffer [l]
    carries when the tracker [d] leaves a sweep phase. *)
Definition sweep_record_ok (l : list LightcapElement) (maxl : Z)
    (d : Disambiguator_data_t) (end_of_mod : Z) (so : nat)
    (c : nat * LightprocCall) : Prop :=
  let slot := nth (Z.to_nat (lp_sensor_id (snd c))) l LE_zero in
  fst c = so /\
  0 <= lp_sensor_id (snd c) < Z.of_nat (List.length l) /\
  lp_acode (snd c) = LSParam_acode (state d) /\
  lp_lh (snd c) = lh (LS_Params_at (state d)) /\
  lp_timecode (snd c) = timestamp slot /\
  lp_length (snd c) = length slot /\
  sweep_accepted maxl slot = true /\
  lp_timeinsweep (snd c) = sweep_offset_from d end_of_mod slot /\
  0 < lp_timeinsweep (snd c).

Definition by_sensor_id (a b : nat * LightprocCall) : Prop :=
  lp_sensor_id (snd a) < lp_sensor_id (snd b).

(** * Sensor activations ([survive_sensor_activations.c]) *)

(** The two [uint32_t] tables of [SurviveSensorActivations] that the
    validity checks read, indexed by sensor, lighthouse and axis.  The
    table sizes are fixed in a header outside the sources at hand, so a
    table is a function of its three indices. *)
Record SurviveSensorActivations := mkSA {
  lengths : Z -> Z -> Z -> Z;
  timecode : Z -> Z -> Z -> Z
}.

Section SensorActivations.

Variable survive_timecode_difference : Z -> Z -> Z.

Definition SurviveSensorActivations_isReadingValid (self : SurviveSensorActivations)
    (tolerance timecode_now idx lh axis : Z) : bool :=
  if lengths self idx lh axis =? 0 then false
  else survive_timecode_difference timecode_now (timecode self idx lh axis) <=? tolerance.

End SensorActivations.

Definition SurviveSensorActivations_isPairValid (self : SurviveSensorActivations)
    (tolerance timecode_now idx lh : Z) : bool :=
  if (lengths self idx lh 0 =? 0) || (lengths self idx lh 1 =? 0) then false
  else negb ((tolerance <? wrap_u32 (timecode_now - timecode self idx lh 0))
             || (tolerance <? wrap_u32 (timecode_now - timecode self idx lh 1))).

(** Both axes of sensor 3 were hit by lighthouse 0 shortly before
    timecode 1000000. *)
Definition both_axes_hit : SurviveSensorActivations :=
  mkSA (fun idx lh axis => if (idx =? 3) && (lh =? 0) then 4000 else 0)
       (fun idx lh axis => if axis =? 0 then 600000 else 990000).

(** A tracker in the sync phase [LS_WaitLHA_ACode0] that has counted three
    pulses of the current burst and is confident enough to report. *)
Definition confident_in_sync : SurviveContext :=
  mkCtx [mkSO 2 48000000
           (Some (mkD 0 0 0 3 20010 3100 LS_WaitLHA_ACode0 [0; 0] 90 200 0 false
                    (repeat LE_zero 12) 0 [LE_zero; LE_zero]))]
        (Some (mkG false)) [].

(** A tracker in a sweep phase that is confident enough to report: slot 0
    is empty, slots 1 and 2 hold pulses. *)
Definition confident_in_sweep : SurviveContext :=
  mkCtx [mkSO 3 48000000
           (Some (mkD 0 0 0 0 0 0 LS_SweepAX [0; 0] 90 200 0 false
                    (repeat LE_zero 12) 0
                    [LE_zero; mkLE 1 4000 90000; mkLE 2 3000 95000]))]
        (Some (mkG false)) [].

(** The only object of the context is locked and the context is in the
    mode of one base station at 60 Hz. *)
Definition locked_at_60hz : SurviveContext :=
  mkCtx [mkSO 2 48000000
           (Some (mkD 0 0 0 0 0 0 LS_WaitLHA_ACode0 [0; 0] 50 200 0 false
                    (repeat LE_zero 12) 0 [LE_zero; LE_zero]))]
        (Some (mkG true)) [].

(** One object after warm-up and 12 sync pulses of two base stations, and
    after the 13th. *)
Definition before_lock : SurviveContext :=
  run timecode_difference_spec one_object (dual_stream 0 12).

Definition after_lock : SurviveContext :=
  run timecode_difference_spec one_object (dual_stream 0 13).

(** The stream [three_locks] with a sweep pulse for the second object
    before the third object locks: the pulse falls into the sweep of the
    second base station (phase 9), and the third lock switches the
    context to 60 Hz while it is in the buffer. *)
Definition pulse_in_sweep_9 : LightcapElement := mkLE 0 100 3499950.

Definition mode_switch_in_sweep : list (nat * LightcapElement) :=
  single_stream 0 13 ++ dual_stream 1 13 ++ [(1%nat, pulse_in_sweep_9)]
  ++ single_stream 2 13.

Definition after_mode_switch : SurviveContext :=
  run timecode_difference_spec three_objects mode_switch_in_sweep.

(** The pulses that follow for the second object. *)
Definition pulse_after_switch : LightcapElement := mkLE 0 100 3600000.
Definition pulse_after_abort : LightcapElement := mkLE 0 100 3700000.


(** * Properties *)

(** ** Machine integers *)

Lemma wrap_u32_small (x : Z) : 0 <= x < 2 ^ 32 -> wrap_u32 x = x.
Proof. intros H. unfold wrap_u32. apply Z.mod_small. exact H. Qed.

Lemma wrap_u32_range (x : Z) : 0 <= wrap_u32 x < 2 ^ 32.
Proof. unfold wrap_u32. apply Z.mod_pos_bound. lia. Qed.

Lemma wrap_u16_small (x : Z) : 0 <= x < 2 ^ 16 -> wrap_u16 x = x.
Proof. intros H. unfold wrap_u16. apply Z.mod_small. exact H. Qed.

Lemma to_int_small (x : Z) : - 2 ^ 31 <= x < 2 ^ 31 -> to_int x = x.
Proof.
  intros H. unfold to_int. rewrite Z.mod_small; lia.
Qed.

Lemma to_int_range (x : Z) : - 2 ^ 31 <= to_int x < 2 ^ 31.
Proof.
  unfold to_int.
  pose proof (Z.mod_pos_bound (x + 2 ^ 31) (2 ^ 32) ltac:(lia)). lia.
Qed.

(** ** Schedule table *)

Lemma offsets_values :
  map LSParam_offset_for_state [0; 1; 2; 3; 4; 5; 6; 7; 8; 9; 10; 11; 12; 13] =
  [0; 0; 20000; 40000; 400000; 420000; 440000; 800000; 820000; 840000;
   1200000; 1220000; 1240000; 1600000].
Proof. reflexivity. Qed.

Ltac table_values :=
  repeat match goal with
         | |- context [LSParam_offset_for_state ?i] =>
             let v := eval vm_compute in (LSParam_offset_for_state i) in
             change (LSParam_offset_for_state i) with v
         | |- context [is_sweep (LS_Params_at ?i)] =>
             let v := eval vm_compute in (is_sweep (LS_Params_at i)) in
             change (is_sweep (LS_Params_at i)) with v
         | H : context [LSParam_offset_for_state ?i] |- _ =>
             let v := eval vm_compute in (LSParam_offset_for_state i) in
             change (LSParam_offset_for_state i) with v in H
         end.

Ltac ltb_cases :=
  repeat match goal with
         | |- context [?a <? ?b] => destruct (Z.ltb_spec a b); try lia
         end.

(** ** Modular offset *)

(** C1. At the rollover case of the specification the code gives 511 for
    [apply_mod_offset(0x100, 0xFFFFFF00, 1600000)] and 512 for
    [apply_mod_offset(0x200, 0, 1600000)]: the two sides of the rollover
    law differ by one tick. *)
Theorem apply_mod_offset_rollover_literal :
  apply_mod_offset 0x100 0xFFFFFF00 LS_END = 511 /\
  apply_mod_offset 0x200 0 LS_END = 512.
Proof. split; reflexivity. Qed.

(** What the rollover branch computes for every anchor more than 2^31
    ticks past the timestamp: one less than [2^32 - m + t], reduced. *)
Lemma apply_mod_offset_rollover_branch (t m : Z) :
  0 <= t < 2 ^ 32 -> 0 <= m < 2 ^ 32 -> t < m -> 2 ^ 31 < m - t ->
  apply_mod_offset t m LS_END = (2 ^ 32 - 1 - m + t) mod 1600000.
Proof.
  intros Ht Hm Hlt Hfar.
  unfold apply_mod_offset.
  change (LSParam_offset_for_state LS_END) with 1600000.
  change (wrap_u32 1600000) with 1600000.
  change (0xFFFFFFFF / 2) with 2147483647.
  change 0xFFFFFFFF with (2 ^ 32 - 1).
  destruct (Z.ltb_spec m t) as [H | _]; [lia |].
  rewrite (wrap_u32_small (m - t)) by lia.
  destruct (Z.ltb_spec 2147483647 (m - t)) as [_ | H]; [| lia].
  rewrite wrap_u32_small by lia. reflexivity.
Qed.

(** The result is a position inside the cycle, whatever the arguments. *)
Lemma apply_mod_offset_range (t m e : Z) :
  0 < LSParam_offset_for_state e < 2 ^ 31 ->
  0 <= apply_mod_offset t m e < LSParam_offset_for_state e.
Proof.
  intros Hg. unfold apply_mod_offset.
  set (g := LSParam_offset_for_state e) in *.
  assert (Hw : wrap_u32 g = g) by (apply wrap_u32_small; lia).
  rewrite Hw.
  destruct (m <? t); [apply Z.mod_pos_bound; lia |].
  destruct (_ <? wrap_u32 (m - t)); [apply Z.mod_pos_bound; lia |].
  set (x := to_int (to_int (t mod g) - to_int (m mod g))).
  pose proof (Z.rem_bound_abs x g ltac:(lia)) as Hr.
  assert (Hr' : - g < Z.rem x g < g) by lia.
  destruct (Z.ltb_spec (Z.rem x g) 0).
  - rewrite to_int_small by lia. rewrite wrap_u32_small by lia. lia.
  - rewrite wrap_u32_small by lia. lia.
Qed.

(** ** Overlap test *)

(** C3, as stated, fails: [early_long] starts first and runs 4 ticks
    into [late_short]; that is less than half of its own 104 ticks but
    more than half of the 6 ticks of [late_short], the first argument,
    and the code answers [true]. *)
Lemma overlaps_not_half_of_earlier :
  ~ (overlaps late_short early_long = true <->
     length (earlier_event late_short early_long)
     < 2 * interval_overlap late_short early_long).
Proof.
  intros [H _].
  assert (Ht : overlaps late_short early_long = true) by reflexivity.
  specialize (H Ht). vm_compute in H. discriminate H.
Qed.

(** C3, amended.  [overlaps a b] holds exactly when the timestamps
    differ, the earlier event ends inside the 32-bit range, and the
    stretch from the later event's timestamp to the earlier event's end
    is more than half the length of [a], the first argument. *)
Theorem overlaps_iff (a b : LightcapElement) :
  LE_wf a -> LE_wf b ->
  (overlaps a b = true <->
   timestamp a <> timestamp b /\
   timestamp (earlier_event a b) + length (earlier_event a b) < 2 ^ 32 /\
   length a <
   2 * (timestamp (earlier_event a b) + length (earlier_event a b)
        - timestamp (later_event a b))).
Proof.
  intros (_ & Hla & Hta) (_ & Hlb & Htb).
  unfold overlaps, earlier_event, later_event.
  assert (Hq : forall o, (Z.quot (length a) 2 <? o) = true <-> length a < 2 * o).
  { intros o. rewrite Z.ltb_lt. rewrite Z.quot_div_nonneg by lia.
    pose proof (Z.div_mod (length a) 2 ltac:(lia)).
    pose proof (Z.mod_pos_bound (length a) 2 ltac:(lia)). lia. }
  assert (Hwa : forall x y l, 0 <= x < 2 ^ 32 -> 0 <= l < 2 ^ 16 ->
                 x < y < 2 ^ 32 ->
                 ((y <? wrap_u32 (l + x)) = true <-> (x + l < 2 ^ 32 /\ y < x + l))).
  { intros x y l Hx Hl Hy. rewrite Z.ltb_lt. unfold wrap_u32.
    destruct (Z.lt_ge_cases (l + x) (2 ^ 32)) as [Hs | Hs].
    - rewrite Z.mod_small by lia. lia.
    - replace (l + x) with ((l + x - 2 ^ 32) + 1 * 2 ^ 32) by lia.
      rewrite Z.mod_add by lia. rewrite Z.mod_small by lia. lia. }
  destruct (Z.ltb_spec (timestamp a) (timestamp b)) as [Hab | Hab].
  - destruct (Z.ltb_spec (timestamp b) (timestamp a)) as [Hba | _]; [lia |].
    cbn [andb].
    destruct (timestamp b <? wrap_u32 (length a + timestamp a)) eqn:E.
    + apply Hwa in E; try lia. destruct E as [E1 E2].
      rewrite (wrap_u32_small (length a + timestamp a)) by lia.
      rewrite wrap_u32_small by lia. rewrite to_int_small by lia.
      rewrite Hq. lia.
    + assert (E' : ~ (timestamp a + length a < 2 ^ 32 /\
                      timestamp b < timestamp a + length a)).
      { intros C. apply Hwa in C; try lia; congruence. }
      cbn [andb].
      destruct (Z.ltb_spec (timestamp b) (timestamp a)); [lia |].
      cbn [andb]. rewrite Hq. lia.
  - cbn [andb].
    destruct (Z.ltb_spec (timestamp b) (timestamp a)) as [Hba | Hba].
    + cbn [andb].
      destruct (timestamp a <? wrap_u32 (length b + timestamp b)) eqn:E.
      * apply Hwa in E; try lia. destruct E as [E1 E2].
        rewrite (wrap_u32_small (length b + timestamp b)) by lia.
        rewrite wrap_u32_small by lia. rewrite to_int_small by lia.
        rewrite Hq. lia.
      * assert (E' : ~ (timestamp b + length b < 2 ^ 32 /\
                        timestamp a < timestamp b + length b)).
        { intros C. apply Hwa in C; try lia; congruence. }
        rewrite Hq. lia.
    + cbn [andb]. rewrite Hq. lia.
Qed.

Lemma overlaps_iff_witness :
  overlaps (mkLE 0 4750 1000) (mkLE 1 4750 2000) = true.
Proof.
  apply (overlaps_iff (mkLE 0 4750 1000) (mkLE 1 4750 2000)).
  - unfold LE_wf; simpl; lia.
  - unfold LE_wf; simpl; lia.
  - vm_compute. repeat split; congruence.
Defined.

(** ** Phase lookup *)

(** C7, as stated, fails at offset 35000: the nearer phase start is that
    of the sweep phase 3 (at 40000), the end of that sweep is 365000
    ticks away, and the code returns the sweep phase 3, not the other
    phase 2. *)
Lemma findByOffset_not_spec :
  fst (LighthouseState_findByOffset 35000) = LS_SweepAX /\
  find_phase_by_offset_spec 35000 = LS_WaitLHA_ACode0 /\
  fst (LighthouseState_findByOffset 35000) <> find_phase_by_offset_spec 35000.
Proof. vm_compute. repeat split; congruence. Qed.

(** C7, amended.  For an offset inside the window of phase [p] the
    lookup returns [p] or [p + 1], whichever starts closer ([p] on a
    tie), except that a sweep phase [p] is returned whenever the offset
    lies more than 1000 ticks before its end. *)
Theorem findByOffset_contained (offset p : Z) :
  1 <= p <= 12 ->
  LSParam_offset_for_state p <= offset < LSParam_offset_for_state (p + 1) ->
  fst (LighthouseState_findByOffset offset) =
  if is_sweep (LS_Params_at p)
     && (1000 <? LSParam_offset_for_state (p + 1) - offset)
  then p
  else if LSParam_offset_for_state (p + 1) - offset
          <? offset - LSParam_offset_for_state p
       then p + 1 else p.
Proof.
  intros Hp Hin.
  assert (Hc : p = 1 \/ p = 2 \/ p = 3 \/ p = 4 \/ p = 5 \/ p = 6 \/ p = 7 \/
               p = 8 \/ p = 9 \/ p = 10 \/ p = 11 \/ p = 12) by lia.
  cbv [LighthouseState_findByOffset findByOffset_from].
  repeat (destruct Hc as [Hc | Hc]); subst p; table_values; cbn [andb];
    ltb_cases; cbn [fst andb]; ltb_cases; reflexivity.
Qed.

Lemma findByOffset_contained_witness :
  fst (LighthouseState_findByOffset 35000) = 3.
Proof.
  apply (findByOffset_contained 35000 2).
  - lia.
  - vm_compute. split; congruence.
Defined.

(** The lookup never leaves the table for an offset below the cycle
    length, and then the error it reports is not negative when the
    offset is not. *)
Lemma findByOffset_range (offset : Z) :
  offset < 1600000 ->
  1 <= fst (LighthouseState_findByOffset offset) <= LS_END.
Proof.
  intros H.
  cbv [LighthouseState_findByOffset findByOffset_from].
  table_values. unfold LS_END.
  ltb_cases; cbn [fst andb]; ltb_cases; cbn [fst]; lia.
Qed.

(** ** The object store *)

Lemma nth_update_nth_other {A : Type} (n m : nat) (f : A -> A) (l : list A) (x : A) :
  n <> m -> nth m (update_nth n f l) x = nth m l x.
Proof.
  revert n m. induction l as [| y l IH]; intros [| n] [| m] H; simpl; auto.
  congruence.
Qed.

Lemma nth_update_nth_same {A : Type} (n : nat) (f : A -> A) (l : list A) (x : A) :
  f x = x -> nth n (update_nth n f l) x = f (nth n l x).
Proof.
  intros Hx. revert n. induction l as [| y l IH]; intros [| n]; simpl; auto.
Qed.

Lemma update_nth_ext {A : Type} (n : nat) (f g : A -> A) (l : list A) (x : A) :
  f (nth n l x) = g (nth n l x) -> update_nth n f l = update_nth n g l.
Proof.
  revert n. induction l as [| y l IH]; intros [| n] H; simpl in *; auto.
  - congruence.
  - f_equal. auto.
Qed.

Lemma update_nth_twice {A : Type} (n : nat) (f g : A -> A) (l : list A) :
  update_nth n g (update_nth n f l) = update_nth n (fun x => g (f x)) l.
Proof.
  revert n. induction l as [| y l IH]; intros [| n]; simpl; auto.
  f_equal. auto.
Qed.

Lemma store_length {A : Type} (n : nat) (v : A) (l : list A) :
  List.length (store n v l) = List.length l.
Proof.
  revert n. induction l as [| y l IH]; intros [| n]; simpl; auto.
Qed.

Lemma nth_store_same {A : Type} (n : nat) (v : A) (l : list A) (x : A) :
  (n < List.length l)%nat -> nth n (store n v l) x = v.
Proof.
  revert n. induction l as [| y l IH]; intros [| n] H; simpl in *; try lia; auto.
  apply IH. lia.
Qed.

Lemma so_at_with_obj_other (ctx : SurviveContext) (so j : nat) f :
  so <> j -> so_at (with_obj ctx so f) j = so_at ctx j.
Proof. intros H. unfold so_at, with_obj. simpl. now apply nth_update_nth_other. Qed.

Lemma so_at_with_data_same (ctx : SurviveContext) (so : nat) f :
  so_at (with_data ctx so f) so = map_data f (so_at ctx so).
Proof.
  unfold so_at, with_data, with_obj. simpl. now apply nth_update_nth_same.
Qed.

Lemma so_at_with_data_other (ctx : SurviveContext) (so j : nat) f :
  so <> j -> so_at (with_data ctx so f) j = so_at ctx j.
Proof. apply so_at_with_obj_other. Qed.

Lemma data_of_some (ctx : SurviveContext) (so : nat) (d : Disambiguator_data_t) :
  disambiguator_data (so_at ctx so) = Some d -> data_of ctx so = d.
Proof. intros H. unfold data_of. now rewrite H. Qed.

Lemma data_of_none (ctx : SurviveContext) (so : nat) :
  disambiguator_data (so_at ctx so) = None ->
  data_of ctx so = D_zero (sensor_ct (so_at ctx so)).
Proof. intros H. unfold data_of. now rewrite H. Qed.

Lemma data_with_data_same (ctx : SurviveContext) (so : nat) f d :
  disambiguator_data (so_at ctx so) = Some d ->
  disambiguator_data (so_at (with_data ctx so f) so) = Some (f d).
Proof.
  intros H. rewrite so_at_with_data_same. unfold map_data. simpl. now rewrite H.
Qed.

Lemma sensor_ct_with_data (ctx : SurviveContext) (so j : nat) f :
  sensor_ct (so_at (with_data ctx so f) j) = sensor_ct (so_at ctx j).
Proof.
  destruct (Nat.eq_dec so j) as [-> | H].
  - now rewrite so_at_with_data_same.
  - now rewrite so_at_with_data_other.
Qed.

Lemma timebase_hz_with_data (ctx : SurviveContext) (so j : nat) f :
  timebase_hz (so_at (with_data ctx so f) j) = timebase_hz (so_at ctx j).
Proof.
  destruct (Nat.eq_dec so j) as [-> | H].
  - now rewrite so_at_with_data_same.
  - now rewrite so_at_with_data_other.
Qed.

Lemma with_data_twice (ctx : SurviveContext) (so : nat) f g :
  with_data (with_data ctx so f) so g = with_data ctx so (fun d => g (f d)).
Proof.
  unfold with_data, with_obj. simpl. f_equal.
  rewrite update_nth_twice.
  apply update_nth_ext with (x := mkSO 0 0 None).
  unfold map_data. simpl. now destruct (disambiguator_data _).
Qed.

Lemma with_data_ext (ctx : SurviveContext) (so : nat) f g :
  (forall d, disambiguator_data (so_at ctx so) = Some d -> f d = g d) ->
  with_data ctx so f = with_data ctx so g.
Proof.
  intros H. unfold with_data, with_obj. f_equal.
  apply update_nth_ext with (x := mkSO 0 0 None).
  unfold map_data. fold (so_at ctx so).
  destruct (disambiguator_data (so_at ctx so)) eqn:E; [| reflexivity].
  now rewrite (H _ eq_refl).
Qed.

Lemma data_inv_with_data (P : Disambiguator_data_t -> Prop) ctx so f :
  data_inv P ctx ->
  (forall d, disambiguator_data (so_at ctx so) = Some d -> P d -> P (f d)) ->
  data_inv P (with_data ctx so f).
Proof.
  intros Hinv Hf j d' Hd'.
  destruct (Nat.eq_dec so j) as [<- | Hne].
  - rewrite so_at_with_data_same in Hd'. unfold map_data in Hd'. simpl in Hd'.
    destruct (disambiguator_data (so_at ctx so)) as [d |] eqn:E; [| discriminate].
    injection Hd' as <-. apply Hf; auto. apply (Hinv so). exact E.
  - rewrite so_at_with_data_other in Hd' by exact Hne. now apply (Hinv j).
Qed.

Lemma data_inv_objs (P : Disambiguator_data_t -> Prop) ctx ctx' :
  objs ctx' = objs ctx -> data_inv P ctx -> data_inv P ctx'.
Proof. intros H Hinv so d. unfold so_at. rewrite H. apply Hinv. Qed.

Lemma data_inv_data_of (P : Disambiguator_data_t -> Prop) ctx so :
  data_inv P ctx -> P (D_zero (sensor_ct (so_at ctx so))) -> P (data_of ctx so).
Proof.
  intros Hinv Hz. unfold data_of.
  destruct (disambiguator_data (so_at ctx so)) eqn:E; auto. now apply (Hinv so).
Qed.

(** ** [SetState] as one write *)

Lemma SetState_objs ctx so ns :
  objs (fst (SetState ctx so ns)) =
  objs (with_data ctx so
          (SetState_data (stored_state ns) (sensor_ct (so_at ctx so)))).
Proof.
  unfold SetState, stored_state. cbn [fst].
  set (st := if LS_END <=? ns then 1 else ns).
  assert (Hflag : forall (c : SurviveContext) (b : bool), objs (if b then set_mode_flag c false else c) = objs c)
    by (intros c []; reflexivity).
  assert (Hw : forall (c c' : SurviveContext) f, objs c = objs c' ->
                objs (with_data c so f) = objs (with_data c' so f))
    by (intros c c' f H; unfold with_data, with_obj; simpl; now rewrite H).
  assert (Hct : forall (c c' : SurviveContext), objs c = objs c' -> so_at c so = so_at c' so)
    by (intros c c' H; unfold so_at; now rewrite H).
  match goal with
  | |- objs (with_data ?c so (fun d => set_sweep_data d (repeat LE_zero (Z.to_nat (sensor_ct (so_at ?c' so)))))) = _ =>
      assert (Hc : objs c = objs (with_data ctx so
                 (fun d => ResetSync (if st =? LS_UNKNOWN
                   then set_sync_history (set_state d st)
                          (repeat LE_zero (Z.to_nat SYNC_HISTORY_LEN)) 0
                   else set_state d st))))
  end.
  { apply eq_trans with
      (objs (with_data
               (if st =? LS_UNKNOWN
                then with_data (with_data ctx so (fun d => set_state d st)) so
                       (fun d => set_sync_history d
                                   (repeat LE_zero (Z.to_nat SYNC_HISTORY_LEN)) 0)
                else with_data ctx so (fun d => set_state d st)) so ResetSync)).
    - apply Hw. apply Hflag.
    - destruct (st =? LS_UNKNOWN); now rewrite !with_data_twice. }
  rewrite (Hct _ _ Hc). rewrite sensor_ct_with_data.
  erewrite Hw by exact Hc. now rewrite with_data_twice.
Qed.

Lemma SetState_calls ctx so ns :
  lightproc_calls (fst (SetState ctx so ns)) = lightproc_calls ctx.
Proof.
  unfold SetState. cbn [fst].
  repeat match goal with
         | |- context [if ?b then _ else _] => destruct b
         end; reflexivity.
Qed.

Lemma SetState_returns ctx so ns : snd (SetState ctx so ns) = stored_state ns.
Proof. reflexivity. Qed.

Lemma data_inv_SetState (P : Disambiguator_data_t -> Prop) ctx so ns :
  data_inv P ctx ->
  (forall d, disambiguator_data (so_at ctx so) = Some d -> P d ->
             P (SetState_data (stored_state ns) (sensor_ct (so_at ctx so)) d)) ->
  data_inv P (fst (SetState ctx so ns)).
Proof.
  intros Hinv Hf. eapply data_inv_objs; [apply SetState_objs |].
  now apply data_inv_with_data.
Qed.

Lemma data_of_SetState ctx so ns d :
  disambiguator_data (so_at ctx so) = Some d ->
  disambiguator_data (so_at (fst (SetState ctx so ns)) so) =
  Some (SetState_data (stored_state ns) (sensor_ct (so_at ctx so)) d).
Proof.
  intros H. unfold so_at at 1. rewrite SetState_objs.
  fold (so_at (with_data ctx so
                 (SetState_data (stored_state ns) (sensor_ct (so_at ctx so)))) so).
  now apply data_with_data_same.
Qed.

(** ** Outcomes *)

Lemma and_then_ctx (P : SurviveContext -> Prop) (o : outcome)
    (f : SurviveContext -> outcome) :
  P (ctx_of o) -> (forall c, o = Done c -> P c -> P (ctx_of (f c))) ->
  P (ctx_of (and_then o f)).
Proof. destruct o as [c | c]; simpl; intros H Hf; [now apply Hf | exact H]. Qed.

Lemma and_then_Done (o : outcome) (f : SurviveContext -> outcome) (c : SurviveContext) :
  o = Done c -> and_then o f = f c.
Proof. now intros ->. Qed.

Lemma and_then_ctx2 (P Q : SurviveContext -> Prop) (o : outcome)
    (f : SurviveContext -> outcome) :
  P (ctx_of o) -> (forall c, P c -> Q c) ->
  (forall c, o = Done c -> P c -> Q (ctx_of (f c))) ->
  Q (ctx_of (and_then o f)).
Proof.
  destruct o as [c | c]; simpl; intros H Hw Hf; [now apply Hf | now apply Hw].
Qed.


(** ** Trackers stay inside the table and aggregate accepted pulses *)

Lemma acode_of_table (s : Z) :
  LSParam_acode s = 0 \/ LSParam_acode s = 1 \/
  LSParam_acode s = 4 \/ LSParam_acode s = 5.
Proof.
  unfold LSParam_acode, LS_Params_at.
  generalize (Z.to_nat s). intros n.
  do 14 (destruct n as [| n]; [simpl; auto |]).
  destruct n; simpl; auto.
Qed.

(** A pulse that passes the check [error <= 1250] against an acode of
    the table is between 1500 and 7500 ticks long. *)
Lemma accepted_length (s : Z) (le : LightcapElement) :
  0 <= length le < 2 ^ 16 ->
  calculate_error (LSParam_acode s) le <= 1250 ->
  1500 <= length le <= 7500.
Proof.
  intros Hl. unfold calculate_error.
  destruct (acode_of_table s) as [E | [E | [E | E]]]; rewrite E;
    match goal with
    | |- context [ACODE_TIMING (Z.lor ?a DATA_BIT)] =>
        let v := eval vm_compute in (ACODE_TIMING (Z.lor a DATA_BIT)) in
        change (ACODE_TIMING (Z.lor a DATA_BIT)) with v;
        let w := eval vm_compute in (ACODE_TIMING a) in
        change (ACODE_TIMING a) with w
    end;
    rewrite !wrap_u32_small by lia;
    match goal with
    | |- context [?a <? ?b] => destruct (Z.ltb_spec a b)
    end; lia.
Qed.

Lemma tracker_ok_same (d d' : Disambiguator_data_t) :
  state d' = state d ->
  longest_sync_length d' = longest_sync_length d ->
  last_sync_count d' = last_sync_count d ->
  tracker_ok d -> tracker_ok d'.
Proof.
  unfold tracker_ok, aggr_ok. intros -> -> ->. auto.
Qed.

Lemma tracker_ok_AddSyncHistory d s : tracker_ok d -> tracker_ok (AddSyncHistory d s).
Proof.
  apply tracker_ok_same; unfold AddSyncHistory; destruct (negb _); reflexivity.
Qed.

Lemma tracker_ok_RegisterSync d le :
  1500 <= length le <= 7500 -> tracker_ok d -> tracker_ok (RegisterSync d le).
Proof.
  unfold tracker_ok, aggr_ok, RegisterSync. simpl.
  intros Hl [Hs Ha]. split; [exact Hs |]. intros Hne. right.
  destruct (Ha Hne) as [[H0 _] | H];
    destruct (Z.ltb_spec (longest_sync_length d) (length le)); lia.
Qed.

Lemma tracker_ok_ResetSync d : tracker_ok d -> tracker_ok (ResetSync d).
Proof.
  unfold tracker_ok, aggr_ok, ResetSync. simpl. intros [Hs _]. auto.
Qed.

Lemma tracker_ok_SetState_data st ct d :
  0 <= st < LS_END -> tracker_ok (SetState_data st ct d).
Proof.
  unfold tracker_ok, aggr_ok, SetState_data. intros H.
  destruct (st =? LS_UNKNOWN); simpl; auto.
Qed.

Lemma tracker_ok_zero ct : tracker_ok (D_zero ct).
Proof. unfold tracker_ok, D_zero, LS_UNKNOWN, LS_END. simpl. split; [lia | congruence]. Qed.

Lemma stored_state_range ns : 0 <= ns -> 0 <= stored_state ns < LS_END.
Proof.
  unfold stored_state, LS_END. intros H.
  destruct (Z.leb_spec 13 ns); lia.
Qed.

Lemma ctx_ok_with_data ctx so f :
  ctx_ok ctx ->
  (forall d, disambiguator_data (so_at ctx so) = Some d ->
             tracker_ok d -> tracker_ok (f d)) ->
  ctx_ok (with_data ctx so f).
Proof.
  intros [Hd Hc] Hf. split; [now apply data_inv_with_data | exact Hc].
Qed.

Lemma ctx_ok_set_mode_flag ctx b : ctx_ok ctx -> ctx_ok (set_mode_flag ctx b).
Proof. intros [Hd Hc]. split; assumption. Qed.

Lemma ctx_ok_lightproc ctx so c :
  ctx_ok ctx -> sync_call_ok c -> ctx_ok (lightproc ctx so c).
Proof.
  intros [Hd Hc] Hok. split; [exact Hd |].
  unfold calls_ok, lightproc. simpl. apply Forall_app. split; [exact Hc |].
  constructor; [exact Hok | constructor].
Qed.

Lemma ctx_ok_SetState ctx so ns :
  ctx_ok ctx -> 0 <= ns -> ctx_ok (fst (SetState ctx so ns)).
Proof.
  intros [Hd Hc] Hns. split.
  - apply data_inv_SetState; [exact Hd |]. intros d _ _.
    apply tracker_ok_SetState_data. now apply stored_state_range.
  - unfold calls_ok. now rewrite SetState_calls.
Qed.

Lemma find_guess_from_state fuel guess best flag d re ac :
  0 <= guess ->
  0 <= fst (fst (find_guess_from fuel guess best flag d re ac)).
Proof.
  revert guess. induction fuel as [| fuel IH]; intros guess Hg;
    cbn [find_guess_from].
  - cbn [fst]. unfold LS_UNKNOWN. lia.
  - destruct (guess =? LS_END); [cbn [fst]; unfold LS_UNKNOWN; lia |].
    destruct (_ && _).
    + match goal with
      | |- context [match ?x with Some _ => _ | None => _ end] => destruct x
      end; [cbn [fst]; exact Hg |].
      apply IH. lia.
    + apply IH. lia.
Qed.

Lemma EndSync_state ctx so : 0 <= snd (EndSync ctx so).
Proof.
  unfold EndSync.
  match goal with
  | |- context [find_relative_offset ?c so] =>
      pose proof (find_guess_from_state 12 (LS_UNKNOWN + 1)
                    (get_best_latest_state c) (mode_flag c) (data_of c so)
                    (nth (Z.to_nat (Z.rem (sync_offset (data_of c so)
                                             + (SYNC_HISTORY_LEN - 1))
                                          SYNC_HISTORY_LEN))
                         (sync_history (data_of c so)) LE_zero)
                    (Z.land (find_acode (length
                       (nth (Z.to_nat (Z.rem (sync_offset (data_of c so)
                                                + (SYNC_HISTORY_LEN - 1))
                                             SYNC_HISTORY_LEN))
                            (sync_history (data_of c so)) LE_zero))) 5)
                    ltac:(unfold LS_UNKNOWN; lia)) as H;
      fold (find_relative_offset c so) in H;
      destruct (find_relative_offset c so) as [[ns m] is60]
  end.
  simpl in H. destruct (negb (ns =? LS_UNKNOWN)); simpl; [exact H |].
  unfold LS_UNKNOWN. lia.
Qed.

Lemma ctx_ok_EndSync ctx so : ctx_ok ctx -> ctx_ok (fst (EndSync ctx so)).
Proof.
  intros H. unfold EndSync.
  destruct (find_relative_offset _ so) as [[ns m] is60].
  assert (H1 : ctx_ok (with_data ctx so
                         (fun d => AddSyncHistory d (get_last_sync (data_of ctx so))))).
  { apply ctx_ok_with_data; [exact H |]. intros d _. apply tracker_ok_AddSyncHistory. }
  destruct (negb (ns =? LS_UNKNOWN)); cbn [fst]; [| exact H1].
  apply ctx_ok_set_mode_flag. apply ctx_ok_with_data; [exact H1 |].
  intros d _. now apply tracker_ok_same.
Qed.

Lemma naive_classify_sync le :
  naive_classify le = LCC_SYNC -> 2250 <= length le <= 6750.
Proof.
  unfold naive_classify, LOWER_SYNC_TIME, UPPER_SYNC_TIME.
  destruct (Z.ltb_spec (length le) 2250); [discriminate |].
  destruct (Z.ltb_spec 6750 (length le)); [discriminate |]. lia.
Qed.

Lemma AttemptFindState_state ctx so le : 0 <= snd (AttemptFindState ctx so le).
Proof.
  unfold AttemptFindState.
  pose proof (EndSync_state ctx so) as He.
  destruct (naive_classify le).
  - destruct (lastWasSync (data_of ctx so)).
    + destruct (EndSync ctx so) as [c s]. simpl in He.
      destruct (negb (s =? LS_UNKNOWN)); simpl; [exact He | unfold LS_UNKNOWN; lia].
    + simpl. unfold LS_UNKNOWN. lia.
  - destruct (negb (lastWasSync (data_of ctx so)) || _).
    + destruct (lastWasSync (data_of ctx so)).
      * destruct (EndSync ctx so) as [c s]. simpl in He.
        destruct (negb (s =? LS_UNKNOWN)); simpl; [exact He | unfold LS_UNKNOWN; lia].
      * simpl. unfold LS_UNKNOWN. lia.
    + simpl. unfold LS_UNKNOWN. lia.
Qed.

Lemma ctx_ok_AttemptFindState ctx so le :
  ctx_ok ctx -> ctx_ok (fst (AttemptFindState ctx so le)).
Proof.
  intros H. unfold AttemptFindState.
  pose proof (ctx_ok_EndSync ctx so H) as He.
  assert (Hflag : forall c b, ctx_ok c ->
            ctx_ok (with_data c so (fun d => set_lastWasSync d b))).
  { intros c b Hc. apply ctx_ok_with_data; [exact Hc |].
    intros d _. now apply tracker_ok_same. }
  destruct (naive_classify le) eqn:Hcl.
  - destruct (lastWasSync (data_of ctx so)).
    + destruct (EndSync ctx so) as [c s]. simpl in He.
      destruct (negb (s =? LS_UNKNOWN)); cbn [fst]; auto.
    + rewrite Z.eqb_refl. cbn [negb fst]. auto.
  - apply naive_classify_sync in Hcl.
    assert (Hreg : forall c, ctx_ok c ->
              ctx_ok (with_data (with_data c so (fun d => RegisterSync d le)) so
                        (fun d => set_lastWasSync d true))).
    { intros c Hc. apply Hflag. apply ctx_ok_with_data; [exact Hc |].
      intros d _. apply tracker_ok_RegisterSync. lia. }
    assert (Hres : forall c, ctx_ok c -> ctx_ok (with_data c so ResetSync)).
    { intros c Hc. apply ctx_ok_with_data; [exact Hc |].
      intros d _. apply tracker_ok_ResetSync. }
    destruct (negb (lastWasSync (data_of ctx so)) || _).
    + destruct (lastWasSync (data_of ctx so)).
      * destruct (EndSync ctx so) as [c s]. simpl in He.
        destruct (negb (s =? LS_UNKNOWN)); cbn [fst]; auto.
      * rewrite Z.eqb_refl. cbn [negb fst]. auto.
    + cbn [fst]. auto.
Qed.

Lemma ctx_ok_RunACodeCapture s ctx so le :
  LE_wf le -> ctx_ok ctx ->
  ctx_ok (RunACodeCapture (LSParam_acode s) ctx so le).
Proof.
  intros (_ & Hl & _) H. unfold RunACodeCapture.
  destruct (length le <? 400); [exact H |].
  destruct (Z.ltb_spec 1250 (calculate_error (LSParam_acode s) le)) as [He | He].
  - apply ctx_ok_with_data.
    + destruct (_ <? 3); [| exact H].
      apply ctx_ok_SetState; [exact H | unfold LS_UNKNOWN; lia].
    + intros d _. now apply tracker_ok_same.
  - apply ctx_ok_with_data.
    + destruct (_ <? 100); [| exact H].
      apply ctx_ok_with_data; [exact H |]. intros d _. now apply tracker_ok_same.
    + intros d _. apply tracker_ok_RegisterSync.
      now apply (accepted_length s).
Qed.

Lemma sweep_emit_objs l i minl maxl d e ctx so :
  objs (ctx_of (sweep_emit l i minl maxl d e ctx so)) = objs ctx.
Proof.
  revert i ctx. induction l as [| le l IH]; intros i ctx; simpl; [reflexivity |].
  destruct (_ && _); [| apply IH].
  destruct (0 <? _); [| reflexivity].
  rewrite IH. destruct (80 <? confidence d); reflexivity.
Qed.

Lemma sweep_emit_global l i minl maxl d e ctx so :
  ctx_disambiguator_data (ctx_of (sweep_emit l i minl maxl d e ctx so))
  = ctx_disambiguator_data ctx.
Proof.
  revert i ctx. induction l as [| le l IH]; intros i ctx; simpl; [reflexivity |].
  destruct (_ && _); [| apply IH].
  destruct (0 <? _); [| reflexivity].
  rewrite IH. destruct (80 <? confidence d); reflexivity.
Qed.

Lemma ctx_ok_sweep_emit l i minl maxl d e ctx so :
  0 <= i -> ctx_ok ctx -> ctx_ok (ctx_of (sweep_emit l i minl maxl d e ctx so)).
Proof.
  revert i ctx. induction l as [| le l IH]; intros i ctx Hi H; simpl; [exact H |].
  destruct (_ && _); [| apply IH; [lia | exact H]].
  destruct (0 <? _); [| exact H].
  apply IH; [lia |].
  destruct (80 <? confidence d); [| exact H].
  apply ctx_ok_lightproc; [exact H |].
  unfold sync_call_ok. simpl. lia.
Qed.

Lemma ctx_ok_ProcessStateChange ctx so ns :
  ctx_ok ctx -> state (data_of ctx so) <> LS_UNKNOWN -> 0 <= ns ->
  ctx_ok (ctx_of (ProcessStateChange ctx so ns)).
Proof.
  intros H Hst Hns. unfold ProcessStateChange.
  apply and_then_ctx;
    [| intros c _ Hc; cbn [ctx_of]; apply ctx_ok_SetState; [exact Hc | exact Hns]].
  assert (Hd : tracker_ok (data_of ctx so)).
  { apply data_inv_data_of; [apply H | apply tracker_ok_zero]. }
  set (d := data_of ctx so) in *.
  destruct (negb (is_sweep (LS_Params_at (state d)))); cbn [ctx_of].
  - destruct (Z.ltb_spec 0 (last_sync_count d)) as [Hc | Hc]; [| exact H].
    match goal with
    | |- ctx_ok (if _ then lightproc ?c _ _ else ?c) => assert (Hc' : ctx_ok c)
    end.
    { apply ctx_ok_with_data.
      - apply ctx_ok_with_data; [exact H |]. intros d' _.
        apply tracker_ok_AddSyncHistory.
      - intros d' _. now apply tracker_ok_same. }
    destruct (80 <? confidence d); [| exact Hc'].
    apply ctx_ok_lightproc; [exact Hc' |].
    destruct Hd as [_ Ha]. specialize (Ha Hst).
    unfold aggr_ok in Ha.
    assert (Hlen : 1500 <= longest_sync_length d <= 7500) by lia.
    unfold sync_call_ok. cbn [lp_sensor_id lp_length length].
    rewrite wrap_u16_small by lia. intros _. split; [| exact Hlen].
    destruct (is_sweep _); auto.
  - destruct (sweep_sum (sweep_data d) 0 0) as [avg cnt].
    destruct (0 <? cnt); [| exact H].
    apply ctx_ok_sweep_emit; [lia | exact H].
Qed.

Lemma phase_offset_bound (x m : Z) (flag : bool) :
  to_int (apply_mod_offset x m (if flag then LS_WaitLHB_ACode0 else LS_END))
  < 1600000.
Proof.
  pose proof (apply_mod_offset_range x m
                (if flag then LS_WaitLHB_ACode0 else LS_END)) as H.
  destruct flag.
  - change (LSParam_offset_for_state LS_WaitLHB_ACode0) with 800000 in H.
    rewrite to_int_small; lia.
  - change (LSParam_offset_for_state LS_END) with 1600000 in H.
    rewrite to_int_small; lia.
Qed.

Lemma ctx_ok_PropagateState_phase ctx so le :
  ctx_ok ctx -> state (data_of ctx so) <> LS_UNKNOWN ->
  ctx_ok (ctx_of (PropagateState_phase ctx so le)).
Proof.
  intros H Hst. unfold PropagateState_phase.
  destruct (negb _); [| exact H].
  apply ctx_ok_ProcessStateChange; [exact H | exact Hst |].
  match goal with
  | |- 0 <= fst (LighthouseState_findByOffset ?o) =>
      pose proof (findByOffset_range o) as Hr
  end.
  pose proof (phase_offset_bound
                (wrap_u32 (timestamp le + Z.quot (length le) 2))
                (mod_offset_at (data_of ctx so)
                   (lh (LS_Params_at (state (data_of ctx so)))))
                (mode_flag ctx)) as Hb.
  specialize (Hr Hb). lia.
Qed.

Lemma ctx_ok_PropagateState ctx so le :
  LE_wf le -> ctx_ok ctx -> state (data_of ctx so) <> LS_UNKNOWN ->
  ctx_ok (ctx_of (PropagateState ctx so le)).
Proof.
  intros Hwf H Hst. unfold PropagateState.
  destruct (_ <=? _); [exact H |].
  pose proof (ctx_ok_PropagateState_phase ctx so le H Hst) as H1.
  apply and_then_ctx; [exact H1 |]. clear H1. intros c1 _ H1.
  cbn [ctx_of]. unfold PropagateState_capture.
  destruct (negb _).
  - now apply ctx_ok_RunACodeCapture.
  - destruct (_ && _); [| exact H1].
    apply ctx_ok_with_data.
    + destruct (3000 <? length le); [| exact H1].
      apply ctx_ok_with_data; [exact H1 |]. intros d _. now apply tracker_ok_same.
    + intros d _. now apply tracker_ok_same.
Qed.

Lemma nth_update_nth_in {A : Type} (n : nat) (f : A -> A) (l : list A) (x : A) :
  (n < List.length l)%nat -> nth n (update_nth n f l) x = f (nth n l x).
Proof.
  revert n. induction l as [| y l IH]; intros [| n] H; simpl in *; try lia; auto.
  apply IH. lia.
Qed.

Lemma update_nth_out {A : Type} (n : nat) (f : A -> A) (l : list A) :
  (List.length l <= n)%nat -> update_nth n f l = l.
Proof.
  revert n. induction l as [| y l IH]; intros [| n] H; simpl in *; try lia; auto.
  f_equal. apply IH. lia.
Qed.

Lemma so_at_calloc ctx so :
  so_at (with_obj ctx so calloc_data) so = so_at ctx so \/
  so_at (with_obj ctx so calloc_data) so = calloc_data (so_at ctx so).
Proof.
  unfold so_at, with_obj. simpl.
  destruct (Nat.lt_ge_cases so (List.length (objs ctx))) as [H | H].
  - right. now apply nth_update_nth_in.
  - left. now rewrite update_nth_out.
Qed.

Lemma data_inv_calloc (P : Disambiguator_data_t -> Prop) ctx so :
  data_inv P ctx -> (forall ct, P (D_zero ct)) ->
  data_inv P (with_obj ctx so calloc_data).
Proof.
  intros Hinv Hz j d Hd.
  destruct (Nat.eq_dec so j) as [<- | Hne].
  - destruct (so_at_calloc ctx so) as [E | E]; rewrite E in Hd.
    + now apply (Hinv so).
    + unfold calloc_data in Hd.
      destruct (disambiguator_data (so_at ctx so)) eqn:E'.
      * apply (Hinv so). congruence.
      * simpl in Hd. injection Hd as <-. apply Hz.
  - rewrite so_at_with_obj_other in Hd by exact Hne. now apply (Hinv j).
Qed.

Lemma data_of_with_data ctx so f :
  data_of (with_data ctx so f) so =
  match disambiguator_data (so_at ctx so) with
  | Some d => f d
  | None => data_of ctx so
  end.
Proof.
  unfold data_of. rewrite so_at_with_data_same. unfold map_data. simpl.
  now destruct (disambiguator_data (so_at ctx so)).
Qed.

Lemma state_data_of_with_data ctx so f :
  (forall d, state (f d) = state d) ->
  state (data_of (with_data ctx so f) so) = state (data_of ctx so).
Proof.
  intros Hf. rewrite data_of_with_data.
  destruct (disambiguator_data (so_at ctx so)) eqn:E; [| reflexivity].
  rewrite Hf. now rewrite (data_of_some _ _ _ E).
Qed.

Section DispatcherInvariant.

Variable survive_timecode_difference : Z -> Z -> Z.

Lemma ctx_ok_DisambiguatorStateBased ctx so le :
  LE_wf le -> ctx_ok ctx ->
  ctx_ok (ctx_of (DisambiguatorStateBased survive_timecode_difference ctx so le)).
Proof.
  intros Hwf H. unfold DisambiguatorStateBased.
  destruct (_ =? 0); [exact H |].
  match goal with
  | |- context [with_obj ?c so calloc_data] =>
      assert (H1 : ctx_ok c) by (destruct (ctx_disambiguator_data ctx); exact H);
      assert (H2 : ctx_ok (with_obj c so calloc_data))
        by (split; [apply data_inv_calloc; [apply H1 | apply tracker_ok_zero]
                   | apply H1]);
      set (c2 := with_obj c so calloc_data) in *
  end.
  clearbody c2. clear H1.
  assert (Hlast : forall c, ctx_ok c ->
            ctx_ok (with_data c so (fun d => set_last_timestamp d (timestamp le)))).
  { intros c Hc. apply ctx_ok_with_data; [exact Hc |].
    intros d _. now apply tracker_ok_same. }
  destruct (_ <? 200).
  { apply ctx_ok_with_data; [exact H2 |]. intros d _. now apply tracker_ok_same. }
  destruct (Z.eqb_spec (state (data_of c2 so)) LS_UNKNOWN) as [Hst | Hst].
  - pose proof (ctx_ok_AttemptFindState c2 so le H2) as H3.
    pose proof (AttemptFindState_state c2 so le) as Hns.
    destruct (AttemptFindState c2 so le) as [c3 ns]. simpl in H3, Hns.
    cbn [ctx_of]. apply Hlast.
    destruct (negb (ns =? LS_UNKNOWN)).
    + apply ctx_ok_SetState; [| exact Hns].
      apply ctx_ok_with_data; [exact H3 |]. intros d _. now apply tracker_ok_same.
    + apply ctx_ok_with_data; [exact H3 |]. intros d _. now apply tracker_ok_same.
  - destruct (_ <? survive_timecode_difference _ _).
    + destruct (_ <? _).
      * apply ctx_ok_SetState; [exact H2 | unfold LS_UNKNOWN; lia].
      * apply and_then_ctx; [| intros c _ Hc; now apply Hlast].
        apply ctx_ok_PropagateState; [exact Hwf | |].
        -- apply ctx_ok_with_data; [exact H2 |]. intros d _. now apply tracker_ok_same.
        -- rewrite state_data_of_with_data by reflexivity. exact Hst.
    + apply and_then_ctx; [| intros c _ Hc; now apply Hlast].
      now apply ctx_ok_PropagateState.
Qed.

Lemma ctx_ok_run evs ctx :
  Forall (fun e => LE_wf (snd e)) evs -> ctx_ok ctx ->
  ctx_ok (run survive_timecode_difference ctx evs).
Proof.
  revert ctx. induction evs as [| [so le] evs IH]; intros ctx Hwf H; simpl.
  - exact H.
  - inversion Hwf as [| e es Hle Hes]; subst.
    pose proof (ctx_ok_DisambiguatorStateBased ctx so le Hle H) as H1.
    destruct (DisambiguatorStateBased _ ctx so le) as [c | c]; cbn [ctx_of] in H1.
    + now apply IH.
    + exact H1.
Qed.

End DispatcherInvariant.

Lemma ctx_ok_initial os : ctx_ok (initial_context os).
Proof.
  split.
  - intros so d. unfold so_at, initial_context. simpl.
    destruct (Nat.lt_ge_cases so (List.length os)) as [H | H].
    + erewrite nth_indep by (rewrite length_map; exact H).
      rewrite (map_nth (fun o => mkSO (fst o) (snd o) None) os (0, 0)).
      simpl. discriminate.
    + rewrite nth_overflow by (rewrite length_map; exact H). simpl. discriminate.
  - constructor.
Qed.

(** The lookup does yield [LS_END] close to the end of the cycle, and
    [SetState] stores phase 1 for it. *)
Lemma findByOffset_yields_LS_END :
  fst (LighthouseState_findByOffset 1599500) = LS_END /\
  stored_state LS_END = LS_WaitLHA_ACode4.
Proof. split; reflexivity. Qed.

(** C10. Whatever events the entry point has processed, the state kept
    for an object is [LS_UNKNOWN] or a phase index from 1 to 12, below
    [LS_END]. *)
Theorem state_below_LS_END
    (survive_timecode_difference : Z -> Z -> Z) (os : list (Z * Z))
    (evs : list (nat * LightcapElement)) (so : nat) (d : Disambiguator_data_t) :
  Forall (fun e => LE_wf (snd e)) evs ->
  disambiguator_data
    (so_at (run survive_timecode_difference (initial_context os) evs) so) = Some d ->
  state d = LS_UNKNOWN \/ 1 <= state d < LS_END.
Proof.
  intros Hwf Hd.
  pose proof (ctx_ok_run survive_timecode_difference evs (initial_context os)
                Hwf (ctx_ok_initial os)) as [Hinv _].
  destruct (Hinv so d Hd) as [Hr _]. unfold LS_UNKNOWN, LS_END in *. lia.
Qed.

(** C5, amended.  Every call of [lightproc] with a negative sensor id (a
    sync record) has sensor id -1 or -2 and a length between 1500 and
    7500 ticks. *)
Theorem sync_records_bounded
    (survive_timecode_difference : Z -> Z -> Z) (os : list (Z * Z))
    (evs : list (nat * LightcapElement)) (so : nat) (c : LightprocCall) :
  Forall (fun e => LE_wf (snd e)) evs ->
  In (so, c)
     (lightproc_calls (run survive_timecode_difference (initial_context os) evs)) ->
  lp_sensor_id c < 0 ->
  (lp_sensor_id c = -1 \/ lp_sensor_id c = -2) /\ 1500 <= lp_length c <= 7500.
Proof.
  intros Hwf Hin Hneg.
  pose proof (ctx_ok_run survive_timecode_difference evs (initial_context os)
                Hwf (ctx_ok_initial os)) as [_ Hcalls].
  unfold calls_ok in Hcalls. rewrite Forall_forall in Hcalls.
  exact (Hcalls (so, c) Hin Hneg).
Qed.

(** ** Confidence never exceeds 100 *)

Lemma conf_inv_weaken lo lo' ctx : lo' <= lo -> conf_inv lo ctx -> conf_inv lo' ctx.
Proof.
  intros Hle H so. destruct (H so) as [Ht Hc]. split; [exact Ht |].
  intros d Hd. specialize (Hc d Hd). unfold confidence_within in *. lia.
Qed.

Lemma conf_inv_with_data lo lo' ctx so f :
  conf_inv lo ctx -> lo' <= lo ->
  (forall d, disambiguator_data (so_at ctx so) = Some d ->
             confidence_within lo d -> confidence_within lo' (f d)) ->
  conf_inv lo' (with_data ctx so f).
Proof.
  intros H Hle Hf j.
  destruct (Nat.eq_dec so j) as [<- | Hne].
  - rewrite so_at_with_data_same. destruct (H so) as [Ht Hc].
    split; [exact Ht |]. unfold map_data. simpl.
    intros d' Hd'. destruct (disambiguator_data (so_at ctx so)) eqn:E; [| discriminate].
    injection Hd' as <-. apply Hf; auto.
  - rewrite so_at_with_data_other by exact Hne.
    now apply (conf_inv_weaken lo lo' ctx Hle H j).
Qed.

Lemma conf_inv_same lo ctx so f :
  conf_inv lo ctx -> (forall d, confidence (f d) = confidence d) ->
  conf_inv lo (with_data ctx so f).
Proof.
  intros H Hf. apply (conf_inv_with_data lo lo); [exact H | lia |].
  intros d _. unfold confidence_within. now rewrite Hf.
Qed.

Lemma conf_inv_objs lo ctx ctx' :
  objs ctx' = objs ctx -> conf_inv lo ctx -> conf_inv lo ctx'.
Proof. intros E H so. unfold so_at. rewrite E. apply H. Qed.

Lemma confidence_SetState_data st ct d :
  confidence (SetState_data st ct d) = confidence d.
Proof. unfold SetState_data. now destruct (st =? LS_UNKNOWN). Qed.

Lemma conf_inv_SetState lo ctx so ns :
  conf_inv lo ctx -> conf_inv lo (fst (SetState ctx so ns)).
Proof.
  intros H. eapply conf_inv_objs; [apply SetState_objs |].
  apply conf_inv_same; [exact H |]. intros d. apply confidence_SetState_data.
Qed.

Lemma conf_inv_calloc lo ctx so :
  lo <= 0 -> conf_inv lo ctx -> conf_inv lo (with_obj ctx so calloc_data).
Proof.
  intros Hlo H j.
  destruct (Nat.eq_dec so j) as [<- | Hne].
  - destruct (so_at_calloc ctx so) as [E | E]; rewrite E; [apply H |].
    destruct (H so) as [Ht Hc]. unfold calloc_data.
    destruct (disambiguator_data (so_at ctx so)) eqn:E'.
    + split; [exact Ht |]. now rewrite E'.
    + split; [exact Ht |]. simpl. intros d Hd. injection Hd as <-.
      unfold confidence_within. simpl. lia.
  - rewrite so_at_with_obj_other by exact Hne. apply H.
Qed.

Lemma confidence_AddSyncHistory d s :
  confidence (AddSyncHistory d s) = confidence d.
Proof. unfold AddSyncHistory. now destruct (negb _). Qed.

Lemma conf_inv_EndSync lo ctx so : conf_inv lo ctx -> conf_inv lo (fst (EndSync ctx so)).
Proof.
  intros H. unfold EndSync.
  destruct (find_relative_offset _ so) as [[ns m] is60].
  assert (H1 : conf_inv lo (with_data ctx so
                 (fun d => AddSyncHistory d (get_last_sync (data_of ctx so))))).
  { apply conf_inv_same; [exact H |]. intros d. apply confidence_AddSyncHistory. }
  destruct (negb (ns =? LS_UNKNOWN)); cbn [fst]; [| exact H1].
  change (conf_inv lo (with_data
            (with_data ctx so
               (fun d => AddSyncHistory d (get_last_sync (data_of ctx so))))
            so (fun d => set_mod_offset d [m; m]))).
  now apply conf_inv_same.
Qed.

Lemma conf_inv_AttemptFindState lo ctx so le :
  conf_inv lo ctx -> conf_inv lo (fst (AttemptFindState ctx so le)).
Proof.
  intros H. unfold AttemptFindState.
  pose proof (conf_inv_EndSync lo ctx so H) as He.
  assert (Hs : forall c f, conf_inv lo c ->
            (forall d, confidence (f d) = confidence d) ->
            conf_inv lo (with_data c so f))
    by (intros; now apply conf_inv_same).
  destruct (naive_classify le).
  - destruct (lastWasSync (data_of ctx so)).
    + destruct (EndSync ctx so) as [c s]. simpl in He.
      destruct (negb (s =? LS_UNKNOWN)); cbn [fst]; auto.
    + rewrite Z.eqb_refl. cbn [negb fst]. auto.
  - destruct (negb (lastWasSync (data_of ctx so)) || _).
    + destruct (lastWasSync (data_of ctx so)).
      * destruct (EndSync ctx so) as [c s]. simpl in He.
        destruct (negb (s =? LS_UNKNOWN)); cbn [fst]; auto 6.
      * rewrite Z.eqb_refl. cbn [negb fst]. auto 6.
    + cbn [fst]. auto 6.
Qed.

Lemma conf_inv_RunACodeCapture lo a ctx so le :
  - 2 ^ 31 + 3 <= lo -> conf_inv lo ctx ->
  conf_inv (lo - 3) (RunACodeCapture a ctx so le).
Proof.
  intros Hlo H. unfold RunACodeCapture.
  destruct (length le <? 400); [apply (conf_inv_weaken lo); [lia | exact H] |].
  destruct (1250 <? calculate_error a le).
  - apply (conf_inv_with_data lo); [| lia |].
    + destruct (_ <? 3); [| exact H]. now apply conf_inv_SetState.
    + intros d _. unfold confidence_within. simpl. intros Hc.
      rewrite to_int_small; lia.
  - apply (conf_inv_weaken lo); [lia |].
    apply conf_inv_same; [| reflexivity].
    destruct (Z.ltb_spec (confidence (data_of ctx so)) 100) as [Hc | Hc]; [| exact H].
    apply (conf_inv_with_data lo); [exact H | lia |].
    intros d Hd. rewrite (data_of_some _ _ _ Hd) in Hc.
    unfold confidence_within. simpl. intros Hw. rewrite to_int_small; lia.
Qed.

Lemma conf_inv_ProcessStateChange lo ctx so ns :
  conf_inv lo ctx -> conf_inv lo (ctx_of (ProcessStateChange ctx so ns)).
Proof.
  intros H. unfold ProcessStateChange.
  apply and_then_ctx; [| intros c _ Hc; cbn [ctx_of]; now apply conf_inv_SetState].
  set (d := data_of ctx so).
  destruct (negb (is_sweep (LS_Params_at (state d)))); cbn [ctx_of].
  - destruct (0 <? last_sync_count d); [| exact H].
    match goal with
    | |- conf_inv lo (if _ then lightproc ?c _ _ else ?c) =>
        assert (Hc' : conf_inv lo c)
    end.
    { apply conf_inv_same; [| reflexivity].
      apply conf_inv_same; [exact H |]. intros d'. apply confidence_AddSyncHistory. }
    destruct (80 <? confidence d); exact Hc'.
  - destruct (sweep_sum (sweep_data d) 0 0) as [avg cnt].
    destruct (0 <? cnt); [| exact H].
    eapply conf_inv_objs; [apply sweep_emit_objs | exact H].
Qed.

Lemma conf_inv_PropagateState lo ctx so le :
  - 2 ^ 31 + 3 <= lo -> conf_inv lo ctx ->
  conf_inv (lo - 3) (ctx_of (PropagateState ctx so le)).
Proof.
  intros Hlo H. unfold PropagateState.
  destruct (_ <=? _); [apply (conf_inv_weaken lo); [lia | exact H] |].
  assert (H1 : conf_inv lo (ctx_of (PropagateState_phase ctx so le))).
  { unfold PropagateState_phase. destruct (negb _); [| exact H].
    now apply conf_inv_ProcessStateChange. }
  apply (and_then_ctx2 (conf_inv lo)); [exact H1 | |].
  { intros c Hc. apply (conf_inv_weaken lo); [lia | exact Hc]. }
  clear H1. intros c1 _ H1. cbn [ctx_of]. unfold PropagateState_capture.
  destruct (negb _).
  - now apply conf_inv_RunACodeCapture.
  - destruct (_ && _); [| apply (conf_inv_weaken lo); [lia | exact H1]].
    apply conf_inv_same; [| reflexivity].
    destruct (3000 <? length le); [| apply (conf_inv_weaken lo); [lia | exact H1]].
    apply (conf_inv_with_data lo); [exact H1 | lia |].
    intros d _. unfold confidence_within. simpl. intros Hw.
    rewrite to_int_small; lia.
Qed.

Section ConfidenceInvariant.

Variable survive_timecode_difference : Z -> Z -> Z.
Hypothesis timecode_difference_range :
  forall a b, 0 <= survive_timecode_difference a b < 2 ^ 32.

Lemma silence_penalty_value (hz timediff : Z) :
  20 <= hz < 2 ^ 31 -> 0 <= timediff < 2 ^ 32 ->
  to_int (wrap_u32 (timediff / wrap_u32 hz * 10)) = 10 * (timediff / hz) /\
  0 <= 10 * (timediff / hz).
Proof.
  intros Hhz Ht.
  rewrite (wrap_u32_small hz) by lia.
  assert (Hq : 0 <= timediff / hz <= 214748364).
  { split; [apply Z.div_pos; lia |].
    apply Z.lt_succ_r. apply Z.div_lt_upper_bound; lia. }
  rewrite wrap_u32_small by lia. rewrite to_int_small by lia. lia.
Qed.

Lemma conf_inv_DisambiguatorStateBased lo ctx so le :
  - 2 ^ 31 + 3 <= lo <= 0 -> conf_inv lo ctx ->
  conf_inv (lo - 3)
    (ctx_of (DisambiguatorStateBased survive_timecode_difference ctx so le)).
Proof.
  intros Hlo H. unfold DisambiguatorStateBased.
  assert (Hw : forall c, conf_inv lo c -> conf_inv (lo - 3) c)
    by (intros c; apply conf_inv_weaken; lia).
  destruct (Z.eqb_spec (sensor_ct (so_at ctx so)) 0) as [Hct | Hct]; [now apply Hw |].
  match goal with
  | |- context [with_obj ?c so calloc_data] =>
      assert (H1 : conf_inv lo c) by (destruct (ctx_disambiguator_data ctx); exact H);
      assert (H2 : conf_inv lo (with_obj c so calloc_data))
        by (apply conf_inv_calloc; [lia | exact H1]);
      assert (Hhz : timebase_ok (so_at (with_obj c so calloc_data) so));
      [| set (c2 := with_obj c so calloc_data) in * ]
  end.
  { destruct (H2 so) as [Ht _]. apply Ht.
    match goal with
    | |- sensor_ct (so_at (with_obj ?c so calloc_data) so) <> 0 =>
        destruct (so_at_calloc c so) as [E | E]; rewrite E;
        replace (so_at c so) with (so_at ctx so)
          by (destruct (ctx_disambiguator_data ctx); reflexivity)
    end.
    - exact Hct.
    - unfold calloc_data. now destruct (disambiguator_data (so_at ctx so)). }
  clearbody c2. clear H1.
  destruct (_ <? 200).
  { apply Hw. now apply conf_inv_same. }
  destruct (state (data_of c2 so) =? LS_UNKNOWN).
  - pose proof (conf_inv_AttemptFindState lo c2 so le H2) as H3.
    destruct (AttemptFindState c2 so le) as [c3 ns]. simpl in H3.
    cbn [ctx_of]. apply Hw. apply conf_inv_same; [| reflexivity].
    destruct (negb (ns =? LS_UNKNOWN)).
    + apply conf_inv_SetState.
      apply (conf_inv_with_data lo); [exact H3 | lia |].
      intros d _ _. unfold confidence_within. simpl. lia.
    + now apply conf_inv_same.
  - set (timediff := survive_timecode_difference (timestamp le)
                       (last_timestamp (data_of c2 so))).
    destruct (silence_penalty_value (timebase_hz (so_at c2 so)) timediff Hhz
                (timecode_difference_range _ _)) as [Hp Hp0].
    destruct (_ <? timediff).
    + rewrite Hp.
      destruct (Z.ltb_spec (confidence (data_of c2 so))
                  (10 * (timediff / timebase_hz (so_at c2 so)))) as [Hc | Hc].
      * apply Hw. now apply conf_inv_SetState.
      * apply and_then_ctx;
          [| intros c _ Hc'; cbn [ctx_of]; now apply conf_inv_same].
        apply conf_inv_PropagateState; [lia |].
        apply (conf_inv_with_data lo); [exact H2 | lia |].
        intros d Hd. rewrite (data_of_some _ _ _ Hd) in Hc.
        unfold confidence_within. cbn [confidence set_confidence]. intros Hcw.
        rewrite to_int_small; lia.
    + apply and_then_ctx;
        [| intros c _ Hc; cbn [ctx_of]; now apply conf_inv_same].
      apply conf_inv_PropagateState; [lia | exact H2].
Qed.

Lemma conf_inv_run evs lo ctx :
  lo <= 0 -> - 2 ^ 31 + 3 <= lo - 3 * Z.of_nat (List.length evs) ->
  conf_inv lo ctx ->
  conf_inv (lo - 3 * Z.of_nat (List.length evs))
           (run survive_timecode_difference ctx evs).
Proof.
  revert lo ctx. induction evs as [| [so le] evs IH]; intros lo ctx Hlo Hn H.
  - simpl. replace (lo - 0) with lo by lia. exact H.
  - cbn [run]. cbn [List.length] in *.
    replace (lo - 3 * Z.of_nat (S (List.length evs)))
      with ((lo - 3) - 3 * Z.of_nat (List.length evs)) in * by lia.
    pose proof (conf_inv_DisambiguatorStateBased lo ctx so le ltac:(lia) H) as H1.
    destruct (DisambiguatorStateBased _ ctx so le) as [c | c]; cbn [ctx_of] in H1.
    + apply IH; [lia | lia | exact H1].
    + apply (conf_inv_weaken (lo - 3)); [lia | exact H1].
Qed.

End ConfidenceInvariant.

Lemma conf_inv_initial os :
  Forall (fun o => 20 <= snd o < 2 ^ 31) os -> conf_inv 0 (initial_context os).
Proof.
  intros Hos so. unfold so_at, initial_context. simpl.
  destruct (Nat.lt_ge_cases so (List.length os)) as [H | H].
  - erewrite nth_indep by (rewrite length_map; exact H).
    rewrite (map_nth (fun o => mkSO (fst o) (snd o) None) os (0, 0)).
    split; [| simpl; discriminate].
    intros _. unfold timebase_ok. simpl.
    rewrite Forall_forall in Hos. apply Hos. now apply nth_In.
  - rewrite nth_overflow by (rewrite length_map; exact H).
    split; simpl; [congruence | discriminate].
Qed.

(** C2, amended.  Along every stream of at most 2^29 events, for objects
    whose time base is at least 20 ticks per second, the confidence of a
    tracker never exceeds 100; below, it can leave 0 by at most 3 per
    event processed. *)
Theorem confidence_at_most_100
    (survive_timecode_difference : Z -> Z -> Z) (os : list (Z * Z))
    (evs : list (nat * LightcapElement)) (so : nat) (d : Disambiguator_data_t) :
  (forall a b, 0 <= survive_timecode_difference a b < 2 ^ 32) ->
  Forall (fun o => 20 <= snd o < 2 ^ 31) os ->
  Z.of_nat (List.length evs) <= 2 ^ 29 ->
  disambiguator_data
    (so_at (run survive_timecode_difference (initial_context os) evs) so) = Some d ->
  - 3 * Z.of_nat (List.length evs) <= confidence d <= 100.
Proof.
  intros Hrange Hos Hlen Hd.
  pose proof (conf_inv_run survive_timecode_difference Hrange evs 0
                (initial_context os) ltac:(lia) ltac:(lia) (conf_inv_initial os Hos))
    as Hinv.
  destruct (Hinv so) as [_ Hc]. specialize (Hc d Hd).
  unfold confidence_within in Hc. lia.
Qed.

(** ** The mode flag while another object is locked *)

Lemma best_latest_from_some os i mx best :
  best <> None -> best_latest_from os i mx best <> None.
Proof.
  revert i mx best. induction os as [| o os IH]; intros i mx best H; simpl.
  - exact H.
  - destruct (disambiguator_data o) as [d |]; [| now apply IH].
    destruct (_ && _); apply IH; [discriminate | exact H].
Qed.

Lemma best_latest_from_found os i best :
  (exists o d, In o os /\ disambiguator_data o = Some d /\
               state d <> LS_UNKNOWN /\ 0 < confidence d) ->
  best_latest_from os i 0 best <> None.
Proof.
  revert i best. induction os as [| o os IH]; intros i best (o' & d & Hin & Hd & Hs & Hc).
  - destruct Hin.
  - simpl. destruct (disambiguator_data o) as [d0 |] eqn:E.
    + destruct (negb (state d0 =? LS_UNKNOWN) && (0 <? confidence d0)) eqn:Ht.
      * apply best_latest_from_some. discriminate.
      * apply IH. exists o', d. repeat split; auto.
        destruct Hin as [-> | Hin]; [| exact Hin].
        exfalso. rewrite Hd in E. injection E as <-.
        apply andb_false_iff in Ht. destruct Ht as [Ht | Ht].
        -- apply negb_false_iff in Ht. apply Z.eqb_eq in Ht. contradiction.
        -- apply Z.ltb_ge in Ht. lia.
    + apply IH. exists o', d. repeat split; auto.
      destruct Hin as [-> | Hin]; [congruence | exact Hin].
Qed.

Lemma locked_peer_best ctx j :
  locked_peer ctx j -> get_best_latest_state ctx <> None.
Proof.
  intros (d & Hd & Hs & Hc). unfold get_best_latest_state.
  apply best_latest_from_found. exists (so_at ctx j), d. repeat split; auto.
  unfold so_at in *.
  destruct (Nat.lt_ge_cases j (List.length (objs ctx))) as [H | H].
  - now apply nth_In.
  - rewrite nth_overflow in Hd by exact H. discriminate.
Qed.

Lemma peer_inv_with_data j b ctx so f :
  so <> j -> peer_inv j b ctx -> peer_inv j b (with_data ctx so f).
Proof.
  intros Hne [(d & Hd & Hs) Hf]. split; [| exact Hf].
  exists d. rewrite so_at_with_data_other by exact Hne. auto.
Qed.

Lemma peer_inv_same j b ctx ctx' :
  objs ctx' = objs ctx ->
  ctx_disambiguator_data ctx' = ctx_disambiguator_data ctx ->
  peer_inv j b ctx -> peer_inv j b ctx'.
Proof.
  intros Ho Hg [(d & Hd & Hs) Hf]. split.
  - exists d. unfold so_at in *. rewrite Ho. auto.
  - unfold mode_flag in *. now rewrite Hg.
Qed.

Lemma peer_inv_SetState j b ctx so ns :
  so <> j -> peer_inv j b ctx -> peer_inv j b (fst (SetState ctx so ns)).
Proof.
  intros Hne H. unfold SetState. cbn [fst].
  set (st := if LS_END <=? ns then 1 else ns).
  repeat apply peer_inv_with_data; try exact Hne.
  match goal with
  | |- peer_inv j b (if _ && match get_best_latest_state ?c with _ => _ end
                     then _ else _) =>
      assert (Hc : peer_inv j b c)
        by (destruct (st =? LS_UNKNOWN); repeat apply peer_inv_with_data; auto);
      pose proof (locked_peer_best c j (proj1 Hc)) as Hb;
      destruct (get_best_latest_state c); [| congruence]
  end.
  rewrite andb_false_r. exact Hc.
Qed.

Lemma find_mode_from_flag fuel t limit best flag d gm t' :
  best <> None ->
  find_mode_from fuel t limit best flag d gm = Some t' ->
  (t' =? (if flag then 1 else 0)) = true.
Proof.
  intros Hb. revert t. induction fuel as [| fuel IH]; intros t; simpl; [discriminate |].
  destruct (t <? limit); [| discriminate].
  destruct best as [b0 |]; [| congruence]. cbn [andb].
  destruct (t =? (if flag then 1 else 0)) eqn:Et; cbn [negb].
  - destruct (_ <? find_inliers _ _ _); [| apply IH].
    intros E. injection E as <-. exact Et.
  - apply IH.
Qed.

Lemma find_guess_from_flag fuel guess best flag d re ac :
  best <> None ->
  fst (fst (find_guess_from fuel guess best flag d re ac)) <> LS_UNKNOWN ->
  snd (find_guess_from fuel guess best flag d re ac) = flag.
Proof.
  intros Hb. revert guess.
  induction fuel as [| fuel IH]; intros guess; cbn [find_guess_from].
  - cbn [fst]. congruence.
  - destruct (guess =? LS_END); [cbn [fst]; congruence |].
    destruct (_ && _); [| apply IH].
    match goal with
    | |- context [match ?x with Some _ => _ | None => _ end] =>
        destruct x as [t' |] eqn:E; [| apply IH]
    end.
    intros _. cbn [snd].
    apply (find_mode_from_flag _ _ _ _ flag) in E; [| exact Hb].
    apply Z.eqb_eq in E. subst t'. now destruct flag.
Qed.

Lemma peer_inv_EndSync j b ctx so :
  so <> j -> peer_inv j b ctx -> peer_inv j b (fst (EndSync ctx so)).
Proof.
  intros Hne H. unfold EndSync.
  set (c1 := with_data ctx so
               (fun d => AddSyncHistory d (get_last_sync (data_of ctx so)))).
  assert (H1 : peer_inv j b c1) by (now apply peer_inv_with_data).
  pose proof (find_guess_from_flag 12 (LS_UNKNOWN + 1)
                (get_best_latest_state c1) (mode_flag c1) (data_of c1 so)
                (nth (Z.to_nat (Z.rem (sync_offset (data_of c1 so)
                                         + (SYNC_HISTORY_LEN - 1))
                                      SYNC_HISTORY_LEN))
                     (sync_history (data_of c1 so)) LE_zero)
                (Z.land (find_acode (length
                   (nth (Z.to_nat (Z.rem (sync_offset (data_of c1 so)
                                            + (SYNC_HISTORY_LEN - 1))
                                         SYNC_HISTORY_LEN))
                        (sync_history (data_of c1 so)) LE_zero))) 5)
                (locked_peer_best c1 j (proj1 H1))) as Hflag.
  fold (find_relative_offset c1 so) in Hflag.
  destruct (find_relative_offset c1 so) as [[ns m] is60]. cbn [fst snd] in Hflag.
  destruct (Z.eqb_spec ns LS_UNKNOWN) as [E | E]; cbn [negb fst]; [exact H1 |].
  rewrite (Hflag E).
  destruct H1 as [Hl Hf].
  split.
  - destruct Hl as (d & Hd & Hs). exists d.
    change (so_at (set_mode_flag (with_data c1 so (fun d0 => set_mod_offset d0 [m; m]))
                     (mode_flag c1)) j)
      with (so_at (with_data c1 so (fun d0 => set_mod_offset d0 [m; m])) j).
    rewrite so_at_with_data_other by exact Hne. auto.
  - unfold mode_flag at 1, set_mode_flag. simpl. exact Hf.
Qed.

Lemma peer_inv_AttemptFindState j b ctx so le :
  so <> j -> peer_inv j b ctx -> peer_inv j b (fst (AttemptFindState ctx so le)).
Proof.
  intros Hne H. unfold AttemptFindState.
  pose proof (peer_inv_EndSync j b ctx so Hne H) as He.
  assert (Hs : forall c f, peer_inv j b c -> peer_inv j b (with_data c so f))
    by (intros; now apply peer_inv_with_data).
  destruct (naive_classify le).
  - destruct (lastWasSync (data_of ctx so)).
    + destruct (EndSync ctx so) as [c s]. simpl in He.
      destruct (negb (s =? LS_UNKNOWN)); cbn [fst]; auto.
    + rewrite Z.eqb_refl. cbn [negb fst]. auto.
  - destruct (negb (lastWasSync (data_of ctx so)) || _).
    + destruct (lastWasSync (data_of ctx so)).
      * destruct (EndSync ctx so) as [c s]. simpl in He.
        destruct (negb (s =? LS_UNKNOWN)); cbn [fst]; auto 6.
      * rewrite Z.eqb_refl. cbn [negb fst]. auto 6.
    + cbn [fst]. auto 6.
Qed.

Lemma peer_inv_RunACodeCapture j b a ctx so le :
  so <> j -> peer_inv j b ctx -> peer_inv j b (RunACodeCapture a ctx so le).
Proof.
  intros Hne H. unfold RunACodeCapture.
  destruct (length le <? 400); [exact H |].
  destruct (1250 <? calculate_error a le); apply peer_inv_with_data; auto.
  - destruct (_ <? 3); [| exact H]. now apply peer_inv_SetState.
  - destruct (_ <? 100); [| exact H]. now apply peer_inv_with_data.
Qed.

Lemma peer_inv_ProcessStateChange j b ctx so ns :
  so <> j -> peer_inv j b ctx -> peer_inv j b (ctx_of (ProcessStateChange ctx so ns)).
Proof.
  intros Hne H. unfold ProcessStateChange.
  apply and_then_ctx;
    [| intros c _ Hc; cbn [ctx_of]; now apply peer_inv_SetState].
  set (d := data_of ctx so).
  destruct (negb (is_sweep (LS_Params_at (state d)))); cbn [ctx_of].
  - destruct (0 <? last_sync_count d); [| exact H].
    match goal with
    | |- peer_inv j b (if _ then lightproc ?c _ _ else ?c) =>
        assert (Hc' : peer_inv j b c) by (repeat apply peer_inv_with_data; auto)
    end.
    destruct (80 <? confidence d); [| exact Hc'].
    eapply peer_inv_same; [| | exact Hc']; reflexivity.
  - destruct (sweep_sum (sweep_data d) 0 0) as [avg cnt].
    destruct (0 <? cnt); [| exact H].
    eapply peer_inv_same; [apply sweep_emit_objs | apply sweep_emit_global | exact H].
Qed.

Lemma peer_inv_PropagateState j b ctx so le :
  so <> j -> peer_inv j b ctx -> peer_inv j b (ctx_of (PropagateState ctx so le)).
Proof.
  intros Hne H. unfold PropagateState.
  destruct (_ <=? _); [exact H |].
  assert (H1 : peer_inv j b (ctx_of (PropagateState_phase ctx so le))).
  { unfold PropagateState_phase. destruct (negb _); [| exact H].
    now apply peer_inv_ProcessStateChange. }
  apply and_then_ctx; [exact H1 |]. clear H1. intros c1 _ H1.
  cbn [ctx_of]. unfold PropagateState_capture.
  destruct (negb _); [now apply peer_inv_RunACodeCapture |].
  destruct (_ && _); [| exact H1].
  apply peer_inv_with_data; [exact Hne |].
  destruct (3000 <? length le); [| exact H1]. now apply peer_inv_with_data.
Qed.

(** C4, amended.  While another object is locked with positive
    confidence, no event delivered to an object changes
    [single_60hz_mode]: a lock decision takes over the current mode, and
    a loss of lock does not clear it. *)
Theorem mode_flag_kept_by_locked_peer
    (survive_timecode_difference : Z -> Z -> Z)
    (ctx : SurviveContext) (so j : nat) (le : LightcapElement) :
  so <> j -> locked_peer ctx j ->
  mode_flag (ctx_of (DisambiguatorStateBased survive_timecode_difference ctx so le))
  = mode_flag ctx.
Proof.
  intros Hne Hl.
  assert (H : peer_inv j (mode_flag ctx) ctx) by (split; [exact Hl | reflexivity]).
  cut (peer_inv j (mode_flag ctx)
         (ctx_of (DisambiguatorStateBased survive_timecode_difference ctx so le)));
    [intros [_ E]; exact E |].
  unfold DisambiguatorStateBased.
  destruct (_ =? 0); [exact H |].
  match goal with
  | |- context [with_obj ?c so calloc_data] =>
      assert (H2 : peer_inv j (mode_flag ctx) (with_obj c so calloc_data));
      [| set (c2 := with_obj c so calloc_data) in *; clearbody c2 ]
  end.
  { destruct H as [(d & Hd & Hs) Hf]. split.
    - exists d. rewrite so_at_with_obj_other by exact Hne.
      destruct (ctx_disambiguator_data ctx); auto.
    - unfold mode_flag, with_obj. destruct (ctx_disambiguator_data ctx) eqn:E; simpl; [now rewrite E | reflexivity]. }
  destruct (_ <? 200); [now apply peer_inv_with_data |].
  destruct (state (data_of c2 so) =? LS_UNKNOWN).
  - pose proof (peer_inv_AttemptFindState j _ c2 so le Hne H2) as H3.
    destruct (AttemptFindState c2 so le) as [c3 ns]. simpl in H3.
    cbn [ctx_of]. apply peer_inv_with_data; [exact Hne |].
    destruct (negb (ns =? LS_UNKNOWN)).
    + apply peer_inv_SetState; [exact Hne |]. now apply peer_inv_with_data.
    + now apply peer_inv_with_data.
  - destruct (_ <? survive_timecode_difference _ _).
    + destruct (_ <? _).
      * now apply peer_inv_SetState.
      * apply and_then_ctx;
          [| intros c _ Hc; cbn [ctx_of]; now apply peer_inv_with_data].
        apply peer_inv_PropagateState; [exact Hne |]. now apply peer_inv_with_data.
    + apply and_then_ctx;
        [| intros c _ Hc; cbn [ctx_of]; now apply peer_inv_with_data].
      now apply peer_inv_PropagateState.
Qed.

(** ** One event inside a phase *)

Lemma state_SetState_data st ct d : state (SetState_data st ct d) = st.
Proof. unfold SetState_data. now destruct (st =? LS_UNKNOWN). Qed.

Lemma update_nth_id {A : Type} (n : nat) (f : A -> A) (l : list A) (x : A) :
  f (nth n l x) = nth n l x -> update_nth n f l = l.
Proof.
  revert n. induction l as [| y l IH]; intros [| n] H; simpl in *; auto.
  - congruence.
  - f_equal. auto.
Qed.

Lemma with_obj_calloc_id ctx so d :
  disambiguator_data (so_at ctx so) = Some d ->
  with_obj ctx so calloc_data = ctx.
Proof.
  intros H. unfold with_obj.
  rewrite (update_nth_id so calloc_data (objs ctx) (mkSO 0 0 None)).
  - now destruct ctx.
  - fold (so_at ctx so). unfold calloc_data. now rewrite H.
Qed.

(** C6, as stated, fails in two ways for a tracker inside the sweep
    phase 3 with confidence 50 and an empty slot for sensor 0: a pulse of
    8000 ticks leaves the confidence at 50, and a pulse of 100 ticks is
    stored in the slot. *)
Lemma sweep_capture_not_as_stated :
  is_sweep (LS_Params_at (state (data_of tracker_in_sweep 0))) = true /\
  state (data_of (ctx_of (PropagateState_phase tracker_in_sweep 0 long_pulse)) 0)
  = LS_SweepAX /\
  confidence (data_of tracker_in_sweep 0) = 50 /\
  aborts (PropagateState tracker_in_sweep 0 long_pulse) = false /\
  confidence (data_of (ctx_of (PropagateState tracker_in_sweep 0 long_pulse)) 0)
  = 50 /\
  state (data_of (ctx_of (PropagateState_phase tracker_in_sweep 0 short_pulse)) 0)
  = LS_SweepAX /\
  aborts (PropagateState tracker_in_sweep 0 short_pulse) = false /\
  nth 0 (sweep_data
           (data_of (ctx_of (PropagateState tracker_in_sweep 0 short_pulse)) 0))
      LE_zero
  = short_pulse.
Proof. vm_compute. repeat split. Qed.

(** C6, amended.  For an event handled in a sweep phase (the change of
    phase before it, if there is one, has not aborted), the slot of its
    sensor is replaced exactly when the event is shorter than 7000 ticks
    and longer than the pulse in the slot, and the confidence is
    decremented by 1 exactly when the slot is replaced by an event longer
    than 3000 ticks. *)
Theorem sweep_capture (ctx : SurviveContext) (so : nat) (le : LightcapElement)
    (d1 : Disambiguator_data_t) :
  sensor_id le < sensor_ct (so_at ctx so) ->
  aborts (PropagateState_phase ctx so le) = false ->
  disambiguator_data (so_at (ctx_of (PropagateState_phase ctx so le)) so) = Some d1 ->
  is_sweep (LS_Params_at (state d1)) = true ->
  (Z.to_nat (sensor_id le) < List.length (sweep_data d1))%nat ->
  - 2 ^ 31 < confidence d1 < 2 ^ 31 ->
  let slot := nth (Z.to_nat (sensor_id le)) (sweep_data d1) LE_zero in
  let replaced := (length slot <? length le) && (length le <? 7000) in
  let d2 := data_of (ctx_of (PropagateState ctx so le)) so in
  aborts (PropagateState ctx so le) = false
  /\ confidence d2 =
    (if replaced && (3000 <? length le) then confidence d1 - 1 else confidence d1)
  /\ nth (Z.to_nat (sensor_id le)) (sweep_data d2) LE_zero =
     (if replaced then le else slot).
Proof.
  intros Hid Hab Hd Hsw Hlen Hc slot replaced d2.
  subst d2. unfold PropagateState.
  destruct (Z.leb_spec (sensor_ct (so_at ctx so)) (sensor_id le)) as [H | _]; [lia |].
  destruct (PropagateState_phase ctx so le) as [c1 | c1]; [| discriminate Hab].
  cbn [ctx_of and_then aborts] in *. split; [reflexivity |].
  unfold PropagateState_capture.
  rewrite (data_of_some _ _ _ Hd). rewrite Hsw. cbn [negb].
  fold slot. fold replaced.
  destruct replaced; cbn [andb].
  - destruct (3000 <? length le).
    + rewrite with_data_twice. rewrite data_of_with_data. rewrite Hd.
      cbn [confidence sweep_data set_sweep_data set_confidence].
      rewrite to_int_small by lia. split; [reflexivity |].
      now apply nth_store_same.
    + rewrite data_of_with_data. rewrite Hd.
      cbn [confidence sweep_data set_sweep_data]. split; [reflexivity |].
      now apply nth_store_same.
  - rewrite (data_of_some _ _ _ Hd). split; reflexivity.
Qed.

Lemma sweep_capture_witness :
  confidence (data_of (ctx_of (PropagateState tracker_in_sweep 0 sweep_pulse)) 0) = 49.
Proof.
  apply (sweep_capture tracker_in_sweep 0 sweep_pulse (data_of tracker_in_sweep 0)).
  - vm_compute. reflexivity.
  - vm_compute. reflexivity.
  - vm_compute. reflexivity.
  - vm_compute. reflexivity.
  - vm_compute. lia.
  - vm_compute. split; reflexivity.
Defined.

(** C8.  For an event handled in a sync phase (a valid sensor, at least
    the 400 ticks of the noise floor, and no abort in the change of phase
    before it), a length more than 1250 ticks off the expected lengths of
    the phase's acode (the smaller of the errors with and without the
    data bit) lowers the confidence by 3, so the confidence strictly
    decreases. *)
Theorem sync_mismatch_penalty (ctx : SurviveContext) (so : nat)
    (le : LightcapElement) (d1 : Disambiguator_data_t) :
  sensor_id le < sensor_ct (so_at ctx so) ->
  aborts (PropagateState_phase ctx so le) = false ->
  disambiguator_data (so_at (ctx_of (PropagateState_phase ctx so le)) so) = Some d1 ->
  is_sweep (LS_Params_at (state d1)) = false ->
  400 <= length le ->
  1250 < calculate_error (LSParam_acode (state d1)) le ->
  - 2 ^ 31 + 3 <= confidence d1 < 2 ^ 31 ->
  aborts (PropagateState ctx so le) = false /\
  confidence (data_of (ctx_of (PropagateState ctx so le)) so) = confidence d1 - 3 /\
  confidence (data_of (ctx_of (PropagateState ctx so le)) so) < confidence d1.
Proof.
  intros Hid Hab Hd Hsw Hlen Herr Hc.
  unfold PropagateState.
  destruct (Z.leb_spec (sensor_ct (so_at ctx so)) (sensor_id le)) as [H | _]; [lia |].
  destruct (PropagateState_phase ctx so le) as [c1 | c1]; [| discriminate Hab].
  cbn [ctx_of and_then aborts] in *. split; [reflexivity |].
  enough (E : confidence (data_of (PropagateState_capture c1 so le) so)
              = confidence d1 - 3) by (rewrite E; lia).
  unfold PropagateState_capture.
  rewrite (data_of_some _ _ _ Hd). rewrite Hsw. cbn [negb].
  unfold RunACodeCapture.
  destruct (Z.ltb_spec (length le) 400) as [H | _]; [lia |].
  destruct (Z.ltb_spec 1250 (calculate_error (LSParam_acode (state d1)) le))
    as [_ | H]; [| lia].
  rewrite data_of_with_data.
  destruct (confidence (data_of c1 so) <? 3).
  - rewrite (data_of_SetState _ _ _ _ Hd).
    cbn [confidence set_confidence]. rewrite confidence_SetState_data.
    apply to_int_small. lia.
  - rewrite Hd. cbn [confidence set_confidence]. apply to_int_small. lia.
Qed.

Lemma sync_mismatch_penalty_witness :
  aborts (PropagateState tracker_in_sync 0 wrong_pulse) = false /\
  confidence (data_of (ctx_of (PropagateState tracker_in_sync 0 wrong_pulse)) 0)
  = confidence (data_of tracker_in_sync 0) - 3 /\
  confidence (data_of (ctx_of (PropagateState tracker_in_sync 0 wrong_pulse)) 0)
  < confidence (data_of tracker_in_sync 0).
Proof.
  apply (sync_mismatch_penalty tracker_in_sync 0 wrong_pulse
           (data_of tracker_in_sync 0)).
  - vm_compute. reflexivity.
  - vm_compute. reflexivity.
  - vm_compute. reflexivity.
  - vm_compute. reflexivity.
  - vm_compute. congruence.
  - vm_compute. reflexivity.
  - vm_compute. split; congruence.
Defined.

(** ** Silence *)

(** C9, as stated, fails for a time base of 1 tick per second: an event
    of a sensor the object does not have reaches a tracker locked in
    phase 2 with confidence 50 after 300000000 ticks.  The penalty
    [timediff / timebase_hz * 10] is 3000000000 as [uint32_t] and
    -1294967296 as [int]: the confidence is not below it, the tracker
    stays locked and its confidence goes up to 1294967346. *)
Lemma silence_penalty_wraps :
  state (data_of slow_clock_tracker 0) = LS_WaitLHA_ACode0 /\
  confidence (data_of slow_clock_tracker 0) = 50 /\
  timebase_hz (so_at slow_clock_tracker 0) = 1 /\
  timecode_difference_spec (timestamp stray_late_pulse)
    (last_timestamp (data_of slow_clock_tracker 0)) = 300000000 /\
  aborts (DisambiguatorStateBased timecode_difference_spec slow_clock_tracker 0
            stray_late_pulse) = false /\
  state (data_of
           (ctx_of (DisambiguatorStateBased timecode_difference_spec
                      slow_clock_tracker 0 stray_late_pulse)) 0)
  = LS_WaitLHA_ACode0 /\
  confidence (data_of
                (ctx_of (DisambiguatorStateBased timecode_difference_spec
                           slow_clock_tracker 0 stray_late_pulse)) 0)
  = 1294967346.
Proof. vm_compute. repeat split. Qed.

(** C9, amended.  For an event that reaches a warmed-up, locked tracker
    more than [timebase_hz] ticks after the previous one, with a penalty
    [10 * (timediff / timebase_hz)] below 2^31: when the confidence is
    below the penalty the dispatcher does nothing but [SetState(UNKNOWN)]
    and returns (confidence and last timestamp are left as they were,
    nothing is emitted); otherwise the tracker's confidence is lowered by
    the penalty, every other field being kept, the event goes on to
    [PropagateState] and, unless that aborts, the last timestamp is
    written. *)
Theorem silence_penalty
    (survive_timecode_difference : Z -> Z -> Z)
    (ctx : SurviveContext) (so : nat) (le : LightcapElement)
    (d : Disambiguator_data_t) (g : Global_Disambiguator_data_t) :
  ctx_disambiguator_data ctx = Some g ->
  disambiguator_data (so_at ctx so) = Some d ->
  sensor_ct (so_at ctx so) <> 0 ->
  200 <= stabalize d ->
  state d <> LS_UNKNOWN ->
  - 2 ^ 31 <= confidence d < 2 ^ 31 ->
  let timediff := survive_timecode_difference (timestamp le) (last_timestamp d) in
  let hz := timebase_hz (so_at ctx so) in
  0 < hz < 2 ^ 31 ->
  hz < timediff < 2 ^ 32 ->
  10 * (timediff / hz) < 2 ^ 31 ->
  let penalty := 10 * (timediff / hz) in
  let o := DisambiguatorStateBased survive_timecode_difference ctx so le in
  if confidence d - penalty <? 0 then
    o = Done (fst (SetState ctx so LS_UNKNOWN)) /\
    state (data_of (ctx_of o) so) = LS_UNKNOWN /\
    confidence (data_of (ctx_of o) so) = confidence d /\
    last_timestamp (data_of (ctx_of o) so) = last_timestamp d /\
    lightproc_calls (ctx_of o) = lightproc_calls ctx
  else
    let d1 :=
      mkD (last_timestamp d) (last_sync_timestamp d) (last_sync_length d)
          (last_sync_count d) (first_sync_timestamp d) (longest_sync_length d)
          (state d) (mod_offset d) (confidence d - penalty) (stabalize d)
          (failures d) (lastWasSync d) (sync_history d) (sync_offset d)
          (sweep_data d) in
    let c1 := with_data ctx so (fun _ => d1) in
    10 <= penalty /\
    disambiguator_data (so_at c1 so) = Some d1 /\
    o = and_then (PropagateState c1 so le)
          (fun c2 =>
             Done (with_data c2 so (fun d0 => set_last_timestamp d0 (timestamp le)))).
Proof.
  intros Hg Hd Hct Hstab Hst Hc timediff hz Hhz Ht Hp penalty o.
  assert (Hq : 1 <= timediff / hz).
  { apply Z.div_le_lower_bound; lia. }
  assert (Hpen : to_int (wrap_u32 (timediff / wrap_u32 hz * 10)) = penalty).
  { rewrite (wrap_u32_small hz) by lia. rewrite wrap_u32_small by lia.
    rewrite to_int_small by lia. unfold penalty. lia. }
  assert (E : o =
              if confidence d <? penalty then Done (fst (SetState ctx so LS_UNKNOWN))
              else and_then
                     (PropagateState
                        (with_data ctx so
                           (fun d0 => set_confidence d0 (to_int (confidence d0 - penalty))))
                        so le)
                     (fun c2 =>
                        Done (with_data c2 so
                                (fun d0 => set_last_timestamp d0 (timestamp le))))).
  { subst o. unfold DisambiguatorStateBased.
    destruct (Z.eqb_spec (sensor_ct (so_at ctx so)) 0) as [H | _]; [contradiction |].
    rewrite Hg. rewrite (with_obj_calloc_id ctx so d Hd).
    rewrite (data_of_some _ _ _ Hd).
    destruct (Z.ltb_spec (stabalize d) 200) as [H | _]; [lia |].
    destruct (Z.eqb_spec (state d) LS_UNKNOWN) as [H | _]; [contradiction |].
    fold hz. fold timediff. rewrite Hpen.
    rewrite (wrap_u32_small hz) by lia.
    destruct (Z.ltb_spec hz timediff) as [_ | H]; [| lia].
    reflexivity. }
  destruct (Z.ltb_spec (confidence d - penalty) 0) as [Hneg | Hpos].
  - destruct (Z.ltb_spec (confidence d) penalty) as [_ | H]; [| lia].
    split; [exact E |]. rewrite E. cbn [ctx_of].
    unfold data_of. rewrite (data_of_SetState _ _ _ _ Hd).
    rewrite state_SetState_data, confidence_SetState_data, SetState_calls.
    repeat split.
  - destruct (Z.ltb_spec (confidence d) penalty) as [H | _]; [lia |].
    cbv zeta. split; [unfold penalty; lia |].
    split; [exact (data_with_data_same ctx so (fun _ => _) d Hd) |].
    rewrite E. f_equal. f_equal. apply with_data_ext.
    intros d0 Hd0. rewrite Hd in Hd0. injection Hd0 as <-.
    unfold set_confidence. rewrite to_int_small by lia. reflexivity.
Qed.

(** ** The example streams *)

Lemma LE_wfb_sound (evs : list (nat * LightcapElement)) :
  forallb (fun e => LE_wfb (snd e)) evs = true ->
  Forall (fun e => LE_wf (snd e)) evs.
Proof.
  intros H. rewrite forallb_forall in H. apply Forall_forall.
  intros e He. specialize (H e He). unfold LE_wfb in H. unfold LE_wf.
  repeat (apply andb_prop in H; destruct H as [H ?]). lia.
Qed.

Lemma timecode_difference_spec_range (a b : Z) :
  0 <= timecode_difference_spec a b < 2 ^ 32.
Proof. apply wrap_u32_range. Qed.

Lemma silence_penalty_witness :
  state (data_of
           (ctx_of (DisambiguatorStateBased timecode_difference_spec
                      tracker_in_sync 0 late_pulse)) 0) = LS_UNKNOWN /\
  DisambiguatorStateBased timecode_difference_spec confident_in_sync 0 late_pulse
  = and_then
      (PropagateState
         (with_data confident_in_sync 0
            (fun _ => mkD 0 0 0 3 20010 3100 LS_WaitLHA_ACode0 [0; 0] (90 - 60) 200 0
                          false (repeat LE_zero 12) 0 [LE_zero; LE_zero]))
         0 late_pulse)
      (fun c2 =>
         Done (with_data c2 0
                 (fun d0 => set_last_timestamp d0 (timestamp late_pulse)))).
Proof.
  split.
  - pose proof (silence_penalty timecode_difference_spec tracker_in_sync 0
                  late_pulse (data_of tracker_in_sync 0) (mkG false)
                  eq_refl eq_refl) as H.
    assert (H1 : sensor_ct (so_at tracker_in_sync 0) <> 0) by (vm_compute; congruence).
    assert (H2 : 200 <= stabalize (data_of tracker_in_sync 0))
      by (vm_compute; congruence).
    assert (H3 : state (data_of tracker_in_sync 0) <> LS_UNKNOWN)
      by (vm_compute; congruence).
    assert (H4 : - 2 ^ 31 <= confidence (data_of tracker_in_sync 0) < 2 ^ 31)
      by (vm_compute; split; congruence).
    specialize (H H1 H2 H3 H4). cbv zeta in H.
    assert (H5 : 0 < timebase_hz (so_at tracker_in_sync 0) < 2 ^ 31)
      by (vm_compute; split; congruence).
    assert (H6 : timebase_hz (so_at tracker_in_sync 0)
                 < timecode_difference_spec (timestamp late_pulse)
                     (last_timestamp (data_of tracker_in_sync 0)) < 2 ^ 32)
      by (vm_compute; split; congruence).
    assert (H7 : 10 * (timecode_difference_spec (timestamp late_pulse)
                         (last_timestamp (data_of tracker_in_sync 0))
                       / timebase_hz (so_at tracker_in_sync 0)) < 2 ^ 31)
      by (vm_compute; congruence).
    specialize (H H5 H6 H7).
    lazymatch type of H with
    | if ?c then _ else _ =>
        replace c with true in H by (vm_compute; reflexivity)
    end.
    exact (proj1 (proj2 H)).
  - pose proof (silence_penalty timecode_difference_spec confident_in_sync 0
                  late_pulse (data_of confident_in_sync 0) (mkG false)
                  eq_refl eq_refl) as H.
    assert (H1 : sensor_ct (so_at confident_in_sync 0) <> 0)
      by (vm_compute; congruence).
    assert (H2 : 200 <= stabalize (data_of confident_in_sync 0))
      by (vm_compute; congruence).
    assert (H3 : state (data_of confident_in_sync 0) <> LS_UNKNOWN)
      by (vm_compute; congruence).
    assert (H4 : - 2 ^ 31 <= confidence (data_of confident_in_sync 0) < 2 ^ 31)
      by (vm_compute; split; congruence).
    specialize (H H1 H2 H3 H4). cbv zeta in H.
    assert (H5 : 0 < timebase_hz (so_at confident_in_sync 0) < 2 ^ 31)
      by (vm_compute; split; congruence).
    assert (H6 : timebase_hz (so_at confident_in_sync 0)
                 < timecode_difference_spec (timestamp late_pulse)
                     (last_timestamp (data_of confident_in_sync 0)) < 2 ^ 32)
      by (vm_compute; split; congruence).
    assert (H7 : 10 * (timecode_difference_spec (timestamp late_pulse)
                         (last_timestamp (data_of confident_in_sync 0))
                       / timebase_hz (so_at confident_in_sync 0)) < 2 ^ 31)
      by (vm_compute; congruence).
    specialize (H H5 H6 H7).
    lazymatch type of H with
    | if ?c then _ else _ =>
        replace c with false in H by (vm_compute; reflexivity)
    end.
    exact (proj2 (proj2 H)).
Defined.

Lemma state_below_LS_END_witness :
  state (data_of (run timecode_difference_spec one_object (dual_stream 0 14)) 0)
  = LS_UNKNOWN \/
  1 <= state (data_of (run timecode_difference_spec one_object (dual_stream 0 14)) 0)
    < LS_END.
Proof.
  apply (state_below_LS_END timecode_difference_spec [(1, 48000000)]
           (dual_stream 0 14) 0).
  - apply LE_wfb_sound. vm_compute. reflexivity.
  - vm_compute. reflexivity.
Defined.

(** C5, as stated, fails: in the stream [odd_lengths] the tracker emits a
    sync record of 1500 ticks and one of 7500 ticks. *)
Lemma sync_record_outside_2000_7000 :
  In (0%nat, mkCall (-1) 0 0 20220000 1500 0)
     (lightproc_calls (run timecode_difference_spec one_object odd_lengths)) /\
  In (0%nat, mkCall (-2) 7 0 20600000 7500 1)
     (lightproc_calls (run timecode_difference_spec one_object odd_lengths)).
Proof. vm_compute. tauto. Qed.

Lemma sync_records_bounded_witness :
  (lp_sensor_id (mkCall (-1) 0 0 20220000 1500 0) = -1 \/
   lp_sensor_id (mkCall (-1) 0 0 20220000 1500 0) = -2) /\
  1500 <= lp_length (mkCall (-1) 0 0 20220000 1500 0) <= 7500.
Proof.
  apply (sync_records_bounded timecode_difference_spec [(1, 48000000)]
           odd_lengths 0).
  - apply LE_wfb_sound. vm_compute. reflexivity.
  - vm_compute. tauto.
  - vm_compute. reflexivity.
Defined.

(** C2, as stated, fails: in the stream [lost_after_lock] the tracker
    locks with confidence 0 and the mismatching pulse that follows takes
    the confidence to -3. *)
Lemma confidence_below_zero :
  confidence (data_of (run timecode_difference_spec one_object (dual_stream 0 13)) 0)
  = 0 /\
  state (data_of (run timecode_difference_spec one_object (dual_stream 0 13)) 0)
  = LS_WaitLHA_ACode1 /\
  confidence (data_of (run timecode_difference_spec one_object lost_after_lock) 0)
  = -3.
Proof. vm_compute. repeat split. Qed.

Lemma confidence_at_most_100_witness :
  - 3 * Z.of_nat (List.length lost_after_lock)
  <= confidence (data_of (run timecode_difference_spec one_object lost_after_lock) 0)
  <= 100.
Proof.
  apply (confidence_at_most_100 timecode_difference_spec [(1, 48000000)]
           lost_after_lock 0).
  - apply timecode_difference_spec_range.
  - repeat constructor; simpl; lia.
  - vm_compute. congruence.
  - vm_compute. reflexivity.
Defined.

(** C4, as stated, fails: in the stream [three_locks] the first object
    sets the flag, the second object's lock clears it while the first is
    still locked, and the third object's lock sets it again; no object
    loses lock on the way. *)
Lemma mode_flag_set_twice :
  mode_flag three_objects = false /\ mode_flag after_first_lock = true /\
  mode_flag after_second_lock = false /\ mode_flag after_third_lock = true /\
  state (data_of after_third_lock 0) = LS_WaitLHA_ACode1 /\
  state (data_of after_third_lock 1) = LS_WaitLHA_ACode1 /\
  max_rises timecode_difference_spec three_objects three_locks 0 = 2%nat.
Proof. vm_compute. repeat split. Qed.

Lemma mode_flag_kept_by_locked_peer_witness :
  mode_flag (ctx_of (DisambiguatorStateBased timecode_difference_spec
                       one_of_two_locked 1 (mkLE 0 50 0)))
  = mode_flag one_of_two_locked.
Proof.
  apply (mode_flag_kept_by_locked_peer timecode_difference_spec _ 1%nat 0%nat).
  - congruence.
  - exists (data_of one_of_two_locked 0). split; [vm_compute; reflexivity |].
    split; vm_compute; congruence.
Defined.

(** * Further properties of the code *)

(** ** Pulse classifier *)

Lemma ACODE_TIMING_linear (a : Z) : 0 <= a <= 7 -> ACODE_TIMING a = 2750 + 500 * a.
Proof.
  intros H.
  assert (Hc : a = 0 \/ a = 1 \/ a = 2 \/ a = 3 \/ a = 4 \/ a = 5 \/ a = 6 \/ a = 7)
    by lia.
  repeat (destruct Hc as [Hc | Hc]); subst a; reflexivity.
Qed.

(** X1.  The nominal lengths are decoded back: a pulse whose length lies from
    200 ticks below to 300 ticks above the nominal length of acode [a]
    (0 to 7) is classified by [find_acode] as [a]. *)
Theorem find_acode_of_timing (a len : Z) :
  0 <= a <= 7 ->
  ACODE_TIMING a - 200 <= len < ACODE_TIMING a + 300 ->
  find_acode len = a.
Proof.
  intros Ha. rewrite (ACODE_TIMING_linear a Ha). intros Hl.
  unfold find_acode. cbv zeta.
  ltb_cases.
Qed.

Lemma find_acode_of_timing_witness : find_acode (ACODE_TIMING 5) = 5.
Proof.
  apply (find_acode_of_timing 5 (ACODE_TIMING 5)).
  - lia.
  - vm_compute. split; congruence.
Defined.

(** X2.  Whenever [find_acode] recognises a pulse (its result is not -1), the
    result is an acode from 0 to 7, the pulse is between 2550 and 6549
    ticks long, and [naive_classify] takes the pulse for a sync pulse. *)
Theorem find_acode_is_sync (le : LightcapElement) :
  find_acode (length le) <> -1 ->
  0 <= find_acode (length le) <= 7 /\
  2550 <= length le < 6550 /\
  naive_classify le = LCC_SYNC.
Proof.
  unfold find_acode, naive_classify, LOWER_SYNC_TIME, UPPER_SYNC_TIME. cbv zeta.
  intros H.
  assert (Hr : 2550 <= length le < 6550).
  { revert H. ltb_cases; intros H; try lia; congruence. }
  split; [| split; [exact Hr |]].
  - clear H. ltb_cases.
  - clear H. ltb_cases. reflexivity.
Qed.

Lemma find_acode_is_sync_witness :
  0 <= find_acode (length (mkLE 0 3000 0)) <= 7 /\
  2550 <= length (mkLE 0 3000 0) < 6550 /\
  naive_classify (mkLE 0 3000 0) = LCC_SYNC.
Proof.
  apply (find_acode_is_sync (mkLE 0 3000 0)). vm_compute. congruence.
Defined.

(** X3.  For a 16-bit pulse length, [calculate_error] against the acode of
    phase [s] is at most 1250, the limit of [RunACodeCapture], exactly
    when the length lies from 1250 ticks below to 2250 ticks above the
    nominal length of that acode: the window is not symmetric, because
    the error is taken against the nearer of the nominal length and the
    nominal length with the data bit. *)
Theorem acceptance_window (s : Z) (le : LightcapElement) :
  0 <= length le < 2 ^ 16 ->
  (calculate_error (LSParam_acode s) le <= 1250 <->
   ACODE_TIMING (LSParam_acode s) - 1250 <= length le
   <= ACODE_TIMING (LSParam_acode s) + 2250).
Proof.
  intros Hl. unfold calculate_error.
  destruct (acode_of_table s) as [E | [E | [E | E]]]; rewrite E;
    match goal with
    | |- context [ACODE_TIMING (Z.lor ?a DATA_BIT)] =>
        let v := eval vm_compute in (ACODE_TIMING (Z.lor a DATA_BIT)) in
        change (ACODE_TIMING (Z.lor a DATA_BIT)) with v;
        let w := eval vm_compute in (ACODE_TIMING a) in
        change (ACODE_TIMING a) with w
    end;
    rewrite !wrap_u32_small by lia;
    match goal with
    | |- context [?a <? ?b] => destruct (Z.ltb_spec a b)
    end; lia.
Qed.

Lemma acceptance_window_witness :
  calculate_error (LSParam_acode 2) (mkLE 0 1500 0) <= 1250.
Proof.
  apply (acceptance_window 2 (mkLE 0 1500 0)).
  - simpl. lia.
  - vm_compute. split; congruence.
Defined.

(** X4.  For an offset inside the cycle of 1600000 ticks, the error that
    [LighthouseState_findByOffset] reports is the distance of the offset
    from the start of the phase it returns, and when that phase is a sync
    phase the distance is at most 10000 ticks. *)
Theorem findByOffset_error (offset : Z) :
  0 <= offset < 1600000 ->
  snd (LighthouseState_findByOffset offset)
  = Z.abs (offset - LSParam_offset_for_state (fst (LighthouseState_findByOffset offset)))
  /\ (is_sweep (LS_Params_at (fst (LighthouseState_findByOffset offset))) = false ->
      snd (LighthouseState_findByOffset offset) <= 10000).
Proof.
  intros H.
  set (P := fun r : Z * Z =>
              snd r = Z.abs (offset - LSParam_offset_for_state (fst r)) /\
              (is_sweep (LS_Params_at (fst r)) = false -> snd r <= 10000)).
  change (P (LighthouseState_findByOffset offset)).
  cbv [LighthouseState_findByOffset findByOffset_from].
  table_values.
  ltb_cases; cbn [andb]; ltb_cases; subst P; cbv beta; cbn [fst snd];
    table_values; (split; [lia | intros Hs; first [discriminate Hs | lia]]).
Qed.

(** ** More on the modular offset *)

Lemma cycle_lengths (e : Z) :
  e = LS_END \/ e = LS_WaitLHB_ACode0 ->
  LSParam_offset_for_state e = 1600000 \/ LSParam_offset_for_state e = 800000.
Proof. intros [-> | ->]; [left | right]; reflexivity. Qed.

Lemma apply_mod_offset_value (t m e : Z) :
  0 <= t < 2 ^ 32 -> 0 <= m < 2 ^ 32 ->
  0 < LSParam_offset_for_state e < 2 ^ 31 ->
  m - t <= 2 ^ 31 - 1 ->
  apply_mod_offset t m e = (t - m) mod LSParam_offset_for_state e.
Proof.
  intros Ht Hm Hg Hnear. unfold apply_mod_offset.
  set (g := LSParam_offset_for_state e) in *.
  rewrite (wrap_u32_small g) by lia.
  change (0xFFFFFFFF / 2) with 2147483647.
  destruct (Z.ltb_spec m t) as [Hlt | Hge].
  - rewrite wrap_u32_small by lia. reflexivity.
  - rewrite (wrap_u32_small (m - t)) by lia.
    destruct (Z.ltb_spec 2147483647 (m - t)) as [Hfar | _]; [lia |].
    pose proof (Z.mod_pos_bound t g ltac:(lia)) as Htg.
    pose proof (Z.mod_pos_bound m g ltac:(lia)) as Hmg.
    rewrite (to_int_small (t mod g)) by lia.
    rewrite (to_int_small (m mod g)) by lia.
    rewrite (to_int_small (t mod g - m mod g)) by lia.
    rewrite (proj2 (Z.rem_small_iff (t mod g - m mod g) g ltac:(lia))) by lia.
    rewrite Zminus_mod.
    destruct (Z.ltb_spec (t mod g - m mod g) 0) as [Hneg | Hpos].
    + rewrite to_int_small by lia. rewrite wrap_u32_small by lia.
      apply (Z.mod_unique _ _ (-1)); lia.
    + rewrite wrap_u32_small by lia. symmetry. apply Z.mod_small. lia.
Qed.

(** X5.  Away from the rollover branch, that is when the anchor [m] is not
    more than 2^31 - 1 ticks ahead of the timestamp [t], [apply_mod_offset]
    is the mathematical remainder of [t - m] by the cycle length, for
    either end state. *)
Theorem apply_mod_offset_is_modulo (t m e : Z) :
  0 <= t < 2 ^ 32 -> 0 <= m < 2 ^ 32 ->
  e = LS_END \/ e = LS_WaitLHB_ACode0 ->
  m - t <= 2 ^ 31 - 1 ->
  apply_mod_offset t m e = (t - m) mod LSParam_offset_for_state e.
Proof.
  intros Ht Hm He Hnear. apply apply_mod_offset_value; auto.
  destruct (cycle_lengths e He) as [-> | ->]; lia.
Qed.

Lemma apply_mod_offset_is_modulo_witness :
  apply_mod_offset 1000000 2600000 LS_END
  = (1000000 - 2600000) mod LSParam_offset_for_state LS_END.
Proof.
  apply (apply_mod_offset_is_modulo 1000000 2600000 LS_END);
    first [lia | left; reflexivity].
Defined.

(** X6.  Away from the rollover branch, a timestamp moved forward by whole
    cycles (without leaving the 32-bit range) has the same offset in the
    cycle. *)
Theorem apply_mod_offset_periodic (t m e k : Z) :
  0 <= t -> 0 <= k -> t + k * LSParam_offset_for_state e < 2 ^ 32 ->
  0 <= m < 2 ^ 32 ->
  e = LS_END \/ e = LS_WaitLHB_ACode0 ->
  m - t <= 2 ^ 31 - 1 ->
  apply_mod_offset (t + k * LSParam_offset_for_state e) m e = apply_mod_offset t m e.
Proof.
  intros Ht Hk Htk Hm He Hnear.
  assert (Hg : 0 < LSParam_offset_for_state e < 2 ^ 31)
    by (destruct (cycle_lengths e He) as [-> | ->]; lia).
  rewrite !apply_mod_offset_value; auto; try nia.
  replace (t + k * LSParam_offset_for_state e - m)
    with (t - m + k * LSParam_offset_for_state e) by lia.
  apply Z.mod_add. lia.
Qed.

Lemma apply_mod_offset_periodic_witness :
  apply_mod_offset (100 + 3 * LSParam_offset_for_state LS_END) 500 LS_END
  = apply_mod_offset 100 500 LS_END.
Proof.
  apply (apply_mod_offset_periodic 100 500 LS_END 3);
    first [lia | left; reflexivity | vm_compute; reflexivity].
Defined.

(** X7.  For either end state and all arguments, the result of
    [apply_mod_offset] lies inside the cycle: it is at least 0 and below
    the cycle length. *)
Theorem apply_mod_offset_in_cycle (t m e : Z) :
  e = LS_END \/ e = LS_WaitLHB_ACode0 ->
  0 <= apply_mod_offset t m e < LSParam_offset_for_state e.
Proof.
  intros He. apply apply_mod_offset_range.
  destruct (cycle_lengths e He) as [-> | ->]; lia.
Qed.

Lemma apply_mod_offset_in_cycle_witness :
  0 <= apply_mod_offset 0x100 0xFFFFFF00 LS_END < LSParam_offset_for_state LS_END.
Proof.
  apply (apply_mod_offset_in_cycle 0x100 0xFFFFFF00 LS_END). left. reflexivity.
Defined.

(** X8.  Anchoring is undone by the offset: with the anchor that
    [SolveForMod_Offset] computes from a sync pulse taken to start phase
    [g], [apply_mod_offset] maps the pulse's timestamp to the start of
    phase [g], which [LighthouseState_findByOffset] maps back to [g] with
    error 0.  The timestamp must be at least the start of the phase, and
    in the 60 Hz cycle the phase must belong to the first lighthouse. *)
Theorem anchor_round_trip (g e : Z) (le : LightcapElement) :
  1 <= g <= 12 -> is_sweep (LS_Params_at g) = false ->
  e = LS_END \/ (e = LS_WaitLHB_ACode0 /\ g < LS_WaitLHB_ACode0) ->
  LSParam_offset_for_state g <= timestamp le < 2 ^ 32 ->
  apply_mod_offset (timestamp le) (SolveForMod_Offset g le) e
  = LSParam_offset_for_state g /\
  LighthouseState_findByOffset (LSParam_offset_for_state g) = (g, 0).
Proof.
  intros Hg Hs He Ht.
  assert (Hc : g = 1 \/ g = 2 \/ g = 3 \/ g = 4 \/ g = 5 \/ g = 6 \/ g = 7 \/
               g = 8 \/ g = 9 \/ g = 10 \/ g = 11 \/ g = 12) by lia.
  split.
  - unfold SolveForMod_Offset.
    assert (Ho : 0 <= LSParam_offset_for_state g < LSParam_offset_for_state e).
    { destruct He as [-> | [-> Hlt]]; unfold LS_WaitLHB_ACode0 in *;
        repeat (destruct Hc as [Hc | Hc]); subst g; try lia;
        vm_compute; split; congruence. }
    assert (Hge : 0 < LSParam_offset_for_state e < 2 ^ 31).
    { destruct He as [-> | [-> _]]; vm_compute; split; congruence. }
    rewrite (wrap_u32_small (timestamp le - LSParam_offset_for_state g)) by lia.
    rewrite apply_mod_offset_value by lia.
    replace (timestamp le - (timestamp le - LSParam_offset_for_state g))
      with (LSParam_offset_for_state g) by lia.
    apply Z.mod_small. lia.
  - repeat (destruct Hc as [Hc | Hc]); subst g; try discriminate Hs; reflexivity.
Qed.

Lemma anchor_round_trip_witness :
  apply_mod_offset (timestamp (mkLE 0 3250 3020000))
    (SolveForMod_Offset 5 (mkLE 0 3250 3020000)) LS_END
  = LSParam_offset_for_state 5 /\
  LighthouseState_findByOffset (LSParam_offset_for_state 5) = (5, 0).
Proof.
  apply (anchor_round_trip 5 LS_END (mkLE 0 3250 3020000)).
  - lia.
  - reflexivity.
  - left. reflexivity.
  - vm_compute. split; congruence.
Defined.

(** ** Sync aggregator *)

Lemma RegisterSync_fields d le :
  first_sync_timestamp (RegisterSync d le)
  = (if (timestamp le <? first_sync_timestamp d) || (longest_sync_length d =? 0)
     then timestamp le else first_sync_timestamp d) /\
  longest_sync_length (RegisterSync d le)
  = (if longest_sync_length d <? length le then length le else longest_sync_length d) /\
  last_sync_count (RegisterSync d le) = to_int (last_sync_count d + 1).
Proof. repeat split. Qed.

(** X9.  After [ResetSync], registering a non-empty list of pulses of
    positive length leaves in the aggregator the smallest timestamp, the
    greatest length and the number of the pulses. *)
Theorem RegisterSync_aggregates (d : Disambiguator_data_t) (les : list LightcapElement) :
  les <> [] ->
  Forall (fun le => 0 < length le) les ->
  Z.of_nat (List.length les) < 2 ^ 31 ->
  (forall le, In le les ->
     first_sync_timestamp (fold_left RegisterSync les (ResetSync d)) <= timestamp le /\
     length le <= longest_sync_length (fold_left RegisterSync les (ResetSync d))) /\
  (exists le, In le les /\
     timestamp le = first_sync_timestamp (fold_left RegisterSync les (ResetSync d))) /\
  (exists le, In le les /\
     length le = longest_sync_length (fold_left RegisterSync les (ResetSync d))) /\
  last_sync_count (fold_left RegisterSync les (ResetSync d)) = Z.of_nat (List.length les).
Proof.
  induction les as [| x l IH] using rev_ind; [congruence |].
  intros _ Hpos Hlen.
  apply Forall_app in Hpos. destruct Hpos as [Hl Hx].
  inversion Hx as [| ? ? Hx0 _]; subst. clear Hx.
  rewrite length_app in Hlen. cbn [List.length] in Hlen.
  rewrite fold_left_app. cbn [fold_left].
  destruct (RegisterSync_fields (fold_left RegisterSync l (ResetSync d)) x)
    as (Ef & El & Ec).
  rewrite Ef, El, Ec. clear Ef El Ec.
  rewrite length_app. cbn [List.length].
  destruct l as [| y l'].
  - cbn [fold_left ResetSync set_sync_registers first_sync_timestamp
         longest_sync_length last_sync_count app].
    rewrite Z.eqb_refl, orb_true_r.
    destruct (Z.ltb_spec 0 (length x)) as [_ | H]; [| lia].
    split; [| split; [| split]].
    + intros le0 [<- | []]. lia.
    + exists x. split; [left |]; reflexivity.
    + exists x. split; [left |]; reflexivity.
    + reflexivity.
  - destruct (IH ltac:(discriminate) Hl ltac:(lia))
      as (Hall & (lm & Hlm & Em) & (lx & Hlx & Ex) & Hc).
    set (d1 := fold_left RegisterSync (y :: l') (ResetSync d)) in *.
    assert (Hlong : 0 < longest_sync_length d1).
    { rewrite <- Ex. rewrite Forall_forall in Hl. now apply Hl. }
    destruct (Z.eqb_spec (longest_sync_length d1) 0) as [H0 | _]; [lia |].
    rewrite orb_false_r. rewrite Hc.
    rewrite to_int_small by lia.
    split; [| split; [| split]].
    + intros le0 Hin. apply in_app_or in Hin. destruct Hin as [Hin | [<- | []]].
      * destruct (Hall le0 Hin) as [Ha Hb].
        destruct (Z.ltb_spec (timestamp x) (first_sync_timestamp d1));
          destruct (Z.ltb_spec (longest_sync_length d1) (length x)); lia.
      * destruct (Z.ltb_spec (timestamp x) (first_sync_timestamp d1));
          destruct (Z.ltb_spec (longest_sync_length d1) (length x)); lia.
    + destruct (timestamp x <? first_sync_timestamp d1).
      * exists x. split; [apply in_or_app; right; left |]; reflexivity.
      * exists lm. split; [apply in_or_app; left; exact Hlm | exact Em].
    + destruct (longest_sync_length d1 <? length x).
      * exists x. split; [apply in_or_app; right; left |]; reflexivity.
      * exists lx. split; [apply in_or_app; left; exact Hlx | exact Ex].
    + lia.
Qed.

(** ** Sync history ring *)

Lemma nth_store_other {A : Type} (n m : nat) (v : A) (l : list A) (x : A) :
  n <> m -> nth m (store n v l) x = nth m l x.
Proof.
  revert n m. induction l as [| y l IH]; intros [| n] [| m] H; simpl; auto.
  congruence.
Qed.

(** X10.  With a ring of 12 entries and a write index inside it, a pulse of
    non-zero length added by [AddSyncHistory] is the entry that
    [find_relative_offset] reads next (the one before the new write
    index); the ring keeps its size, the write index stays inside it, and
    every other entry is unchanged. *)
Theorem AddSyncHistory_latest (d : Disambiguator_data_t) (sync : LightcapElement) :
  List.length (sync_history d) = 12%nat ->
  0 <= sync_offset d < SYNC_HISTORY_LEN ->
  length sync <> 0 ->
  nth (Z.to_nat (Z.rem (sync_offset (AddSyncHistory d sync) + (SYNC_HISTORY_LEN - 1))
                       SYNC_HISTORY_LEN))
      (sync_history (AddSyncHistory d sync)) LE_zero = sync /\
  List.length (sync_history (AddSyncHistory d sync)) = 12%nat /\
  0 <= sync_offset (AddSyncHistory d sync) < SYNC_HISTORY_LEN /\
  forall i, i <> Z.to_nat (sync_offset d) ->
    nth i (sync_history (AddSyncHistory d sync)) LE_zero
    = nth i (sync_history d) LE_zero.
Proof.
  unfold SYNC_HISTORY_LEN. intros Hlen Hoff Hne.
  unfold AddSyncHistory.
  destruct (Z.eqb_spec (length sync) 0) as [H | _]; [contradiction |].
  cbn [negb sync_history sync_offset set_sync_history]. unfold SYNC_HISTORY_LEN.
  assert (Hidx : Z.rem ((if 12 <=? sync_offset d + 1 then 0 else sync_offset d + 1)
                        + (12 - 1)) 12 = sync_offset d).
  { assert (Hc : sync_offset d = 0 \/ sync_offset d = 1 \/ sync_offset d = 2 \/
                 sync_offset d = 3 \/ sync_offset d = 4 \/ sync_offset d = 5 \/
                 sync_offset d = 6 \/ sync_offset d = 7 \/ sync_offset d = 8 \/
                 sync_offset d = 9 \/ sync_offset d = 10 \/ sync_offset d = 11) by lia.
    repeat (destruct Hc as [Hc | Hc]); rewrite Hc; reflexivity. }
  rewrite Hidx. repeat split.
  - apply nth_store_same. lia.
  - now rewrite store_length.
  - destruct (Z.leb_spec 12 (sync_offset d + 1)); lia.
  - destruct (Z.leb_spec 12 (sync_offset d + 1)); lia.
  - intros i Hi. apply nth_store_other. congruence.
Qed.

(** ** Lock-finder *)

Lemma find_inliers_from_bound h gm t acc :
  find_inliers_from h gm t acc <= acc + Z.of_nat (List.length h) /\
  ((exists e, In e h /\ length e <= 0) ->
   find_inliers_from h gm t acc <= acc + Z.of_nat (List.length h) - 1).
Proof.
  revert acc. induction h as [| le h IH]; intros acc.
  - simpl. split; [lia |]. intros (e & [] & _).
  - cbn [find_inliers_from List.length].
    destruct (Z.ltb_spec 0 (length le)) as [Hpos | Hz]; [| split; intros; lia].
    destruct (LighthouseState_findByOffset _) as [st err].
    assert (Hcase : forall a, acc <= a <= acc + 1 ->
              find_inliers_from h gm t a <= acc + Z.of_nat (S (List.length h)) /\
              ((exists e, In e (le :: h) /\ length e <= 0) ->
               find_inliers_from h gm t a <= acc + Z.of_nat (S (List.length h)) - 1)).
    { intros a Ha. destruct (IH a) as [I1 I2]. split; [lia |].
      intros (e & [<- | He] & Hl); [lia |].
      specialize (I2 (ex_intro _ e (conj He Hl))). lia. }
    destruct (is_sweep _); [apply Hcase; lia |].
    destruct (_ && t); [apply Hcase; lia |].
    destruct (_ && _); apply Hcase; lia.
Qed.

Lemma find_mode_from_none fuel t limit best flag d gm :
  (forall b, find_inliers d gm b <= SYNC_HISTORY_LEN - 1) ->
  find_mode_from fuel t limit best flag d gm = None.
Proof.
  intros H. revert t. induction fuel as [| fuel IH]; intros t; cbn [find_mode_from];
    [reflexivity |].
  destruct (t <? limit); [| reflexivity].
  destruct (_ && _); [apply IH |].
  destruct (Z.ltb_spec (SYNC_HISTORY_LEN - 1) (find_inliers d gm (negb (t =? 0))))
    as [Hlt | _]; [| apply IH].
  specialize (H (negb (t =? 0))). lia.
Qed.

Lemma find_guess_from_none fuel guess best flag d re ac :
  (forall gm b, find_inliers d gm b <= SYNC_HISTORY_LEN - 1) ->
  find_guess_from fuel guess best flag d re ac = (LS_UNKNOWN, 0, false).
Proof.
  intros H. revert guess.
  induction fuel as [| fuel IH]; intros guess; cbn [find_guess_from]; [reflexivity |].
  destruct (guess =? LS_END); [reflexivity |].
  destruct (_ && _); [| apply IH].
  rewrite find_mode_from_none by (intros b; apply H). apply IH.
Qed.

(** X11.  While the history ring holds an entry of length 0 (it has not been
    filled since the last reset), [find_relative_offset] finds no lock: it
    returns [LS_UNKNOWN]. *)
Theorem no_lock_without_full_history (ctx : SurviveContext) (so : nat) :
  (List.length (sync_history (data_of ctx so)) <= 12)%nat ->
  (exists e, In e (sync_history (data_of ctx so)) /\ length e <= 0) ->
  find_relative_offset ctx so = (LS_UNKNOWN, 0, false).
Proof.
  intros Hlen Hempty. unfold find_relative_offset.
  apply find_guess_from_none. intros gm b. unfold find_inliers, SYNC_HISTORY_LEN.
  destruct (find_inliers_from_bound (sync_history (data_of ctx so)) gm b 0) as [_ H].
  specialize (H Hempty). lia.
Qed.

Lemma find_mode_from_spec fuel t limit best flag d gm t' :
  find_mode_from fuel t limit best flag d gm = Some t' ->
  t <= t' < limit /\ SYNC_HISTORY_LEN - 1 < find_inliers d gm (negb (t' =? 0)).
Proof.
  revert t. induction fuel as [| fuel IH]; intros t; cbn [find_mode_from];
    [discriminate |].
  destruct (Z.ltb_spec t limit) as [Hlt | _]; [| discriminate].
  assert (Hrec : find_mode_from fuel (t + 1) limit best flag d gm = Some t' ->
                 t <= t' < limit /\
                 SYNC_HISTORY_LEN - 1 < find_inliers d gm (negb (t' =? 0))).
  { intros E. destruct (IH _ E). split; [lia | assumption]. }
  destruct (_ && _); [exact Hrec |].
  destruct (Z.ltb_spec (SYNC_HISTORY_LEN - 1) (find_inliers d gm (negb (t =? 0))))
    as [Hin | _]; [| exact Hrec].
  intros E. injection E as <-. split; [lia | exact Hin].
Qed.

Lemma find_guess_from_spec fuel guess best flag d re ac s m is60 :
  guess <= LS_END ->
  find_guess_from fuel guess best flag d re ac = (s, m, is60) ->
  s <> LS_UNKNOWN ->
  guess <= s < LS_END /\
  is_sweep (LS_Params_at s) = false /\
  LSParam_acode s = ac /\
  m = SolveForMod_Offset s re /\
  SYNC_HISTORY_LEN - 1 < find_inliers d m is60 /\
  (is60 = true -> s < LS_WaitLHB_ACode0).
Proof.
  revert guess. induction fuel as [| fuel IH]; intros guess Hg; cbn [find_guess_from].
  - intros E. injection E as <- _ _. congruence.
  - destruct (Z.eqb_spec guess LS_END) as [He | Hne].
    { intros E. injection E as <- _ _. congruence. }
    assert (Hrec : find_guess_from fuel (guess + 1) best flag d re ac = (s, m, is60) ->
                   s <> LS_UNKNOWN ->
                   guess <= s < LS_END /\
                   is_sweep (LS_Params_at s) = false /\
                   LSParam_acode s = ac /\
                   m = SolveForMod_Offset s re /\
                   SYNC_HISTORY_LEN - 1 < find_inliers d m is60 /\
                   (is60 = true -> s < LS_WaitLHB_ACode0)).
    { intros E Hs. destruct (IH (guess + 1) ltac:(lia) E Hs) as (H1 & H2).
      split; [lia | exact H2]. }
    destruct (Z.eqb_spec (LSParam_acode guess) ac) as [Hac | _]; cbn [andb];
      [| exact Hrec].
    destruct (is_sweep (LS_Params_at guess)) eqn:Hsw; cbn [negb]; [exact Hrec |].
    match goal with
    | |- context [match ?x with Some _ => _ | None => _ end] =>
        destruct x as [t' |] eqn:Em; [| exact Hrec]
    end.
    intros E Hs. injection E as <- <- <-.
    apply find_mode_from_spec in Em. destruct Em as [Ht Hin].
    assert (Ht' : t' = 0 \/ (t' = 1 /\ guess < LS_WaitLHB_ACode0)).
    { destruct (Z.leb_spec LS_WaitLHB_ACode0 guess); lia. }
    repeat split; auto; try lia.
    all: destruct Ht' as [-> | [-> Hlt]];
      first [exact Hin | discriminate | (intros _; exact Hlt)].
Qed.

(** X12.  When [find_relative_offset] returns a phase other than [LS_UNKNOWN],
    the phase is a sync phase between 1 and 12 whose acode equals the
    acode of the latest history entry without its data bit, the
    anchor is the one [SolveForMod_Offset] computes for that phase and
    entry, more than 11 history entries are inliers for that anchor, and
    in 60 Hz mode the phase belongs to the first lighthouse. *)
Theorem lock_finder_result (ctx : SurviveContext) (so : nat) (s m : Z) (is60 : bool) :
  find_relative_offset ctx so = (s, m, is60) ->
  s <> LS_UNKNOWN ->
  1 <= s < LS_END /\
  is_sweep (LS_Params_at s) = false /\
  LSParam_acode s
  = Z.land (find_acode
              (length (nth (Z.to_nat (Z.rem (sync_offset (data_of ctx so)
                                               + (SYNC_HISTORY_LEN - 1))
                                            SYNC_HISTORY_LEN))
                           (sync_history (data_of ctx so)) LE_zero))) 5 /\
  m = SolveForMod_Offset s
        (nth (Z.to_nat (Z.rem (sync_offset (data_of ctx so) + (SYNC_HISTORY_LEN - 1))
                              SYNC_HISTORY_LEN))
             (sync_history (data_of ctx so)) LE_zero) /\
  SYNC_HISTORY_LEN - 1 < find_inliers (data_of ctx so) m is60 /\
  (is60 = true -> s < LS_WaitLHB_ACode0).
Proof.
  unfold find_relative_offset. intros E Hs.
  apply find_guess_from_spec in E; [| unfold LS_UNKNOWN, LS_END; lia | exact Hs].
  unfold LS_UNKNOWN in E at 1. exact E.
Qed.

(** ** The best latest state *)

Lemma best_latest_from_spec (os pre : list SurviveObject) (mx : Z) (best : option nat) :
  (best = None /\ mx = 0 \/
   exists b d, best = Some b /\ (b < List.length pre)%nat /\
               disambiguator_data (nth b pre (mkSO 0 0 None)) = Some d /\
               state d <> LS_UNKNOWN /\ confidence d = mx /\ 0 < mx) ->
  (forall k d, (k < List.length pre)%nat ->
               disambiguator_data (nth k pre (mkSO 0 0 None)) = Some d ->
               state d <> LS_UNKNOWN -> confidence d <= mx) ->
  match best_latest_from os (List.length pre) mx best with
  | None =>
      forall k d, disambiguator_data (nth k (pre ++ os) (mkSO 0 0 None)) = Some d ->
                  state d <> LS_UNKNOWN -> confidence d <= 0
  | Some b =>
      exists d, disambiguator_data (nth b (pre ++ os) (mkSO 0 0 None)) = Some d /\
                state d <> LS_UNKNOWN /\ 0 < confidence d /\
                forall k d', disambiguator_data (nth k (pre ++ os) (mkSO 0 0 None)) = Some d' ->
                             state d' <> LS_UNKNOWN -> confidence d' <= confidence d
  end.
Proof.
  revert pre mx best. induction os as [| o os IH]; intros pre mx best Hbest Hmax.
  - cbn [best_latest_from]. rewrite app_nil_r.
    assert (Hall : forall k d, disambiguator_data (nth k pre (mkSO 0 0 None)) = Some d ->
                               state d <> LS_UNKNOWN -> confidence d <= mx).
    { intros k d Hd Hs. destruct (Nat.lt_ge_cases k (List.length pre)) as [Hk | Hk].
      - now apply (Hmax k).
      - rewrite nth_overflow in Hd by exact Hk. discriminate. }
    destruct Hbest as [[-> ->] | (b & d & -> & Hb & Hd & Hs & Hc & Hpos)].
    + exact Hall.
    + exists d. repeat split; auto; try lia.
      intros k d' Hd' Hs'. specialize (Hall k d' Hd' Hs'). lia.
  - cbn [best_latest_from].
    replace (pre ++ o :: os) with ((pre ++ [o]) ++ os) by (now rewrite <- app_assoc).
    replace (S (List.length pre)) with (List.length (pre ++ [o]))
      by (rewrite length_app; simpl; lia).
    assert (Hnth : forall k, (k < List.length pre)%nat ->
              nth k (pre ++ [o]) (mkSO 0 0 None) = nth k pre (mkSO 0 0 None))
      by (intros k Hk; now apply app_nth1).
    assert (Hlast : nth (List.length pre) (pre ++ [o]) (mkSO 0 0 None) = o)
      by (rewrite app_nth2 by lia; now rewrite Nat.sub_diag).
    assert (Hk' : forall k, (k < List.length (pre ++ [o]))%nat ->
              (k < List.length pre)%nat \/ k = List.length pre)
      by (intros k; rewrite length_app; simpl; lia).
    destruct (disambiguator_data o) as [d0 |] eqn:Ed.
    + destruct (negb (state d0 =? LS_UNKNOWN) && (mx <? confidence d0)) eqn:Et.
      * apply andb_prop in Et. destruct Et as [Es Ec].
        apply negb_true_iff in Es. apply Z.eqb_neq in Es. apply Z.ltb_lt in Ec.
        assert (Hmx : 0 <= mx).
        { destruct Hbest as [[_ ->] | (b & d & _ & _ & _ & _ & _ & Hp)]; lia. }
        apply IH.
        -- right. exists (List.length pre), d0. rewrite Hlast.
           repeat split; auto; try lia. rewrite length_app. simpl. lia.
        -- intros k d Hk Hd Hs. destruct (Hk' k Hk) as [Hlt | ->].
           ++ rewrite Hnth in Hd by exact Hlt. specialize (Hmax k d Hlt Hd Hs). lia.
           ++ rewrite Hlast in Hd. rewrite Ed in Hd. injection Hd as <-. lia.
      * apply IH.
        -- destruct Hbest as [H | (b & d & Eb & Hb & Hd & Hs & Hc & Hpos)]; [now left |].
           right. exists b, d. rewrite Hnth by exact Hb.
           repeat split; auto. rewrite length_app. simpl. lia.
        -- intros k d Hk Hd Hs. destruct (Hk' k Hk) as [Hlt | ->].
           ++ rewrite Hnth in Hd by exact Hlt. now apply (Hmax k).
           ++ rewrite Hlast in Hd. rewrite Ed in Hd. injection Hd as <-.
              apply andb_false_iff in Et. destruct Et as [Et | Et].
              ** apply negb_false_iff in Et. apply Z.eqb_eq in Et. contradiction.
              ** apply Z.ltb_ge in Et. exact Et.
    + apply IH.
      * destruct Hbest as [H | (b & d & Eb & Hb & Hd & Hs & Hc & Hpos)]; [now left |].
        right. exists b, d. rewrite Hnth by exact Hb.
        repeat split; auto. rewrite length_app. simpl. lia.
      * intros k d Hk Hd Hs. destruct (Hk' k Hk) as [Hlt | ->].
        -- rewrite Hnth in Hd by exact Hlt. now apply (Hmax k).
        -- rewrite Hlast in Hd. congruence.
Qed.

Lemma get_best_latest_state_char (ctx : SurviveContext) :
  match get_best_latest_state ctx with
  | None => forall j, ~ locked_peer ctx j
  | Some i =>
      locked_peer ctx i /\
      forall j d, disambiguator_data (so_at ctx j) = Some d ->
                  state d <> LS_UNKNOWN ->
                  confidence d <= confidence (data_of ctx i)
  end.
Proof.
  unfold get_best_latest_state.
  pose proof (best_latest_from_spec (objs ctx) [] 0 None) as H.
  cbn [List.length app] in H.
  specialize (H (or_introl (conj eq_refl eq_refl))).
  specialize (H ltac:(intros k d Hk; inversion Hk)).
  destruct (best_latest_from (objs ctx) 0 0 None) as [i |].
  - destruct H as (d & Hd & Hs & Hc & Hmax). split.
    + exists d. auto.
    + intros j d' Hd' Hs'. unfold data_of, so_at. rewrite Hd. now apply (Hmax j).
  - intros j (d & Hd & Hs & Hc). specialize (H j d Hd Hs). lia.
Qed.

(** X13.  [get_best_latest_state] returns an object that is locked with
    positive confidence and whose confidence no locked object exceeds; it
    returns no object exactly when no object is locked with positive
    confidence. *)
Theorem get_best_latest_state_is_argmax (ctx : SurviveContext) :
  match get_best_latest_state ctx with
  | None => forall j, ~ locked_peer ctx j
  | Some i =>
      locked_peer ctx i /\
      forall j d, disambiguator_data (so_at ctx j) = Some d ->
                  state d <> LS_UNKNOWN ->
                  confidence d <= confidence (data_of ctx i)
  end.
Proof. exact (get_best_latest_state_char ctx). Qed.

(** X14.  When an object is set to [LS_UNKNOWN] and no other object is locked
    with positive confidence, the 60 Hz mode flag of the context is
    cleared. *)
Theorem last_unlock_clears_mode_flag (ctx : SurviveContext) (so : nat) :
  (forall j, j <> so -> ~ locked_peer ctx j) ->
  mode_flag (fst (SetState ctx so LS_UNKNOWN)) = false.
Proof.
  intros Hothers. unfold SetState. cbn [fst].
  change (if LS_END <=? LS_UNKNOWN then 1 else LS_UNKNOWN) with LS_UNKNOWN.
  rewrite Z.eqb_refl. cbn [andb].
  match goal with
  | |- context [get_best_latest_state ?c] =>
      pose proof (get_best_latest_state_char c) as Hb;
      destruct (get_best_latest_state c) as [i |]
  end; [| reflexivity].
  exfalso. destruct Hb as [(d & Hd & Hs & Hc) _].
  rewrite with_data_twice in Hd.
  destruct (Nat.eq_dec so i) as [<- | Hne].
  - rewrite so_at_with_data_same in Hd. unfold map_data in Hd. simpl in Hd.
    destruct (disambiguator_data (so_at ctx so)); [| discriminate].
    injection Hd as <-. apply Hs. reflexivity.
  - rewrite so_at_with_data_other in Hd by exact Hne.
    apply (Hothers i ltac:(congruence)). exists d. auto.
Qed.

(** ** A lock at 60 Hz *)

Lemma find_inliers_from_all h gm t acc :
  acc + Z.of_nat (List.length h) <= find_inliers_from h gm t acc ->
  Forall (fun le => is_inlier gm t le = true) h.
Proof.
  revert acc. induction h as [| le h IH]; intros acc H; [constructor |].
  cbn [find_inliers_from List.length] in H.
  assert (Hb : forall a, find_inliers_from h gm t a <= a + Z.of_nat (List.length h))
    by (intros a; apply find_inliers_from_bound).
  enough (Hboth : is_inlier gm t le = true /\
                  acc + 1 + Z.of_nat (List.length h)
                  <= find_inliers_from h gm t (acc + 1))
    by (destruct Hboth as [H1 H2]; constructor; [exact H1 | exact (IH _ H2)]).
  destruct (Z.ltb_spec 0 (length le)) as [Hpos | Hz]; [| lia].
  unfold is_inlier. cbv zeta.
  destruct (LighthouseState_findByOffset _) as [st err]. cbn [fst snd].
  destruct (is_sweep (LS_Params_at st)); [specialize (Hb acc); lia |].
  destruct (negb (lh (LS_Params_at st) =? 0) && t); [specialize (Hb acc); lia |].
  destruct ((calculate_error (LSParam_acode st) le <? 500) && (err <? 500)) eqn:E;
    [| specialize (Hb acc); lia].
  cbn [negb andb]. split; [exact E | lia].
Qed.

Lemma anchor_phase_60hz (s ts : Z) :
  s = 1 \/ s = 2 \/ s = 4 \/ s = 5 ->
  0 <= ts < 2 ^ 32 ->
  fst (LighthouseState_findByOffset
         (to_int (apply_mod_offset ts (wrap_u32 (ts - LSParam_offset_for_state s))
                    LS_WaitLHB_ACode0))) = s.
Proof.
  intros Hs Ht.
  destruct (Z.le_gt_cases (LSParam_offset_for_state s) ts) as [Hge | Hlt].
  - assert (Ho : 0 <= LSParam_offset_for_state s < 800000)
      by (destruct Hs as [-> | [-> | [-> | ->]]]; vm_compute; split; congruence).
    rewrite (wrap_u32_small (ts - LSParam_offset_for_state s)) by lia.
    rewrite apply_mod_offset_value; try lia;
      [| change (LSParam_offset_for_state LS_WaitLHB_ACode0) with 800000; lia].
    replace (ts - (ts - LSParam_offset_for_state s)) with (LSParam_offset_for_state s)
      by lia.
    change (LSParam_offset_for_state LS_WaitLHB_ACode0) with 800000.
    rewrite Z.mod_small by lia.
    destruct Hs as [-> | [-> | [-> | ->]]]; reflexivity.
  - assert (Ho : 0 < LSParam_offset_for_state s < 800000)
      by (destruct Hs as [-> | [-> | [-> | ->]]];
          change (LSParam_offset_for_state 1) with 0 in *;
          first [lia | vm_compute; split; congruence]).
    assert (Ew : wrap_u32 (ts - LSParam_offset_for_state s)
                 = ts - LSParam_offset_for_state s + 2 ^ 32).
    { unfold wrap_u32. symmetry. apply (Z.mod_unique _ _ (-1)); lia. }
    rewrite Ew. unfold apply_mod_offset.
    change (LSParam_offset_for_state LS_WaitLHB_ACode0) with 800000.
    change (wrap_u32 800000) with 800000.
    change (0xFFFFFFFF / 2) with 2147483647.
    change 0xFFFFFFFF with (2 ^ 32 - 1).
    destruct (Z.ltb_spec (ts - LSParam_offset_for_state s + 2 ^ 32) ts); [lia |].
    rewrite (wrap_u32_small (ts - LSParam_offset_for_state s + 2 ^ 32 - ts)) by lia.
    destruct (Z.ltb_spec 2147483647 (ts - LSParam_offset_for_state s + 2 ^ 32 - ts));
      [| lia].
    replace (2 ^ 32 - 1 - (ts - LSParam_offset_for_state s + 2 ^ 32) + ts)
      with (LSParam_offset_for_state s - 1) by lia.
    rewrite wrap_u32_small by lia. rewrite Z.mod_small by lia.
    rewrite to_int_small by lia.
    destruct Hs as [-> | [-> | [-> | ->]]];
      change (LSParam_offset_for_state 1) with 0 in *; first [lia | reflexivity].
Qed.

(** X15.  A lock that [find_relative_offset] reports in 60 Hz mode, from a
    full ring of 32-bit timestamps, is on one of the two sync phases of
    the first lighthouse that carry acode 0 or 1: [LS_WaitLHA_ACode0] or
    [LS_WaitLHA_ACode1]. *)
Theorem lock_at_60hz_is_on_lighthouse_0 (ctx : SurviveContext) (so : nat) (s m : Z) :
  find_relative_offset ctx so = (s, m, true) ->
  s <> LS_UNKNOWN ->
  List.length (sync_history (data_of ctx so)) = 12%nat ->
  0 <= sync_offset (data_of ctx so) < SYNC_HISTORY_LEN ->
  Forall (fun e => 0 <= timestamp e < 2 ^ 32) (sync_history (data_of ctx so)) ->
  s = LS_WaitLHA_ACode0 \/ s = LS_WaitLHA_ACode1.
Proof.
  intros E Hs Hlen Hoff Hts.
  unfold find_relative_offset in E.
  apply find_guess_from_spec in E; [| unfold LS_UNKNOWN, LS_END; lia | exact Hs].
  destruct E as (Hr & Hsw & _ & Hm & Hin & H60). specialize (H60 eq_refl).
  set (d := data_of ctx so) in *.
  set (re := nth (Z.to_nat (Z.rem (sync_offset d + (SYNC_HISTORY_LEN - 1))
                              SYNC_HISTORY_LEN)) (sync_history d) LE_zero) in *.
  assert (Hre : In re (sync_history d)).
  { apply nth_In. rewrite Hlen. unfold SYNC_HISTORY_LEN in *.
    pose proof (Z.rem_bound_pos (sync_offset d + (12 - 1)) 12 ltac:(lia) ltac:(lia)).
    lia. }
  assert (Hall : Forall (fun le => is_inlier m true le = true) (sync_history d)).
  { apply (find_inliers_from_all _ _ _ 0). unfold find_inliers in Hin.
    rewrite Hlen. unfold SYNC_HISTORY_LEN in Hin. simpl. lia. }
  rewrite Forall_forall in Hall, Hts.
  specialize (Hall re Hre). specialize (Hts re Hre).
  unfold LS_UNKNOWN, LS_WaitLHB_ACode0, LS_WaitLHA_ACode0, LS_WaitLHA_ACode1 in *.
  assert (Hc : s = 1 \/ s = 2 \/ s = 4 \/ s = 5).
  { assert (Hc : s = 1 \/ s = 2 \/ s = 3 \/ s = 4 \/ s = 5 \/ s = 6) by lia.
    repeat (destruct Hc as [Hc | Hc]); subst s; auto; discriminate Hsw. }
  unfold is_inlier in Hall. cbv zeta in Hall.
  rewrite Hm in Hall. unfold SolveForMod_Offset in Hall.
  rewrite (anchor_phase_60hz s (timestamp re) Hc Hts) in Hall.
  rewrite Hsw in Hall. cbn [negb andb] in Hall.
  rewrite andb_true_r in Hall.
  destruct Hc as [-> | [-> | [-> | ->]]]; auto;
    vm_compute in Hall; try discriminate Hall;
    repeat (apply andb_prop in Hall; destruct Hall as [Hall _]); discriminate Hall.
Qed.

(** ** What [SetState] keeps and clears *)

(** X16.  [SetState] on an allocated tracker stores phase 1 in place of a
    phase at or beyond [LS_END], empties the sync aggregator and the sweep
    buffer, and keeps confidence, anchors and the last timestamp; the
    history ring is cleared exactly when the stored phase is
    [LS_UNKNOWN]. *)
Theorem SetState_effect (ctx : SurviveContext) (so : nat) (ns : Z)
    (d : Disambiguator_data_t) :
  disambiguator_data (so_at ctx so) = Some d ->
  exists d',
    disambiguator_data (so_at (fst (SetState ctx so ns)) so) = Some d' /\
    state d' = (if LS_END <=? ns then 1 else ns) /\
    confidence d' = confidence d /\
    mod_offset d' = mod_offset d /\
    last_timestamp d' = last_timestamp d /\
    last_sync_count d' = 0 /\ longest_sync_length d' = 0 /\
    first_sync_timestamp d' = 0 /\
    sweep_data d' = repeat LE_zero (Z.to_nat (sensor_ct (so_at ctx so))) /\
    (if state d' =? LS_UNKNOWN
     then sync_history d' = repeat LE_zero 12 /\ sync_offset d' = 0
     else sync_history d' = sync_history d /\ sync_offset d' = sync_offset d).
Proof.
  intros Hd. eexists. split; [apply (data_of_SetState _ _ _ _ Hd) |].
  unfold SetState_data, stored_state.
  destruct ((if LS_END <=? ns then 1 else ns) =? LS_UNKNOWN) eqn:E;
    cbn [state confidence mod_offset last_timestamp last_sync_count
         longest_sync_length first_sync_timestamp sweep_data sync_history
         sync_offset set_sweep_data ResetSync set_sync_registers set_sync_history
         set_state]; rewrite E; repeat split.
Qed.

(** ** [RunACodeCapture] *)

(** X17.  A sync pulse of at least 400 ticks whose error against the expected
    acode is at most 1250 raises the confidence by 1, but not above 100,
    is added to the aggregator (count and longest length), keeps the
    phase and emits nothing. *)
Theorem capture_hit (a : Z) (ctx : SurviveContext) (so : nat) (le : LightcapElement)
    (d : Disambiguator_data_t) :
  disambiguator_data (so_at ctx so) = Some d ->
  400 <= length le ->
  calculate_error a le <= 1250 ->
  - 2 ^ 31 <= confidence d < 2 ^ 31 ->
  - 2 ^ 31 <= last_sync_count d < 2 ^ 31 - 1 ->
  exists d',
    disambiguator_data (so_at (RunACodeCapture a ctx so le) so) = Some d' /\
    confidence d' = (if confidence d <? 100 then confidence d + 1 else confidence d) /\
    last_sync_count d' = last_sync_count d + 1 /\
    longest_sync_length d' = Z.max (longest_sync_length d) (length le) /\
    state d' = state d /\
    lightproc_calls (RunACodeCapture a ctx so le) = lightproc_calls ctx.
Proof.
  intros Hd Hlen Herr Hc Hcnt. unfold RunACodeCapture.
  destruct (Z.ltb_spec (length le) 400) as [H | _]; [lia |].
  destruct (Z.ltb_spec 1250 (calculate_error a le)) as [H | _]; [lia |].
  rewrite (data_of_some _ _ _ Hd).
  destruct (Z.ltb_spec (confidence d) 100) as [Hlt | Hge].
  - rewrite with_data_twice. eexists.
    split; [apply (data_with_data_same _ _ _ _ Hd) |].
    cbn [RegisterSync confidence last_sync_count longest_sync_length state
         set_sync_registers set_confidence].
    rewrite !to_int_small by lia.
    repeat split.
    destruct (Z.ltb_spec (longest_sync_length d) (length le)); lia.
  - eexists. split; [apply (data_with_data_same _ _ _ _ Hd) |].
    cbn [RegisterSync confidence last_sync_count longest_sync_length state
         set_sync_registers].
    rewrite !to_int_small by lia.
    repeat split.
    destruct (Z.ltb_spec (longest_sync_length d) (length le)); lia.
Qed.

(** X18.  A sync pulse of at least 400 ticks whose error against the expected
    acode exceeds 1250 emits nothing and keeps the anchors; when the
    confidence was below 3 the tracker is reset to [LS_UNKNOWN] with an
    empty history, otherwise phase, history and aggregator count are
    kept. *)
Theorem capture_miss (a : Z) (ctx : SurviveContext) (so : nat) (le : LightcapElement)
    (d : Disambiguator_data_t) :
  disambiguator_data (so_at ctx so) = Some d ->
  400 <= length le ->
  1250 < calculate_error a le ->
  exists d',
    disambiguator_data (so_at (RunACodeCapture a ctx so le) so) = Some d' /\
    (if confidence d <? 3
     then state d' = LS_UNKNOWN /\ sync_history d' = repeat LE_zero 12 /\
          sync_offset d' = 0 /\ last_sync_count d' = 0
     else state d' = state d /\ sync_history d' = sync_history d /\
          sync_offset d' = sync_offset d /\ last_sync_count d' = last_sync_count d) /\
    mod_offset d' = mod_offset d /\
    lightproc_calls (RunACodeCapture a ctx so le) = lightproc_calls ctx.
Proof.
  intros Hd Hlen Herr. unfold RunACodeCapture.
  destruct (Z.ltb_spec (length le) 400) as [H | _]; [lia |].
  destruct (Z.ltb_spec 1250 (calculate_error a le)) as [_ | H]; [| lia].
  rewrite (data_of_some _ _ _ Hd).
  destruct (confidence d <? 3).
  - eexists. split.
    + apply data_with_data_same. apply (data_of_SetState _ _ _ _ Hd).
    + change (lightproc_calls (with_data (fst (SetState ctx so LS_UNKNOWN)) so
                (fun d0 => set_confidence d0 (to_int (confidence d0 - 3)))))
        with (lightproc_calls (fst (SetState ctx so LS_UNKNOWN))).
      rewrite SetState_calls. repeat split.
  - eexists. split; [apply (data_with_data_same _ _ _ _ Hd) |]. repeat split.
Qed.

(** ** Output gating *)

Lemma EndSync_calls ctx so :
  lightproc_calls (fst (EndSync ctx so)) = lightproc_calls ctx.
Proof.
  unfold EndSync. destruct (find_relative_offset _ so) as [[ns m] is60].
  destruct (negb _); reflexivity.
Qed.

Lemma AttemptFindState_calls ctx so le :
  lightproc_calls (fst (AttemptFindState ctx so le)) = lightproc_calls ctx.
Proof.
  unfold AttemptFindState.
  pose proof (EndSync_calls ctx so) as He.
  destruct (naive_classify le).
  - destruct (lastWasSync (data_of ctx so)).
    + destruct (EndSync ctx so) as [c s]. simpl in He.
      destruct (negb (s =? LS_UNKNOWN)); exact He.
    + rewrite Z.eqb_refl. reflexivity.
  - destruct (negb (lastWasSync (data_of ctx so)) || _).
    + destruct (lastWasSync (data_of ctx so)).
      * destruct (EndSync ctx so) as [c s]. simpl in He.
        destruct (negb (s =? LS_UNKNOWN)); exact He.
      * rewrite Z.eqb_refl. reflexivity.
    + reflexivity.
Qed.

Lemma RunACodeCapture_calls a ctx so le :
  lightproc_calls (RunACodeCapture a ctx so le) = lightproc_calls ctx.
Proof.
  unfold RunACodeCapture.
  destruct (length le <? 400); [reflexivity |].
  destruct (1250 <? calculate_error a le).
  - destruct (_ <? 3); [| reflexivity].
    change (lightproc_calls (fst (SetState ctx so LS_UNKNOWN)) = lightproc_calls ctx).
    apply SetState_calls.
  - destruct (_ <? 100); reflexivity.
Qed.

Lemma sweep_emit_gated l i minl maxl d e ctx so :
  confidence d <= 80 ->
  lightproc_calls (ctx_of (sweep_emit l i minl maxl d e ctx so)) = lightproc_calls ctx.
Proof.
  intros Hc. revert i ctx. induction l as [| le l IH]; intros i ctx; simpl;
    [reflexivity |].
  destruct (Z.ltb_spec 80 (confidence d)); [lia |].
  destruct (_ && _); [| apply IH].
  destruct (0 <? _); [apply IH | reflexivity].
Qed.

Lemma PropagateState_gated ctx so le :
  confidence (data_of ctx so) <= 80 ->
  lightproc_calls (ctx_of (PropagateState ctx so le)) = lightproc_calls ctx.
Proof.
  intros Hc. unfold PropagateState.
  destruct (_ <=? _); [reflexivity |].
  assert (H1 : lightproc_calls (ctx_of (PropagateState_phase ctx so le))
               = lightproc_calls ctx).
  { unfold PropagateState_phase. destruct (negb _); [| reflexivity].
    unfold ProcessStateChange.
    apply (and_then_ctx (fun c => lightproc_calls c = lightproc_calls ctx));
      [| intros c _ E; cbn [ctx_of]; now rewrite SetState_calls].
    destruct (Z.ltb_spec 80 (confidence (data_of ctx so))) as [H | _]; [lia |].
    destruct (negb _).
    - destruct (0 <? _); reflexivity.
    - destruct (sweep_sum _ 0 0) as [avg cnt].
      destruct (0 <? cnt); [| reflexivity].
      now apply sweep_emit_gated. }
  apply (and_then_ctx (fun c => lightproc_calls c = lightproc_calls ctx));
    [exact H1 |].
  clear H1. intros c1 _ H1. cbn [ctx_of]. unfold PropagateState_capture.
  destruct (negb _); [now rewrite RunACodeCapture_calls |].
  destruct (_ && _); [| exact H1].
  destruct (3000 <? length le); exact H1.
Qed.

Lemma data_of_calloc ctx so :
  data_of (with_obj ctx so calloc_data) so = data_of ctx so.
Proof.
  unfold data_of.
  destruct (so_at_calloc ctx so) as [E | E]; rewrite E; [reflexivity |].
  unfold calloc_data.
  destruct (disambiguator_data (so_at ctx so)) eqn:E'; [now rewrite E' | reflexivity].
Qed.

Lemma so_fields_calloc ctx so :
  sensor_ct (so_at (with_obj ctx so calloc_data) so) = sensor_ct (so_at ctx so) /\
  timebase_hz (so_at (with_obj ctx so calloc_data) so) = timebase_hz (so_at ctx so).
Proof.
  destruct (so_at_calloc ctx so) as [E | E]; rewrite E; [split; reflexivity |].
  unfold calloc_data. now destruct (disambiguator_data (so_at ctx so)).
Qed.

(** X19.  One event never makes the disambiguator call [lightproc] for an
    object that is not locked or whose confidence is at most 80, for
    32-bit timecode differences and a time base from 20 Hz up. *)
Theorem no_output_unless_confident
    (survive_timecode_difference : Z -> Z -> Z)
    (ctx : SurviveContext) (so : nat) (le : LightcapElement) :
  (forall a b, 0 <= survive_timecode_difference a b < 2 ^ 32) ->
  20 <= timebase_hz (so_at ctx so) < 2 ^ 31 ->
  state (data_of ctx so) = LS_UNKNOWN \/ confidence (data_of ctx so) <= 80 ->
  lightproc_calls
    (ctx_of (DisambiguatorStateBased survive_timecode_difference ctx so le))
  = lightproc_calls ctx.
Proof.
  intros Hrange Hhz Hquiet. unfold DisambiguatorStateBased.
  destruct (_ =? 0); [reflexivity |].
  match goal with
  | |- context [with_obj ?c so calloc_data] =>
      assert (Hd : data_of (with_obj c so calloc_data) so = data_of ctx so)
        by (rewrite data_of_calloc; now destruct (ctx_disambiguator_data ctx));
      assert (Hh : timebase_hz (so_at (with_obj c so calloc_data) so)
                   = timebase_hz (so_at ctx so))
        by (rewrite (proj2 (so_fields_calloc c so));
            now destruct (ctx_disambiguator_data ctx));
      assert (Hcalls : lightproc_calls (with_obj c so calloc_data)
                       = lightproc_calls ctx)
        by (now destruct (ctx_disambiguator_data ctx));
      set (c2 := with_obj c so calloc_data) in *
  end.
  clearbody c2. rewrite Hd, Hh.
  destruct (_ <? 200); [exact Hcalls |].
  destruct (Z.eqb_spec (state (data_of ctx so)) LS_UNKNOWN) as [Hs | Hs].
  - pose proof (AttemptFindState_calls c2 so le) as H3.
    destruct (AttemptFindState c2 so le) as [c3 ns]. simpl in H3.
    cbn [ctx_of].
    destruct (negb (ns =? LS_UNKNOWN)).
    + change (lightproc_calls
                (fst (SetState (with_data c3 so
                        (fun d => set_failures (set_confidence d 0) 0)) so ns))
              = lightproc_calls ctx).
      rewrite SetState_calls. simpl. congruence.
    + simpl. congruence.
  - destruct Hquiet as [Hq | Hq]; [contradiction |].
    set (timediff := survive_timecode_difference (timestamp le)
                       (last_timestamp (data_of ctx so))).
    destruct (silence_penalty_value (timebase_hz (so_at ctx so)) timediff Hhz
                (Hrange _ _)) as [Hp Hp0].
    rewrite Hp.
    destruct (_ <? timediff).
    + destruct (Z.ltb_spec (confidence (data_of ctx so))
                  (10 * (timediff / timebase_hz (so_at ctx so)))) as [Hc | Hc].
      * cbn [ctx_of]. rewrite SetState_calls. exact Hcalls.
      * apply (and_then_ctx (fun c => lightproc_calls c = lightproc_calls ctx));
          [| intros c _ E; exact E].
        rewrite PropagateState_gated; [exact Hcalls |].
        rewrite data_of_with_data.
        destruct (disambiguator_data (so_at c2 so)) as [d |] eqn:Ed.
        -- rewrite (data_of_some _ _ _ Ed) in Hd. subst d.
           cbn [confidence set_confidence]. rewrite to_int_small; lia.
        -- rewrite Hd. exact Hq.
    + apply (and_then_ctx (fun c => lightproc_calls c = lightproc_calls ctx));
        [| intros c _ E; exact E].
      rewrite PropagateState_gated; [exact Hcalls | rewrite Hd; exact Hq].
Qed.

(** ** The sync record *)

Lemma sync_phase_cases (s : Z) :
  1 <= s <= 12 -> is_sweep (LS_Params_at s) = false ->
  s = 1 \/ s = 2 \/ s = 4 \/ s = 5 \/ s = 7 \/ s = 8 \/ s = 10 \/ s = 11.
Proof.
  intros Hr Hs.
  assert (Hc : s = 1 \/ s = 2 \/ s = 3 \/ s = 4 \/ s = 5 \/ s = 6 \/ s = 7 \/
               s = 8 \/ s = 9 \/ s = 10 \/ s = 11 \/ s = 12) by lia.
  repeat (destruct Hc as [Hc | Hc]); subst s; try discriminate Hs; auto 12.
Qed.

(** X20.  Leaving a sync phase with a non-empty aggregator and confidence
    above 80 emits exactly one record: sensor id -1 when the next phase is
    a sweep and -2 otherwise, the acode of the phase with the data bit set
    exactly when the longest pulse is more than 500 ticks above the
    nominal length, time in sweep 0, the first timestamp and the longest
    length of the burst, and the lighthouse of the phase. *)
Theorem sync_record_emitted (ctx : SurviveContext) (so : nat) (ns : Z)
    (d : Disambiguator_data_t) :
  disambiguator_data (so_at ctx so) = Some d ->
  1 <= state d <= 12 ->
  is_sweep (LS_Params_at (state d)) = false ->
  0 < last_sync_count d ->
  80 < confidence d ->
  0 <= longest_sync_length d < 2 ^ 16 ->
  aborts (ProcessStateChange ctx so ns) = false /\
  lightproc_calls (ctx_of (ProcessStateChange ctx so ns))
  = lightproc_calls ctx
    ++ [(so, mkCall (if is_sweep (LS_Params_at (state d + 1)) then -1 else -2)
               (if ACODE_TIMING (LSParam_acode (state d)) + 500
                   <? longest_sync_length d
                then Z.lor (LSParam_acode (state d)) DATA_BIT
                else LSParam_acode (state d))
               0 (first_sync_timestamp d) (longest_sync_length d)
               (lh (LS_Params_at (state d))))].
Proof.
  intros Hd Hr Hs Hcnt Hconf Hlen. unfold ProcessStateChange.
  rewrite (data_of_some _ _ _ Hd). rewrite Hs. cbn [negb and_then aborts ctx_of].
  split; [reflexivity |].
  rewrite SetState_calls.
  destruct (Z.ltb_spec 0 (last_sync_count d)) as [_ | H]; [| lia].
  destruct (Z.ltb_spec 80 (confidence d)) as [_ | H]; [| lia].
  cbn [lightproc lightproc_calls with_data with_obj length timestamp].
  rewrite wrap_u16_small by lia.
  f_equal. f_equal. f_equal. f_equal.
  - destruct (sync_phase_cases _ Hr Hs) as [E | [E | [E | [E | [E | [E | [E | E]]]]]]];
      rewrite E; destruct (mode_flag _); reflexivity.
  - destruct (sync_phase_cases _ Hr Hs) as [E | [E | [E | [E | [E | [E | [E | E]]]]]]];
      rewrite E;
      match goal with
      | |- context [ACODE_TIMING (Z.lor (LSParam_acode ?s) DATA_BIT)] =>
          let a := eval vm_compute in (LSParam_acode s) in
          change (LSParam_acode s) with a;
          let v := eval vm_compute in (ACODE_TIMING (Z.lor a DATA_BIT)) in
          change (ACODE_TIMING (Z.lor a DATA_BIT)) with v;
          let w := eval vm_compute in (ACODE_TIMING a) in
          change (ACODE_TIMING a) with w
      end;
      repeat match goal with
             | |- context [?x <? ?y] => destruct (Z.ltb_spec x y); try lia
             end; reflexivity.
Qed.

(** ** Warm-up *)

Lemma calloc_allocates ctx so :
  sensor_ct (so_at ctx so) <> 0 ->
  disambiguator_data (so_at (with_obj ctx so calloc_data) so) <> None.
Proof.
  intros Hne. unfold so_at in *. unfold with_obj. cbn [objs].
  destruct (Nat.lt_ge_cases so (List.length (objs ctx))) as [Hin | Hout].
  - rewrite nth_update_nth_in by exact Hin. unfold calloc_data.
    destruct (disambiguator_data (nth so (objs ctx) (mkSO 0 0 None))) eqn:E;
      [now rewrite E | discriminate].
  - exfalso. apply Hne. now rewrite nth_overflow.
Qed.

Lemma warm_up_step
    (tdiff : Z -> Z -> Z) (ctx : SurviveContext) (so : nat) (le : LightcapElement)
    (ct k : Z) :
  sensor_ct (so_at ctx so) = ct -> ct <> 0 ->
  data_of ctx so = set_stabalize (D_zero ct) k ->
  0 <= k < 200 ->
  exists ctx',
    DisambiguatorStateBased tdiff ctx so le = Done ctx' /\
    sensor_ct (so_at ctx' so) = ct /\
    data_of ctx' so = set_stabalize (D_zero ct) (k + 1) /\
    lightproc_calls ctx' = lightproc_calls ctx /\
    mode_flag ctx' = mode_flag ctx.
Proof.
  intros Hct Hne Hd Hk. unfold DisambiguatorStateBased.
  destruct (Z.eqb_spec (sensor_ct (so_at ctx so)) 0) as [H | _]; [congruence |].
  match goal with
  | |- context [with_obj ?c so calloc_data] =>
      assert (Hd2 : data_of (with_obj c so calloc_data) so = data_of ctx so)
        by (rewrite data_of_calloc; now destruct (ctx_disambiguator_data ctx));
      assert (Hc2 : sensor_ct (so_at (with_obj c so calloc_data) so) = ct)
        by (rewrite (proj1 (so_fields_calloc c so)); rewrite <- Hct;
            now destruct (ctx_disambiguator_data ctx));
      assert (Hsome : disambiguator_data (so_at (with_obj c so calloc_data) so) <> None);
      [| assert (Hcalls : lightproc_calls (with_obj c so calloc_data)
                          = lightproc_calls ctx)
           by (now destruct (ctx_disambiguator_data ctx));
         assert (Hflag : mode_flag (with_obj c so calloc_data) = mode_flag ctx)
           by (unfold mode_flag, with_obj;
               destruct (ctx_disambiguator_data ctx) eqn:Eg; simpl;
               [now rewrite Eg | reflexivity]);
         set (c2 := with_obj c so calloc_data) in * ]
  end.
  { apply calloc_allocates. rewrite <- Hct in Hne.
    now destruct (ctx_disambiguator_data ctx). }
  clearbody c2. rewrite Hd2, Hd.
  cbn [stabalize set_stabalize].
  destruct (Z.ltb_spec k 200) as [_ | H]; [| lia].
  eexists. split; [reflexivity |].
  rewrite sensor_ct_with_data. split; [exact Hc2 |].
  split; [| split; [exact Hcalls | exact Hflag]].
  rewrite data_of_with_data.
  destruct (disambiguator_data (so_at c2 so)) as [d |] eqn:Ed; [| congruence].
  rewrite (data_of_some _ _ _ Ed) in Hd2. rewrite Hd2, Hd.
  cbn [stabalize set_stabalize D_zero]. rewrite to_int_small by lia. reflexivity.
Qed.

Lemma warm_up_run
    (tdiff : Z -> Z -> Z) (so : nat) (evs : list (nat * LightcapElement))
    (ctx : SurviveContext) (ct k : Z) :
  Forall (fun e => fst e = so) evs ->
  sensor_ct (so_at ctx so) = ct -> ct <> 0 ->
  data_of ctx so = set_stabalize (D_zero ct) k ->
  0 <= k -> k + Z.of_nat (List.length evs) <= 200 ->
  data_of (run tdiff ctx evs) so
  = set_stabalize (D_zero ct) (k + Z.of_nat (List.length evs)) /\
  lightproc_calls (run tdiff ctx evs) = lightproc_calls ctx /\
  mode_flag (run tdiff ctx evs) = mode_flag ctx.
Proof.
  revert ctx k. induction evs as [| [so' le] evs IH]; intros ctx k Hall Hct Hne Hd Hk Hn.
  - cbn [run List.length]. rewrite Z.add_0_r. auto.
  - inversion Hall as [| e es Hso Hrest]; subst e es; cbn [fst] in Hso; subst so'.
    cbn [run]. cbn [List.length] in *.
    destruct (warm_up_step tdiff ctx so le ct k Hct Hne Hd ltac:(lia))
      as (ctx' & E & H1 & H2 & H3 & H4).
    rewrite E.
    destruct (IH _ (k + 1) Hrest H1 Hne H2 ltac:(lia) ltac:(lia)) as (I1 & I2 & I3).
    replace (k + Z.of_nat (S (List.length evs)))
      with (k + 1 + Z.of_nat (List.length evs)) by lia.
    repeat split; congruence.
Qed.

(** X21.  The first 200 events of an object with sensors only advance its
    warm-up counter: from a fresh context, after up to 200 events for the
    object its tracker is the zero-initialised one with the counter at the
    number of events, nothing has been emitted and the 60 Hz flag is
    clear. *)
Theorem warm_up_skips_200_events
    (survive_timecode_difference : Z -> Z -> Z) (os : list (Z * Z)) (so : nat)
    (evs : list (nat * LightcapElement)) :
  fst (nth so os (0, 0)) <> 0 ->
  Forall (fun e => fst e = so) evs ->
  (List.length evs <= 200)%nat ->
  data_of (run survive_timecode_difference (initial_context os) evs) so
  = set_stabalize (D_zero (fst (nth so os (0, 0)))) (Z.of_nat (List.length evs)) /\
  lightproc_calls (run survive_timecode_difference (initial_context os) evs) = [] /\
  mode_flag (run survive_timecode_difference (initial_context os) evs) = false.
Proof.
  intros Hne Hall Hlen.
  assert (Hso : so_at (initial_context os) so
                = mkSO (fst (nth so os (0, 0))) (snd (nth so os (0, 0))) None).
  { unfold so_at, initial_context. cbn [objs].
    destruct (Nat.lt_ge_cases so (List.length os)) as [H | H].
    - erewrite nth_indep by (rewrite length_map; exact H).
      apply (map_nth (fun o => mkSO (fst o) (snd o) None) os (0, 0)).
    - exfalso. apply Hne. now rewrite nth_overflow. }
  apply (warm_up_run survive_timecode_difference so evs (initial_context os)
           (fst (nth so os (0, 0))) 0); auto; try lia.
  - now rewrite Hso.
  - unfold data_of. rewrite Hso. reflexivity.
Qed.

Ltac shape_done :=
  unfold shape_ok, SYNC_HISTORY_LEN in *; simpl;
  rewrite ?store_length, ?repeat_length; intuition (try lia).

(** ** Array sizes and counters *)

Lemma shape_ok_same ct d d' :
  sync_history d' = sync_history d -> sync_offset d' = sync_offset d ->
  sweep_data d' = sweep_data d -> mod_offset d' = mod_offset d ->
  stabalize d' = stabalize d -> failures d' = failures d ->
  shape_ok ct d -> shape_ok ct d'.
Proof. unfold shape_ok. intros -> -> -> -> -> ->. auto. Qed.

Lemma shape_inv_with_data ctx so f :
  shape_inv ctx ->
  (forall d, disambiguator_data (so_at ctx so) = Some d ->
             shape_ok (sensor_ct (so_at ctx so)) d ->
             shape_ok (sensor_ct (so_at ctx so)) (f d)) ->
  shape_inv (with_data ctx so f).
Proof.
  intros H Hf j d' Hd'. rewrite sensor_ct_with_data.
  destruct (Nat.eq_dec so j) as [<- | Hne].
  - rewrite so_at_with_data_same in Hd'. unfold map_data in Hd'. simpl in Hd'.
    destruct (disambiguator_data (so_at ctx so)) as [d |] eqn:E; [| discriminate].
    injection Hd' as <-. apply Hf; auto.
  - rewrite so_at_with_data_other in Hd' by exact Hne. now apply H.
Qed.

Lemma shape_inv_objs ctx ctx' :
  objs ctx' = objs ctx -> shape_inv ctx -> shape_inv ctx'.
Proof. intros E H so d. unfold so_at. rewrite E. apply H. Qed.

Lemma shape_inv_SetState ctx so ns :
  shape_inv ctx -> shape_inv (fst (SetState ctx so ns)).
Proof.
  intros H. eapply shape_inv_objs; [apply SetState_objs |].
  apply shape_inv_with_data; [exact H |].
  intros d _ Hd. unfold SetState_data.
  destruct (_ =? LS_UNKNOWN); shape_done.
Qed.

Lemma shape_ok_AddSyncHistory ct d s :
  shape_ok ct d -> shape_ok ct (AddSyncHistory d s).
Proof.
  intros (H1 & H2 & H3 & H4 & H5 & H6). unfold AddSyncHistory.
  destruct (negb _); [| unfold shape_ok; tauto].
  unfold shape_ok, SYNC_HISTORY_LEN in *. simpl. rewrite store_length.
  destruct (Z.leb_spec 12 (sync_offset d + 1)); repeat split; auto; lia.
Qed.

Lemma shape_inv_EndSync ctx so : shape_inv ctx -> shape_inv (fst (EndSync ctx so)).
Proof.
  intros H. unfold EndSync.
  destruct (find_relative_offset _ so) as [[ns m] is60].
  assert (H1 : shape_inv (with_data ctx so
                 (fun d => AddSyncHistory d (get_last_sync (data_of ctx so))))).
  { apply shape_inv_with_data; [exact H |]. intros d _. apply shape_ok_AddSyncHistory. }
  destruct (negb (ns =? LS_UNKNOWN)); cbn [fst]; [| exact H1].
  change (shape_inv (with_data
            (with_data ctx so
               (fun d => AddSyncHistory d (get_last_sync (data_of ctx so))))
            so (fun d => set_mod_offset d [m; m]))).
  apply shape_inv_with_data; [exact H1 |].
  intros d _ Hd. shape_done.
Qed.

Lemma shape_inv_field ctx so f :
  shape_inv ctx ->
  (forall d, sync_history (f d) = sync_history d /\ sync_offset (f d) = sync_offset d /\
             sweep_data (f d) = sweep_data d /\ mod_offset (f d) = mod_offset d /\
             stabalize (f d) = stabalize d /\ failures (f d) = failures d) ->
  shape_inv (with_data ctx so f).
Proof.
  intros H Hf. apply shape_inv_with_data; [exact H |].
  intros d _. destruct (Hf d) as (E1 & E2 & E3 & E4 & E5 & E6).
  now apply shape_ok_same.
Qed.

Lemma shape_inv_AttemptFindState ctx so le :
  shape_inv ctx -> shape_inv (fst (AttemptFindState ctx so le)).
Proof.
  intros H. unfold AttemptFindState.
  pose proof (shape_inv_EndSync ctx so H) as He.
  assert (Hs : forall c f, shape_inv c ->
            (forall d, sync_history (f d) = sync_history d /\
                       sync_offset (f d) = sync_offset d /\
                       sweep_data (f d) = sweep_data d /\
                       mod_offset (f d) = mod_offset d /\
                       stabalize (f d) = stabalize d /\ failures (f d) = failures d) ->
            shape_inv (with_data c so f))
    by (intros; now apply shape_inv_field).
  assert (Hf : forall (f : Disambiguator_data_t -> Disambiguator_data_t),
            (forall d, f d = f d) -> True) by auto.
  destruct (naive_classify le).
  - destruct (lastWasSync (data_of ctx so)).
    + destruct (EndSync ctx so) as [c s]. simpl in He.
      destruct (negb (s =? LS_UNKNOWN)); cbn [fst]; [exact He |].
      apply Hs; [exact He | intros d; repeat split].
    + rewrite Z.eqb_refl. cbn [negb fst]. apply Hs; [exact H | intros d; repeat split].
  - destruct (negb (lastWasSync (data_of ctx so)) || _).
    + destruct (lastWasSync (data_of ctx so)).
      * destruct (EndSync ctx so) as [c s]. simpl in He.
        destruct (negb (s =? LS_UNKNOWN)); cbn [fst]; [exact He |].
        repeat (apply Hs; [| intros d; repeat split]). exact He.
      * rewrite Z.eqb_refl. cbn [negb fst].
        repeat (apply Hs; [| intros d; repeat split]). exact H.
    + cbn [fst]. repeat (apply Hs; [| intros d; repeat split]). exact H.
Qed.

Lemma shape_inv_RunACodeCapture a ctx so le :
  shape_inv ctx -> shape_inv (RunACodeCapture a ctx so le).
Proof.
  intros H. unfold RunACodeCapture.
  destruct (length le <? 400); [exact H |].
  destruct (1250 <? calculate_error a le).
  - apply shape_inv_field; [| intros d; repeat split].
    destruct (_ <? 3); [| exact H]. now apply shape_inv_SetState.
  - apply shape_inv_field; [| intros d; repeat split].
    destruct (_ <? 100); [| exact H].
    apply shape_inv_field; [exact H | intros d; repeat split].
Qed.

Lemma shape_inv_ProcessStateChange ctx so ns :
  shape_inv ctx -> shape_inv (ctx_of (ProcessStateChange ctx so ns)).
Proof.
  intros H. unfold ProcessStateChange.
  apply and_then_ctx; [| intros c _ Hc; cbn [ctx_of]; now apply shape_inv_SetState].
  set (d := data_of ctx so).
  destruct (negb (is_sweep (LS_Params_at (state d)))); cbn [ctx_of].
  - destruct (0 <? last_sync_count d); [| exact H].
    match goal with
    | |- shape_inv (if _ then lightproc ?c _ _ else ?c) =>
        assert (Hc' : shape_inv c)
    end.
    { apply shape_inv_with_data.
      - apply shape_inv_with_data; [exact H |]. intros d' _.
        apply shape_ok_AddSyncHistory.
      - intros d' _ Hd'. shape_done. }
    destruct (80 <? confidence d); exact Hc'.
  - destruct (sweep_sum (sweep_data d) 0 0) as [avg cnt].
    destruct (0 <? cnt); [| exact H].
    eapply shape_inv_objs; [apply sweep_emit_objs | exact H].
Qed.

Lemma shape_inv_PropagateState ctx so le :
  shape_inv ctx -> shape_inv (ctx_of (PropagateState ctx so le)).
Proof.
  intros H. unfold PropagateState.
  destruct (_ <=? _); [exact H |].
  assert (H1 : shape_inv (ctx_of (PropagateState_phase ctx so le))).
  { unfold PropagateState_phase. destruct (negb _); [| exact H].
    now apply shape_inv_ProcessStateChange. }
  apply and_then_ctx; [exact H1 |]. clear H1. intros c1 _ H1.
  cbn [ctx_of]. unfold PropagateState_capture.
  destruct (negb _); [now apply shape_inv_RunACodeCapture |].
  destruct (_ && _); [| exact H1].
  apply shape_inv_with_data.
  - destruct (3000 <? length le); [| exact H1].
    apply shape_inv_field; [exact H1 | intros d; repeat split].
  - intros d _ Hd. shape_done.
Qed.

Lemma shape_ok_zero ct : shape_ok ct (D_zero ct).
Proof.
  unfold shape_ok, D_zero, SYNC_HISTORY_LEN. simpl. rewrite repeat_length.
  repeat split; lia.
Qed.

Lemma shape_inv_calloc ctx so : shape_inv ctx -> shape_inv (with_obj ctx so calloc_data).
Proof.
  intros H j d Hd.
  destruct (Nat.eq_dec so j) as [<- | Hne].
  - destruct (so_at_calloc ctx so) as [E | E]; rewrite E in *; [now apply H |].
    unfold calloc_data in *.
    destruct (disambiguator_data (so_at ctx so)) eqn:E'.
    + apply H. congruence.
    + simpl in *. injection Hd as <-. apply shape_ok_zero.
  - rewrite so_at_with_obj_other in * by exact Hne. now apply H.
Qed.

Section ShapeInvariant.

Variable survive_timecode_difference : Z -> Z -> Z.

Lemma shape_inv_DisambiguatorStateBased ctx so le :
  shape_inv ctx ->
  shape_inv (ctx_of (DisambiguatorStateBased survive_timecode_difference ctx so le)).
Proof.
  intros H. unfold DisambiguatorStateBased.
  destruct (_ =? 0); [exact H |].
  match goal with
  | |- context [with_obj ?c so calloc_data] =>
      assert (H1 : shape_inv c) by (destruct (ctx_disambiguator_data ctx); exact H);
      assert (H2 : shape_inv (with_obj c so calloc_data))
        by (now apply shape_inv_calloc);
      set (c2 := with_obj c so calloc_data) in *
  end.
  clearbody c2. clear H1.
  assert (Hlast : forall c, shape_inv c ->
            shape_inv (with_data c so (fun d => set_last_timestamp d (timestamp le))))
    by (intros c Hc; apply shape_inv_field; [exact Hc | intros d; repeat split]).
  destruct (Z.ltb_spec (stabalize (data_of c2 so)) 200) as [Hst | Hst].
  { apply shape_inv_with_data; [exact H2 |].
    intros d Hd Hsh.
    rewrite (data_of_some _ _ _ Hd) in Hst.
    assert (Hb : 0 <= stabalize d <= 200) by (unfold shape_ok in Hsh; tauto).
    unfold shape_ok in *. simpl. rewrite to_int_small by lia. intuition (try lia). }
  destruct (state (data_of c2 so) =? LS_UNKNOWN).
  - pose proof (shape_inv_AttemptFindState c2 so le H2) as H3.
    destruct (AttemptFindState c2 so le) as [c3 ns]. simpl in H3.
    cbn [ctx_of]. apply Hlast.
    destruct (negb (ns =? LS_UNKNOWN)).
    + apply shape_inv_SetState.
      apply shape_inv_with_data; [exact H3 |].
      intros d _ Hsh. shape_done.
    + apply shape_inv_with_data; [exact H3 |].
      intros d _ Hsh.
      assert (Hb : 0 <= failures d <= 1000) by (unfold shape_ok in Hsh; tauto).
      unfold shape_ok in *. simpl. rewrite to_int_small by lia.
      destruct (Z.ltb_spec 1000 (failures d + 1)); intuition (try lia).
  - destruct (_ <? survive_timecode_difference _ _).
    + destruct (_ <? _).
      * now apply shape_inv_SetState.
      * apply and_then_ctx; [| intros c _ Hc; now apply Hlast].
        apply shape_inv_PropagateState.
        apply shape_inv_field; [exact H2 | intros d; repeat split].
    + apply and_then_ctx; [| intros c _ Hc; now apply Hlast].
      now apply shape_inv_PropagateState.
Qed.

Lemma shape_inv_run evs ctx :
  shape_inv ctx -> shape_inv (run survive_timecode_difference ctx evs).
Proof.
  revert ctx. induction evs as [| [so le] evs IH]; intros ctx H; simpl; [exact H |].
  pose proof (shape_inv_DisambiguatorStateBased ctx so le H) as H1.
  destruct (DisambiguatorStateBased _ ctx so le) as [c | c]; cbn [ctx_of] in H1.
  - now apply IH.
  - exact H1.
Qed.

End ShapeInvariant.

Lemma shape_inv_initial os : shape_inv (initial_context os).
Proof.
  intros so d. unfold so_at, initial_context. simpl.
  destruct (Nat.lt_ge_cases so (List.length os)) as [H | H].
  - erewrite nth_indep by (rewrite length_map; exact H).
    rewrite (map_nth (fun o => mkSO (fst o) (snd o) None) os (0, 0)).
    simpl. discriminate.
  - rewrite nth_overflow by (rewrite length_map; exact H). simpl. discriminate.
Qed.

(** X22.  Along every event stream from a fresh context, every allocated
    tracker keeps a history ring of 12 entries with its write index inside
    the ring, a sweep buffer of [sensor_ct] slots, and two anchors. *)
Theorem arrays_keep_their_size
    (survive_timecode_difference : Z -> Z -> Z) (os : list (Z * Z))
    (evs : list (nat * LightcapElement)) (so : nat) (d : Disambiguator_data_t) :
  disambiguator_data
    (so_at (run survive_timecode_difference (initial_context os) evs) so) = Some d ->
  List.length (sync_history d) = 12%nat /\
  0 <= sync_offset d < SYNC_HISTORY_LEN /\
  List.length (sweep_data d)
  = Z.to_nat (sensor_ct
                (so_at (run survive_timecode_difference (initial_context os) evs) so)) /\
  List.length (mod_offset d) = 2%nat.
Proof.
  intros Hd.
  destruct (shape_inv_run survive_timecode_difference evs (initial_context os)
              (shape_inv_initial os) so d Hd) as (H1 & H2 & H3 & H4 & _).
  auto.
Qed.

(** X23.  Along every event stream from a fresh context, the warm-up counter
    of a tracker stays between 0 and 200 and its failure counter between
    0 and 1000. *)
Theorem counters_stay_bounded
    (survive_timecode_difference : Z -> Z -> Z) (os : list (Z * Z))
    (evs : list (nat * LightcapElement)) (so : nat) (d : Disambiguator_data_t) :
  disambiguator_data
    (so_at (run survive_timecode_difference (initial_context os) evs) so) = Some d ->
  0 <= stabalize d <= 200 /\ 0 <= failures d <= 1000.
Proof.
  intros Hd.
  destruct (shape_inv_run survive_timecode_difference evs (initial_context os)
              (shape_inv_initial os) so d Hd) as (_ & _ & _ & _ & H5 & H6).
  auto.
Qed.

(** X24.  Along every stream of well-formed events from a fresh context, the
    lighthouse of the phase of a locked tracker is 0 or 1, an index inside
    its array of two anchors. *)
Theorem anchor_index_in_range
    (survive_timecode_difference : Z -> Z -> Z) (os : list (Z * Z))
    (evs : list (nat * LightcapElement)) (so : nat) (d : Disambiguator_data_t) :
  Forall (fun e => LE_wf (snd e)) evs ->
  disambiguator_data
    (so_at (run survive_timecode_difference (initial_context os) evs) so) = Some d ->
  state d <> LS_UNKNOWN ->
  0 <= lh (LS_Params_at (state d)) /\
  (Z.to_nat (lh (LS_Params_at (state d))) < List.length (mod_offset d))%nat.
Proof.
  intros Hwf Hd Hs.
  destruct (shape_inv_run survive_timecode_difference evs (initial_context os)
              (shape_inv_initial os) so d Hd) as (_ & _ & _ & H4 & _).
  pose proof (ctx_ok_run survive_timecode_difference evs (initial_context os)
                Hwf (ctx_ok_initial os)) as [Hinv _].
  destruct (Hinv so d Hd) as [Hr _]. rewrite H4.
  unfold LS_UNKNOWN, LS_END in *.
  assert (Hc : state d = 1 \/ state d = 2 \/ state d = 3 \/ state d = 4 \/
               state d = 5 \/ state d = 6 \/ state d = 7 \/ state d = 8 \/
               state d = 9 \/ state d = 10 \/ state d = 11 \/ state d = 12) by lia.
  repeat (destruct Hc as [Hc | Hc]); rewrite Hc; simpl; lia.
Qed.

(** ** The event that locks a tracker *)

Lemma EndSync_lock ctx so :
  snd (EndSync ctx so) <> LS_UNKNOWN ->
  exists m is60,
    find_relative_offset
      (with_data ctx so (fun d => AddSyncHistory d (get_last_sync (data_of ctx so)))) so
    = (snd (EndSync ctx so), m, is60) /\
    fst (EndSync ctx so)
    = set_mode_flag
        (with_data
           (with_data ctx so
              (fun d => AddSyncHistory d (get_last_sync (data_of ctx so))))
           so (fun d => set_mod_offset d [m; m]))
        is60.
Proof.
  unfold EndSync.
  destruct (find_relative_offset _ so) as [[ns m] is60].
  destruct (Z.eqb_spec ns LS_UNKNOWN) as [-> | Hne]; cbn [negb fst snd].
  - intros H. now elim H.
  - intros _. now exists m, is60.
Qed.

Lemma AttemptFindState_lock ctx so le :
  snd (AttemptFindState ctx so le) <> LS_UNKNOWN ->
  AttemptFindState ctx so le = EndSync ctx so.
Proof.
  unfold AttemptFindState.
  destruct (naive_classify le).
  - destruct (lastWasSync (data_of ctx so)).
    + destruct (EndSync ctx so) as [c s].
      destruct (Z.eqb_spec s LS_UNKNOWN) as [-> | Hne]; cbn [negb snd]; intros H;
        [now elim H | reflexivity].
    + rewrite Z.eqb_refl. cbn [negb snd]. intros H. now elim H.
  - destruct (negb (lastWasSync (data_of ctx so)) || _); cbn [snd].
    + destruct (lastWasSync (data_of ctx so)).
      * destruct (EndSync ctx so) as [c s].
        destruct (Z.eqb_spec s LS_UNKNOWN) as [-> | Hne]; cbn [negb snd]; intros H;
          [now elim H | reflexivity].
      * unfold EndSweep. rewrite Z.eqb_refl. cbn [negb snd]. intros H. now elim H.
    + intros H. now elim H.
Qed.

Lemma EndSync_keeps_state ctx so :
  state (data_of (fst (EndSync ctx so)) so) = state (data_of ctx so).
Proof.
  unfold EndSync.
  destruct (find_relative_offset _ so) as [[ns m] is60].
  assert (H1 : state (data_of (with_data ctx so
                 (fun d => AddSyncHistory d (get_last_sync (data_of ctx so)))) so)
               = state (data_of ctx so)).
  { apply state_data_of_with_data. intros d. unfold AddSyncHistory.
    now destruct (negb _). }
  destruct (negb (ns =? LS_UNKNOWN)); cbn [fst]; [| exact H1].
  rewrite <- H1.
  exact (state_data_of_with_data _ so (fun d => set_mod_offset d [m; m])
           (fun d => eq_refl)).
Qed.

Lemma AttemptFindState_keeps_state ctx so le :
  state (data_of (fst (AttemptFindState ctx so le)) so) = state (data_of ctx so).
Proof.
  unfold AttemptFindState.
  pose proof (EndSync_keeps_state ctx so) as He.
  destruct (naive_classify le).
  - destruct (lastWasSync (data_of ctx so)).
    + destruct (EndSync ctx so) as [c s]. cbn [fst] in He.
      destruct (negb (s =? LS_UNKNOWN)); cbn [fst]; [exact He |].
      rewrite <- He.
      now rewrite state_data_of_with_data.
    + rewrite Z.eqb_refl. cbn [negb fst]. now rewrite state_data_of_with_data.
  - destruct (negb (lastWasSync (data_of ctx so)) || _).
    + destruct (lastWasSync (data_of ctx so)).
      * destruct (EndSync ctx so) as [c s]. cbn [fst] in He.
        destruct (negb (s =? LS_UNKNOWN)); cbn [fst]; [exact He |].
        rewrite <- He.
        repeat (rewrite state_data_of_with_data; [| intros d; reflexivity]).
        reflexivity.
      * unfold EndSweep. rewrite Z.eqb_refl. cbn [negb fst].
        repeat (rewrite state_data_of_with_data; [| intros d; reflexivity]).
        reflexivity.
    + cbn [fst].
      repeat (rewrite state_data_of_with_data; [| intros d; reflexivity]).
      reflexivity.
Qed.

(** X25.  The event on which a warmed-up, unlocked tracker acquires lock
    leaves it in a sync phase between 1 and 12, with confidence 0, failure
    count 0, an empty aggregator, the same anchor for both lighthouses and
    the event's timestamp as last timestamp, and emits nothing. *)
Theorem lock_event
    (survive_timecode_difference : Z -> Z -> Z)
    (ctx : SurviveContext) (so : nat) (le : LightcapElement) (d : Disambiguator_data_t) :
  sensor_ct (so_at ctx so) <> 0 ->
  disambiguator_data (so_at ctx so) = Some d ->
  200 <= stabalize d ->
  state d = LS_UNKNOWN ->
  state (data_of
           (ctx_of (DisambiguatorStateBased survive_timecode_difference ctx so le))
           so)
  <> LS_UNKNOWN ->
  exists ctx' d' m,
    DisambiguatorStateBased survive_timecode_difference ctx so le = Done ctx' /\
    disambiguator_data (so_at ctx' so) = Some d' /\
    1 <= state d' < LS_END /\
    is_sweep (LS_Params_at (state d')) = false /\
    mod_offset d' = [m; m] /\
    confidence d' = 0 /\ failures d' = 0 /\
    last_sync_count d' = 0 /\ longest_sync_length d' = 0 /\
    last_timestamp d' = timestamp le /\
    lightproc_calls ctx' = lightproc_calls ctx.
Proof.
  intros Hct Hd Hst Hs.
  unfold DisambiguatorStateBased.
  destruct (Z.eqb_spec (sensor_ct (so_at ctx so)) 0) as [E | _]; [now elim Hct |].
  set (c1 := match ctx_disambiguator_data ctx with
             | None => mkCtx (objs ctx) (Some (mkG false)) (lightproc_calls ctx)
             | Some _ => ctx
             end).
  assert (Hso : so_at c1 so = so_at ctx so) by (subst c1; now destruct ctx_disambiguator_data).
  assert (Hcalls : lightproc_calls c1 = lightproc_calls ctx)
    by (subst c1; now destruct ctx_disambiguator_data).
  assert (Hd1 : disambiguator_data (so_at c1 so) = Some d) by now rewrite Hso.
  clearbody c1.
  rewrite (with_obj_calloc_id c1 so d Hd1).
  rewrite (data_of_some _ _ _ Hd1).
  destruct (Z.ltb_spec (stabalize d) 200) as [Hlt | _]; [lia |].
  rewrite Hs, Z.eqb_refl.
  pose proof (AttemptFindState_lock c1 so le) as Hlock.
  pose proof (AttemptFindState_keeps_state c1 so le) as Hkeep.
  destruct (AttemptFindState c1 so le) as [c3 ns]. cbn [fst snd] in *.
  cbn [ctx_of].
  destruct (Z.eqb_spec ns LS_UNKNOWN) as [-> | Hne]; cbn [negb].
  { intros H. exfalso. apply H.
    rewrite state_data_of_with_data by (intros; reflexivity).
    rewrite state_data_of_with_data by (intros; reflexivity).
    rewrite Hkeep, (data_of_some _ _ _ Hd1). exact Hs. }
  intros _.
  specialize (Hlock Hne).
  pose proof (EndSync_lock c1 so) as Hend. rewrite <- Hlock in Hend. cbn [fst snd] in Hend.
  destruct (Hend Hne) as (m & is60 & Hfind & ->). clear Hend.
  clear Hkeep Hlock.
  rewrite (data_of_some _ _ _ Hd1) in Hfind |- *.
  set (ls := get_last_sync d) in *.
  set (cA := with_data c1 so (fun d0 => AddSyncHistory d0 ls)) in *.
  assert (HdA : disambiguator_data (so_at cA so) = Some (AddSyncHistory d ls))
    by (subst cA;
        now apply (data_with_data_same c1 so (fun d0 => AddSyncHistory d0 ls))).
  unfold find_relative_offset in Hfind.
  apply find_guess_from_spec in Hfind; [| unfold LS_UNKNOWN, LS_END; lia | exact Hne].
  destruct Hfind as (Hr & Hsw & _).
  set (cB := set_mode_flag
               (with_data cA so (fun d0 => set_mod_offset d0 [m; m])) is60).
  assert (HdB : disambiguator_data (so_at cB so)
                = Some (set_mod_offset (AddSyncHistory d ls) [m; m])).
  { subst cB.
    change (disambiguator_data
              (so_at (with_data cA so (fun d0 => set_mod_offset d0 [m; m])) so)
            = Some (set_mod_offset (AddSyncHistory d ls) [m; m])).
    now apply (data_with_data_same cA so (fun d0 => set_mod_offset d0 [m; m])). }
  set (cC := with_data cB so (fun d0 => set_failures (set_confidence d0 0) 0)).
  assert (HdC : disambiguator_data (so_at cC so)
                = Some (set_failures
                          (set_confidence
                             (set_mod_offset (AddSyncHistory d ls) [m; m]) 0) 0))
    by (subst cC;
        now apply (data_with_data_same cB so
                     (fun d0 => set_failures (set_confidence d0 0) 0))).
  pose proof (data_of_SetState cC so ns _ HdC) as HdD.
  eexists. eexists. exists m.
  split; [reflexivity |].
  split.
  { apply (data_with_data_same _ so (fun d0 => set_last_timestamp d0 (timestamp le))).
    exact HdD. }
  assert (Hstored : stored_state ns = ns).
  { unfold stored_state. destruct (Z.leb_spec LS_END ns); [lia | reflexivity]. }
  unfold SetState_data. rewrite Hstored.
  destruct (Z.eqb_spec ns LS_UNKNOWN) as [E | _]; [now elim Hne |].
  unfold LS_UNKNOWN in Hr.
  repeat split; try (cbn; first [tauto | reflexivity | lia]).
  change (lightproc_calls (fst (SetState cC so ns)) = lightproc_calls ctx).
  rewrite SetState_calls. exact Hcalls.
Qed.

Lemma sweep_emit_calls l : forall pre maxl d e ctx so,
  exists new,
    lightproc_calls
      (ctx_of (sweep_emit l (Z.of_nat (List.length pre)) 10 maxl d e ctx so))
    = lightproc_calls ctx ++ new /\
    Forall (fun c => sweep_record_ok (pre ++ l) maxl d e so c /\
                     Z.of_nat (List.length pre) <= lp_sensor_id (snd c)) new /\
    StronglySorted by_sensor_id new /\
    (confidence d <= 80 -> new = []) /\
    (aborts (sweep_emit l (Z.of_nat (List.length pre)) 10 maxl d e ctx so) = false ->
     Forall (fun le => sweep_accepted maxl le = true -> 0 < sweep_offset_from d e le) l /\
     (80 < confidence d ->
      forall i, (i < List.length l)%nat ->
                sweep_accepted maxl (nth i l LE_zero) = true ->
                exists c, In (so, c) new /\
                          lp_sensor_id c = Z.of_nat (List.length pre + i))) /\
    (aborts (sweep_emit l (Z.of_nat (List.length pre)) 10 maxl d e ctx so) = true ->
     Exists (fun le => sweep_accepted maxl le = true /\ sweep_offset_from d e le <= 0) l).
Proof.
  induction l as [| le l IH]; intros pre maxl d e ctx so.
  - exists []. cbn [sweep_emit ctx_of aborts]. rewrite app_nil_r.
    split; [reflexivity |]. split; [constructor |]. split; [constructor |].
    split; [reflexivity |]. split; [| discriminate].
    intros _. split; [constructor |]. intros _ i Hi. inversion Hi.
  - cbn [sweep_emit].
    assert (Hi : Z.of_nat (List.length pre) + 1 = Z.of_nat (List.length (pre ++ [le])))
      by (rewrite length_app; simpl; lia).
    rewrite Hi.
    assert (Hl : (pre ++ [le]) ++ l = pre ++ le :: l) by now rewrite <- app_assoc.
    assert (Hn : forall i, (List.length (pre ++ [le]) + i
                            = List.length pre + S i)%nat)
      by (intros i; rewrite length_app; simpl; lia).
    fold (sweep_accepted maxl le).
    destruct (sweep_accepted maxl le) eqn:Eacc.
    + destruct (Z.ltb_spec 0 (sweep_offset_from d e le)) as [Hpos | Hneg].
      * match goal with
        | |- context [sweep_emit l _ 10 maxl d e ?c so] =>
            destruct (IH (pre ++ [le]) maxl d e c so)
              as (new & Hc & Hall & Hsort & Hno & Hdone & Habort)
        end.
        rewrite Hl in Hall.
        assert (Hall' : Forall (fun c => sweep_record_ok (pre ++ le :: l) maxl d e so c /\
                                         Z.of_nat (List.length pre)
                                         <= lp_sensor_id (snd c)) new).
        { eapply Forall_impl; [| exact Hall]. intros c [H1 H2]. split; [exact H1 | lia]. }
        destruct (Z.ltb_spec 80 (confidence d)) as [Hconf | Hconf].
        -- eexists. split;
             [rewrite Hc; cbn [lightproc lightproc_calls]; rewrite <- app_assoc;
              reflexivity |].
           split; [| split; [| split; [| split]]].
           ++ cbn [app]. constructor; [| exact Hall'].
              unfold sweep_record_ok.
              cbn [fst snd lp_sensor_id lp_acode lp_lh lp_timecode lp_length
                     lp_timeinsweep].
              rewrite Nat2Z.id, nth_middle, length_app. cbn [List.length].
              repeat split; auto; lia.
           ++ cbn [app]. constructor; [exact Hsort |].
              eapply Forall_impl; [| exact Hall]. intros c [_ H2].
              unfold by_sensor_id. cbn [snd lp_sensor_id]. lia.
           ++ intros H. lia.
           ++ intros Hd. destruct (Hdone Hd) as [Hf Hcomp].
              split; [constructor; [intros _; exact Hpos | exact Hf] |].
              intros _ [| i] Hlt Hai.
              ** eexists. split; [left; reflexivity |].
                 cbn [lp_sensor_id]. f_equal. lia.
              ** cbn [nth] in Hai. cbn [List.length] in Hlt.
                 destruct (Hcomp Hconf i ltac:(lia) Hai) as (c & Hin & Hid).
                 exists c. split; [right; exact Hin |]. rewrite Hid, Hn. reflexivity.
           ++ intros Ha. apply Exists_cons_tl. now apply Habort.
        -- exists new. split; [exact Hc |]. split; [exact Hall' |].
           split; [exact Hsort |]. split; [exact Hno |]. split.
           ++ intros Hd. destruct (Hdone Hd) as [Hf _].
              split; [constructor; [intros _; exact Hpos | exact Hf] |].
              intros H. lia.
           ++ intros Ha. apply Exists_cons_tl. now apply Habort.
      * exists []. cbn [ctx_of aborts]. rewrite app_nil_r.
        split; [reflexivity |]. split; [constructor |]. split; [constructor |].
        split; [reflexivity |]. split; [discriminate |].
        intros _. apply Exists_cons_hd. split; [exact Eacc | exact Hneg].
    + destruct (IH (pre ++ [le]) maxl d e ctx so)
        as (new & Hc & Hall & Hsort & Hno & Hdone & Habort).
      rewrite Hl in Hall.
      exists new. split; [exact Hc |]. split.
      { eapply Forall_impl; [| exact Hall]. intros c [H1 H2]. split; [exact H1 | lia]. }
      split; [exact Hsort |]. split; [exact Hno |]. split.
      * intros Hd. destruct (Hdone Hd) as [Hf Hcomp].
        split; [constructor; [intros H; congruence | exact Hf] |].
        intros Hconf [| i] Hlt Hai.
        -- cbn [nth] in Hai. congruence.
        -- cbn [nth] in Hai. cbn [List.length] in Hlt.
           destruct (Hcomp Hconf i ltac:(lia) Hai) as (c & Hin & Hid).
           exists c. split; [exact Hin |]. rewrite Hid, Hn. reflexivity.
      * intros Ha. apply Exists_cons_tl. now apply Habort.
Qed.

(** X26.  When a tracker leaves a sweep phase whose buffer holds a pulse,
    the records emitted are in strictly increasing order of sensor id;
    each carries a sensor id that indexes the sweep buffer, the timestamp
    and length of the pulse stored in that slot, a length from 10 ticks
    up to three times the rounded average length of the non-empty slots,
    the acode and lighthouse of the phase left, and as time in sweep the
    pulse's offset from the start of the phase plus 20000, which is
    positive.  None is emitted when the confidence is at most 80; above
    80, if the call returns, every slot that passes the length test has
    its record.  The call aborts exactly when a slot that passes the
    length test has a time in sweep that is not positive, and then the
    tracker is left as it was. *)
Theorem sweep_records (ctx : SurviveContext) (so : nat) (ns : Z)
    (d : Disambiguator_data_t) (avg cnt : Z) :
  disambiguator_data (so_at ctx so) = Some d ->
  is_sweep (LS_Params_at (state d)) = true ->
  sweep_sum (sweep_data d) 0 0 = (avg, cnt) ->
  0 < cnt ->
  let maxl := 3 * ((avg + cnt / 2) / cnt) in
  let e := if mode_flag ctx then LS_WaitLHB_ACode0 else LS_END in
  let o := ProcessStateChange ctx so ns in
  exists new,
    lightproc_calls (ctx_of o) = lightproc_calls ctx ++ new /\
    Forall (sweep_record_ok (sweep_data d) maxl d e so) new /\
    StronglySorted by_sensor_id new /\
    (confidence d <= 80 -> new = []) /\
    (aborts o = false ->
     Forall (fun le => sweep_accepted maxl le = true -> 0 < sweep_offset_from d e le)
            (sweep_data d) /\
     (80 < confidence d ->
      forall i, (i < List.length (sweep_data d))%nat ->
                sweep_accepted maxl (nth i (sweep_data d) LE_zero) = true ->
                exists c, In (so, c) new /\ lp_sensor_id c = Z.of_nat i)) /\
    (aborts o = true ->
     Exists (fun le => sweep_accepted maxl le = true /\ sweep_offset_from d e le <= 0)
            (sweep_data d) /\
     disambiguator_data (so_at (ctx_of o) so) = Some d).
Proof.
  intros Hd Hs Hsum Hcnt maxl e o.
  destruct (sweep_emit_calls (sweep_data d) [] maxl d e ctx so)
    as (new & Hc & Hall & Hsort & Hno & Hdone & Habort).
  cbn [List.length Z.of_nat app Nat.add] in *.
  assert (Eo : o = and_then (sweep_emit (sweep_data d) 0 10 maxl d e ctx so)
                     (fun c => Done (fst (SetState c so ns)))).
  { subst o. unfold ProcessStateChange.
    rewrite (data_of_some _ _ _ Hd), Hs, Hsum. cbn [negb].
    destruct (Z.ltb_spec 0 cnt) as [_ | H]; [reflexivity | lia]. }
  exists new.
  assert (Hobjs := sweep_emit_objs (sweep_data d) 0 10 maxl d e ctx so).
  rewrite Eo.
  destruct (sweep_emit (sweep_data d) 0 10 maxl d e ctx so) as [c | c];
    cbn [and_then ctx_of aborts] in *.
  - rewrite SetState_calls.
    split; [exact Hc |].
    split; [eapply Forall_impl; [| exact Hall]; now intros x [H _] |].
    split; [exact Hsort |]. split; [exact Hno |].
    split; [exact Hdone | discriminate].
  - split; [exact Hc |].
    split; [eapply Forall_impl; [| exact Hall]; now intros x [H _] |].
    split; [exact Hsort |]. split; [exact Hno |].
    split; [discriminate |]. intros _. split; [now apply Habort |].
    unfold so_at. rewrite Hobjs. exact Hd.
Qed.

(** The assertion on the time in sweep does fail on well-formed events.
    In [mode_switch_in_sweep] the second object locks onto two base
    stations and stores a pulse in phase 9; the third object's lock then
    switches the context to the cycle of 800000 ticks, in which the
    stored pulse lies 720000 ticks before the window of phase 9.  The
    next event of the second object leaves the phase and aborts, and the
    stream ends there. *)
Lemma sweep_assert_fails_after_mode_switch :
  forallb (fun e => LE_wfb (snd e))
          (mode_switch_in_sweep
           ++ for_object 1 [pulse_after_switch; pulse_after_abort]) = true /\
  mode_flag after_mode_switch = true /\
  state (data_of after_mode_switch 1) = LS_SweepBX /\
  sweep_data (data_of after_mode_switch 1) = [pulse_in_sweep_9] /\
  sweep_offset_from (data_of after_mode_switch 1) LS_WaitLHB_ACode0 pulse_in_sweep_9
  = -720000 /\
  DisambiguatorStateBased timecode_difference_spec after_mode_switch 1
    pulse_after_switch = Abort after_mode_switch /\
  run timecode_difference_spec three_objects
    (mode_switch_in_sweep ++ for_object 1 [pulse_after_switch; pulse_after_abort])
  = after_mode_switch.
Proof. vm_compute. repeat split. Qed.

(** X27.  If the timecode difference never exceeds the 32-bit difference of
    its arguments, a sensor and lighthouse that [isPairValid] accepts have
    both axes accepted by [isReadingValid] for the same tolerance and
    time. *)
Theorem pair_valid_readings_valid
    (survive_timecode_difference : Z -> Z -> Z)
    (self : SurviveSensorActivations) (tolerance timecode_now idx lh : Z) :
  (forall a b, survive_timecode_difference a b <= wrap_u32 (a - b)) ->
  SurviveSensorActivations_isPairValid self tolerance timecode_now idx lh = true ->
  SurviveSensorActivations_isReadingValid survive_timecode_difference
    self tolerance timecode_now idx lh 0 = true /\
  SurviveSensorActivations_isReadingValid survive_timecode_difference
    self tolerance timecode_now idx lh 1 = true.
Proof.
  intros Hdiff.
  unfold SurviveSensorActivations_isPairValid, SurviveSensorActivations_isReadingValid.
  destruct (lengths self idx lh 0 =? 0); [discriminate |].
  destruct (lengths self idx lh 1 =? 0); [discriminate |].
  cbn [orb]. intros H. apply negb_true_iff, orb_false_elim in H as [H0 H1].
  apply Z.ltb_ge in H0, H1.
  pose proof (Hdiff timecode_now (timecode self idx lh 0)).
  pose proof (Hdiff timecode_now (timecode self idx lh 1)).
  split; apply Z.leb_le; lia.
Qed.

Lemma pair_valid_readings_valid_witness :
  SurviveSensorActivations_isReadingValid timecode_difference_spec
    both_axes_hit 800000 1000000 3 0 0 = true /\
  SurviveSensorActivations_isReadingValid timecode_difference_spec
    both_axes_hit 800000 1000000 3 0 1 = true.
Proof.
  apply (pair_valid_readings_valid timecode_difference_spec both_axes_hit
           800000 1000000 3 0).
  - intros a b. unfold timecode_difference_spec. lia.
  - vm_compute. reflexivity.
Defined.

(** X28.  [isPairValid] rejects a pair one of whose readings is stamped later
    than the current timecode, unless the tolerance reaches the wrapped
    difference 2^32 - (reading - now). *)
Theorem pair_invalid_before_reading
    (self : SurviveSensorActivations) (tolerance timecode_now idx lh axis : Z) :
  axis = 0 \/ axis = 1 ->
  0 <= timecode_now < timecode self idx lh axis ->
  timecode self idx lh axis < 2 ^ 32 ->
  tolerance < 2 ^ 32 - (timecode self idx lh axis - timecode_now) ->
  SurviveSensorActivations_isPairValid self tolerance timecode_now idx lh = false.
Proof.
  intros Hax Hnow Htc Htol. unfold SurviveSensorActivations_isPairValid.
  destruct (_ || _); [reflexivity |].
  apply negb_false_iff, orb_true_iff.
  assert (Hw : wrap_u32 (timecode_now - timecode self idx lh axis)
               = 2 ^ 32 - (timecode self idx lh axis - timecode_now)).
  { unfold wrap_u32. symmetry.
    apply (Z.mod_unique _ _ (-1)); lia. }
  destruct Hax as [-> | ->]; [left | right]; apply Z.ltb_lt; lia.
Qed.

Lemma pair_invalid_before_reading_witness :
  SurviveSensorActivations_isPairValid both_axes_hit 800000 700000 3 0 = false.
Proof.
  apply (pair_invalid_before_reading both_axes_hit 800000 700000 3 0 1).
  - right. reflexivity.
  - vm_compute. split; [discriminate | reflexivity].
  - vm_compute. reflexivity.
  - vm_compute. reflexivity.
Defined.

(** ** Every history entry counts *)

(** X29.  [find_relative_offset] reports a lock only from a full ring in which
    every one of the 12 entries has a positive length and passes the
    inlier test for the returned anchor and mode: one outlier among the
    last 12 sync bursts prevents the lock. *)
Theorem lock_needs_all_inliers (ctx : SurviveContext) (so : nat) (s m : Z)
    (is60 : bool) :
  find_relative_offset ctx so = (s, m, is60) ->
  s <> LS_UNKNOWN ->
  (List.length (sync_history (data_of ctx so)) <= 12)%nat ->
  List.length (sync_history (data_of ctx so)) = 12%nat /\
  Forall (fun e => 0 < length e /\ is_inlier m is60 e = true)
         (sync_history (data_of ctx so)).
Proof.
  intros E Hs Hlen.
  unfold find_relative_offset in E.
  apply find_guess_from_spec in E; [| unfold LS_UNKNOWN, LS_END; lia | exact Hs].
  destruct E as (_ & _ & _ & _ & Hin & _).
  unfold find_inliers, SYNC_HISTORY_LEN in Hin.
  set (h := sync_history (data_of ctx so)) in *.
  destruct (find_inliers_from_bound h m is60 0) as [Hb Hz].
  assert (Hfull : List.length h = 12%nat) by lia.
  split; [exact Hfull |].
  assert (Hall : Forall (fun le => is_inlier m is60 le = true) h)
    by (apply (find_inliers_from_all _ _ _ 0); lia).
  rewrite Forall_forall in Hall |- *.
  intros e He. split; [| exact (Hall e He)].
  destruct (Z.lt_ge_cases 0 (length e)) as [Hpos | Hneg]; [exact Hpos |].
  assert (Hex : exists e0, In e0 h /\ length e0 <= 0) by (exists e; split; [exact He | lia]).
  specialize (Hz Hex). lia.
Qed.

Lemma lock_needs_all_inliers_witness :
  List.length (sync_history (data_of after_lock 0)) = 12%nat /\
  Forall (fun e => 0 < length e /\ is_inlier 2600000 false e = true)
         (sync_history (data_of after_lock 0)).
Proof.
  apply (lock_needs_all_inliers after_lock 0 5 2600000 false).
  - vm_compute. reflexivity.
  - discriminate.
  - vm_compute. lia.
Defined.

(** ** Events of sensors the object does not have *)

(** X30.  An event that names a sensor the object does not have
    ([sensor_id] at or above [sensor_ct]) and reaches a warmed-up, locked
    tracker within the time base only updates the tracker's last
    timestamp: phase, confidence, buffers, mode flag and emitted records
    are unchanged. *)
Theorem invalid_sensor_ignored
    (survive_timecode_difference : Z -> Z -> Z)
    (ctx : SurviveContext) (so : nat) (le : LightcapElement)
    (d : Disambiguator_data_t) (g : Global_Disambiguator_data_t) :
  ctx_disambiguator_data ctx = Some g ->
  disambiguator_data (so_at ctx so) = Some d ->
  sensor_ct (so_at ctx so) <> 0 ->
  200 <= stabalize d ->
  state d <> LS_UNKNOWN ->
  sensor_ct (so_at ctx so) <= sensor_id le ->
  survive_timecode_difference (timestamp le) (last_timestamp d)
  <= wrap_u32 (timebase_hz (so_at ctx so)) ->
  DisambiguatorStateBased survive_timecode_difference ctx so le
  = Done (with_data ctx so (fun d0 => set_last_timestamp d0 (timestamp le))).
Proof.
  intros Hg Hd Hct Hst Hs Hid Hdiff.
  unfold DisambiguatorStateBased.
  destruct (Z.eqb_spec (sensor_ct (so_at ctx so)) 0) as [E | _]; [now elim Hct |].
  rewrite Hg, (with_obj_calloc_id ctx so d Hd), (data_of_some _ _ _ Hd).
  destruct (Z.ltb_spec (stabalize d) 200) as [Hlt | _]; [lia |].
  destruct (Z.eqb_spec (state d) LS_UNKNOWN) as [E | _]; [now elim Hs |].
  destruct (Z.ltb_spec (wrap_u32 (timebase_hz (so_at ctx so)))
              (survive_timecode_difference (timestamp le) (last_timestamp d)))
    as [Hlt | _]; [lia |].
  unfold PropagateState.
  destruct (Z.leb_spec (sensor_ct (so_at ctx so)) (sensor_id le)) as [_ | Hlt];
    [reflexivity | lia].
Qed.

Lemma invalid_sensor_ignored_witness :
  DisambiguatorStateBased timecode_difference_spec tracker_in_sync 0 (mkLE 5 3000 25000)
  = Done (with_data tracker_in_sync 0
            (fun d0 => set_last_timestamp d0 (timestamp (mkLE 5 3000 25000)))).
Proof.
  apply (invalid_sensor_ignored timecode_difference_spec tracker_in_sync 0
           (mkLE 5 3000 25000) (data_of tracker_in_sync 0) (mkG false)).
  - reflexivity.
  - reflexivity.
  - vm_compute. discriminate.
  - vm_compute. discriminate.
  - vm_compute. discriminate.
  - vm_compute. discriminate.
  - vm_compute. discriminate.
Defined.

(** ** Instances *)

Lemma findByOffset_error_witness :
  snd (LighthouseState_findByOffset 25000)
  = Z.abs (25000 - LSParam_offset_for_state (fst (LighthouseState_findByOffset 25000)))
  /\ (is_sweep (LS_Params_at (fst (LighthouseState_findByOffset 25000))) = false ->
      snd (LighthouseState_findByOffset 25000) <= 10000).
Proof. apply (findByOffset_error 25000). lia. Defined.

Lemma RegisterSync_aggregates_witness :
  last_sync_count (fold_left RegisterSync [late_short; early_long] (ResetSync (D_zero 1)))
  = 2.
Proof.
  apply (RegisterSync_aggregates (D_zero 1) [late_short; early_long]).
  - discriminate.
  - repeat constructor.
  - simpl. lia.
Defined.

Lemma AddSyncHistory_latest_witness :
  nth (Z.to_nat (Z.rem (sync_offset (AddSyncHistory (D_zero 1) late_pulse)
                        + (SYNC_HISTORY_LEN - 1)) SYNC_HISTORY_LEN))
      (sync_history (AddSyncHistory (D_zero 1) late_pulse)) LE_zero = late_pulse.
Proof.
  apply (AddSyncHistory_latest (D_zero 1) late_pulse).
  - reflexivity.
  - vm_compute. split; [discriminate | reflexivity].
  - vm_compute. discriminate.
Defined.

Lemma no_lock_without_full_history_witness :
  find_relative_offset tracker_in_sync 0 = (LS_UNKNOWN, 0, false).
Proof.
  apply (no_lock_without_full_history tracker_in_sync 0).
  - simpl. lia.
  - exists LE_zero. split; [left; reflexivity | simpl; lia].
Defined.

Lemma lock_finder_result_witness :
  1 <= 5 < LS_END /\
  is_sweep (LS_Params_at 5) = false /\
  LSParam_acode 5
  = Z.land (find_acode
              (length (nth (Z.to_nat (Z.rem (sync_offset (data_of after_lock 0)
                                               + (SYNC_HISTORY_LEN - 1))
                                            SYNC_HISTORY_LEN))
                           (sync_history (data_of after_lock 0)) LE_zero))) 5 /\
  2600000 = SolveForMod_Offset 5
        (nth (Z.to_nat (Z.rem (sync_offset (data_of after_lock 0) + (SYNC_HISTORY_LEN - 1))
                              SYNC_HISTORY_LEN))
             (sync_history (data_of after_lock 0)) LE_zero) /\
  SYNC_HISTORY_LEN - 1 < find_inliers (data_of after_lock 0) 2600000 false /\
  (false = true -> 5 < LS_WaitLHB_ACode0).
Proof.
  apply (lock_finder_result after_lock 0 5 2600000 false).
  - vm_compute. reflexivity.
  - discriminate.
Defined.

Lemma last_unlock_clears_mode_flag_witness :
  mode_flag (fst (SetState locked_at_60hz 0 LS_UNKNOWN)) = false.
Proof.
  apply (last_unlock_clears_mode_flag locked_at_60hz 0).
  intros [| j] Hj [d [Hd _]]; [now elim Hj |].
  destruct j; discriminate Hd.
Defined.

Lemma lock_at_60hz_is_on_lighthouse_0_witness :
  5 = LS_WaitLHA_ACode0 \/ 5 = LS_WaitLHA_ACode1.
Proof.
  apply (lock_at_60hz_is_on_lighthouse_0 after_first_lock 0 5 5000000).
  - vm_compute. reflexivity.
  - discriminate.
  - vm_compute. reflexivity.
  - vm_compute. split; [discriminate | reflexivity].
  - apply Forall_forall. intros e He.
    assert (Hb : forallb (fun e => (0 <=? timestamp e) && (timestamp e <? 2 ^ 32))
                   (sync_history (data_of after_first_lock 0)) = true)
      by (vm_compute; reflexivity).
    rewrite forallb_forall in Hb. specialize (Hb e He). lia.
Defined.

Lemma SetState_effect_witness :
  exists d',
    disambiguator_data (so_at (fst (SetState tracker_in_sync 0 LS_END)) 0) = Some d' /\
    state d' = (if LS_END <=? LS_END then 1 else LS_END) /\
    confidence d' = confidence (data_of tracker_in_sync 0) /\
    mod_offset d' = mod_offset (data_of tracker_in_sync 0) /\
    last_timestamp d' = last_timestamp (data_of tracker_in_sync 0) /\
    last_sync_count d' = 0 /\ longest_sync_length d' = 0 /\
    first_sync_timestamp d' = 0 /\
    sweep_data d' = repeat LE_zero (Z.to_nat (sensor_ct (so_at tracker_in_sync 0))) /\
    (if state d' =? LS_UNKNOWN
     then sync_history d' = repeat LE_zero 12 /\ sync_offset d' = 0
     else sync_history d' = sync_history (data_of tracker_in_sync 0) /\
          sync_offset d' = sync_offset (data_of tracker_in_sync 0)).
Proof.
  apply (SetState_effect tracker_in_sync 0 LS_END (data_of tracker_in_sync 0)).
  reflexivity.
Defined.

Lemma capture_hit_witness :
  exists d',
    disambiguator_data
      (so_at (RunACodeCapture (LSParam_acode LS_WaitLHA_ACode0)
                tracker_in_sync 0 late_pulse) 0) = Some d' /\
    confidence d'
    = (if confidence (data_of tracker_in_sync 0) <? 100
       then confidence (data_of tracker_in_sync 0) + 1
       else confidence (data_of tracker_in_sync 0)) /\
    last_sync_count d' = last_sync_count (data_of tracker_in_sync 0) + 1 /\
    longest_sync_length d'
    = Z.max (longest_sync_length (data_of tracker_in_sync 0)) (length late_pulse) /\
    state d' = state (data_of tracker_in_sync 0) /\
    lightproc_calls (RunACodeCapture (LSParam_acode LS_WaitLHA_ACode0)
                       tracker_in_sync 0 late_pulse)
    = lightproc_calls tracker_in_sync.
Proof.
  apply (capture_hit (LSParam_acode LS_WaitLHA_ACode0) tracker_in_sync 0 late_pulse
           (data_of tracker_in_sync 0)).
  - reflexivity.
  - vm_compute. discriminate.
  - vm_compute. discriminate.
  - vm_compute. split; [discriminate | reflexivity].
  - vm_compute. split; [discriminate | reflexivity].
Defined.

Lemma capture_miss_witness :
  exists d',
    disambiguator_data
      (so_at (RunACodeCapture (LSParam_acode LS_WaitLHA_ACode0)
                tracker_in_sync 0 wrong_pulse) 0) = Some d' /\
    (if confidence (data_of tracker_in_sync 0) <? 3
     then state d' = LS_UNKNOWN /\ sync_history d' = repeat LE_zero 12 /\
          sync_offset d' = 0 /\ last_sync_count d' = 0
     else state d' = state (data_of tracker_in_sync 0) /\
          sync_history d' = sync_history (data_of tracker_in_sync 0) /\
          sync_offset d' = sync_offset (data_of tracker_in_sync 0) /\
          last_sync_count d' = last_sync_count (data_of tracker_in_sync 0)) /\
    mod_offset d' = mod_offset (data_of tracker_in_sync 0) /\
    lightproc_calls (RunACodeCapture (LSParam_acode LS_WaitLHA_ACode0)
                       tracker_in_sync 0 wrong_pulse)
    = lightproc_calls tracker_in_sync.
Proof.
  apply (capture_miss (LSParam_acode LS_WaitLHA_ACode0) tracker_in_sync 0 wrong_pulse
           (data_of tracker_in_sync 0)).
  - reflexivity.
  - vm_compute. discriminate.
  - vm_compute. reflexivity.
Defined.

Lemma no_output_unless_confident_witness :
  lightproc_calls (ctx_of (DisambiguatorStateBased timecode_difference_spec
                             tracker_in_sync 0 wrong_pulse))
  = lightproc_calls tracker_in_sync.
Proof.
  apply (no_output_unless_confident timecode_difference_spec tracker_in_sync 0
           wrong_pulse).
  - exact timecode_difference_spec_range.
  - vm_compute. split; [discriminate | reflexivity].
  - right. vm_compute. discriminate.
Defined.

Lemma sync_record_emitted_witness :
  aborts (ProcessStateChange confident_in_sync 0 LS_SweepAX) = false /\
  lightproc_calls (ctx_of (ProcessStateChange confident_in_sync 0 LS_SweepAX))
  = lightproc_calls confident_in_sync
    ++ [(0%nat,
         mkCall (if is_sweep (LS_Params_at (state (data_of confident_in_sync 0) + 1))
                 then -1 else -2)
           (if ACODE_TIMING (LSParam_acode (state (data_of confident_in_sync 0))) + 500
               <? longest_sync_length (data_of confident_in_sync 0)
            then Z.lor (LSParam_acode (state (data_of confident_in_sync 0))) DATA_BIT
            else LSParam_acode (state (data_of confident_in_sync 0)))
           0 (first_sync_timestamp (data_of confident_in_sync 0))
           (longest_sync_length (data_of confident_in_sync 0))
           (lh (LS_Params_at (state (data_of confident_in_sync 0)))))].
Proof.
  apply (sync_record_emitted confident_in_sync 0 LS_SweepAX
           (data_of confident_in_sync 0)).
  - reflexivity.
  - vm_compute. split; discriminate.
  - reflexivity.
  - reflexivity.
  - reflexivity.
  - vm_compute. split; [discriminate | reflexivity].
Defined.

Lemma warm_up_skips_200_events_witness :
  data_of (run timecode_difference_spec (initial_context [(1, 48000000)])
             (for_object 0 [noise_pulse; wrong_pulse; late_pulse])) 0
  = set_stabalize (D_zero (fst (nth 0 [(1, 48000000)] (0, 0))))
      (Z.of_nat (List.length (for_object 0 [noise_pulse; wrong_pulse; late_pulse]))) /\
  lightproc_calls (run timecode_difference_spec (initial_context [(1, 48000000)])
                     (for_object 0 [noise_pulse; wrong_pulse; late_pulse])) = [] /\
  mode_flag (run timecode_difference_spec (initial_context [(1, 48000000)])
               (for_object 0 [noise_pulse; wrong_pulse; late_pulse])) = false.
Proof.
  apply (warm_up_skips_200_events timecode_difference_spec [(1, 48000000)] 0%nat
           (for_object 0 [noise_pulse; wrong_pulse; late_pulse])).
  - simpl. discriminate.
  - repeat constructor.
  - simpl. lia.
Defined.

Lemma arrays_keep_their_size_witness :
  List.length (sync_history (data_of after_lock 0)) = 12%nat /\
  0 <= sync_offset (data_of after_lock 0) < SYNC_HISTORY_LEN /\
  List.length (sweep_data (data_of after_lock 0))
  = Z.to_nat (sensor_ct
                (so_at (run timecode_difference_spec (initial_context [(1, 48000000)])
                          (dual_stream 0 13)) 0)) /\
  List.length (mod_offset (data_of after_lock 0)) = 2%nat.
Proof.
  apply (arrays_keep_their_size timecode_difference_spec [(1, 48000000)]
           (dual_stream 0 13) 0 (data_of after_lock 0)).
  vm_compute. reflexivity.
Defined.

Lemma counters_stay_bounded_witness :
  0 <= stabalize (data_of after_lock 0) <= 200 /\
  0 <= failures (data_of after_lock 0) <= 1000.
Proof.
  apply (counters_stay_bounded timecode_difference_spec [(1, 48000000)]
           (dual_stream 0 13) 0 (data_of after_lock 0)).
  vm_compute. reflexivity.
Defined.

Lemma anchor_index_in_range_witness :
  0 <= lh (LS_Params_at (state (data_of after_lock 0))) /\
  (Z.to_nat (lh (LS_Params_at (state (data_of after_lock 0))))
   < List.length (mod_offset (data_of after_lock 0)))%nat.
Proof.
  apply (anchor_index_in_range timecode_difference_spec [(1, 48000000)]
           (dual_stream 0 13) 0 (data_of after_lock 0)).
  - apply LE_wfb_sound. vm_compute. reflexivity.
  - vm_compute. reflexivity.
  - vm_compute. discriminate.
Defined.

Lemma lock_event_witness :
  exists ctx' d' m,
    DisambiguatorStateBased timecode_difference_spec before_lock 0 (dual_sync 12)
    = Done ctx' /\
    disambiguator_data (so_at ctx' 0) = Some d' /\
    1 <= state d' < LS_END /\
    is_sweep (LS_Params_at (state d')) = false /\
    mod_offset d' = [m; m] /\
    confidence d' = 0 /\ failures d' = 0 /\
    last_sync_count d' = 0 /\ longest_sync_length d' = 0 /\
    last_timestamp d' = timestamp (dual_sync 12) /\
    lightproc_calls ctx' = lightproc_calls before_lock.
Proof.
  apply (lock_event timecode_difference_spec before_lock 0 (dual_sync 12)
           (data_of before_lock 0)).
  - vm_compute. discriminate.
  - vm_compute. reflexivity.
  - vm_compute. discriminate.
  - vm_compute. reflexivity.
  - vm_compute. discriminate.
Defined.

Lemma sweep_records_witness :
  exists new,
    lightproc_calls
      (ctx_of (ProcessStateChange confident_in_sweep 0 LS_WaitLHA_ACode5))
    = lightproc_calls confident_in_sweep ++ new /\
    Forall (sweep_record_ok (sweep_data (data_of confident_in_sweep 0))
              (3 * ((7000 + 2 / 2) / 2)) (data_of confident_in_sweep 0)
              (if mode_flag confident_in_sweep then LS_WaitLHB_ACode0 else LS_END)
              0) new /\
    StronglySorted by_sensor_id new /\
    (confidence (data_of confident_in_sweep 0) <= 80 -> new = []) /\
    (aborts (ProcessStateChange confident_in_sweep 0 LS_WaitLHA_ACode5) = false ->
     Forall (fun le => sweep_accepted (3 * ((7000 + 2 / 2) / 2)) le = true ->
                       0 < sweep_offset_from (data_of confident_in_sweep 0)
                             (if mode_flag confident_in_sweep
                              then LS_WaitLHB_ACode0 else LS_END) le)
            (sweep_data (data_of confident_in_sweep 0)) /\
     (80 < confidence (data_of confident_in_sweep 0) ->
      forall i, (i < List.length (sweep_data (data_of confident_in_sweep 0)))%nat ->
                sweep_accepted (3 * ((7000 + 2 / 2) / 2))
                  (nth i (sweep_data (data_of confident_in_sweep 0)) LE_zero) = true ->
                exists c, In (0%nat, c) new /\ lp_sensor_id c = Z.of_nat i)) /\
    (aborts (ProcessStateChange confident_in_sweep 0 LS_WaitLHA_ACode5) = true ->
     Exists (fun le => sweep_accepted (3 * ((7000 + 2 / 2) / 2)) le = true /\
                       sweep_offset_from (data_of confident_in_sweep 0)
                         (if mode_flag confident_in_sweep
                          then LS_WaitLHB_ACode0 else LS_END) le <= 0)
            (sweep_data (data_of confident_in_sweep 0)) /\
     disambiguator_data
       (so_at (ctx_of (ProcessStateChange confident_in_sweep 0 LS_WaitLHA_ACode5)) 0)
     = Some (data_of confident_in_sweep 0)).
Proof.
  apply (sweep_records confident_in_sweep 0 LS_WaitLHA_ACode5
           (data_of confident_in_sweep 0) 7000 2).
  - reflexivity.
  - reflexivity.
  - vm_compute. reflexivity.
  - reflexivity.
Defined.
